(** * kotonemu kernel: the process syscall layer and the line discipline

    A shallow embedding of [packages/kernel/Process.ts] (classes [Process] and
    [ReadInstance]) and of the file model of [packages/kernel/File.ts].

    Conventions.
    - A JavaScript [number] that holds an integer is a [Z]; the 32 bit
      operators ([>>], [|], [&]) convert their operands with [ToInt32] first.
      The few places where the code produces [-Infinity] or [NaN] (descriptor
      allocation, the default [count]) use the type [number] below.
    - An [ArrayBuffer] is a [list byte]; a JavaScript string that the line
      discipline handles is the list of its code points ([jsstring]).
    - Objects that the code mutates through a reference live in an explicit
      store: file entries in [objs], indexed by a reference [loc].
    - An exception is a value of [Exception]; a method that can throw returns
      the state reached so far together with [Ok v] or [Throw e]. *)

From Stdlib Require Import ZArith Lia Strings.Byte Ascii.
From stdpp Require Import gmap strings list pretty.

Local Open Scope Z_scope.

(** ** JavaScript values *)

(** [ToInt32]: the operand conversion of the 32 bit operators. *)
Definition ToInt32 (x : Z) : Z := (x + 2 ^ 31) mod 2 ^ 32 - 2 ^ 31.

(** [a >> n], [a | b] and [a & b]. *)
Definition js_shr (a n : Z) : Z := Z.shiftr (ToInt32 a) n.
Definition js_or (a b : Z) : Z := Z.lor (ToInt32 a) (ToInt32 b).
Definition js_and (a b : Z) : Z := Z.land (ToInt32 a) (ToInt32 b).

(** Truthiness of a number that is an integer: [!!x]. *)
Definition truthy (x : Z) : bool := negb (x =? 0).

(** The numbers that occur as descriptor handles and as byte counts. *)
Inductive number := Int (z : Z) | NegInfinity | PosInfinity | NaN.

Global Instance number_eq_dec : EqDecision number.
Proof. solve_decision. Defined.

Definition number_encode (n : number) : Z + nat :=
  match n with
  | Int z => inl z
  | NegInfinity => inr 0%nat
  | PosInfinity => inr 1%nat
  | NaN => inr 2%nat
  end.

Definition number_decode (x : Z + nat) : number :=
  match x with
  | inl z => Int z
  | inr 0%nat => NegInfinity
  | inr 1%nat => PosInfinity
  | inr _ => NaN
  end.

Global Program Instance number_countable : Countable number :=
  inj_countable' number_encode number_decode _.
Next Obligation. by intros []. Qed.

(** [a + b] on these numbers. *)
Definition js_add (a b : number) : number :=
  match a, b with
  | NaN, _ | _, NaN => NaN
  | PosInfinity, NegInfinity | NegInfinity, PosInfinity => NaN
  | PosInfinity, _ | _, PosInfinity => PosInfinity
  | NegInfinity, _ | _, NegInfinity => NegInfinity
  | Int x, Int y => Int (x + y)
  end.

(** [Math.max(a, b)]; [Math.max()] of no argument is [-Infinity]. *)
Definition Math_max2 (a b : number) : number :=
  match a, b with
  | NaN, _ | _, NaN => NaN
  | PosInfinity, _ | _, PosInfinity => PosInfinity
  | NegInfinity, x | x, NegInfinity => x
  | Int x, Int y => Int (Z.max x y)
  end.

Definition Math_max (l : list number) : number := foldr Math_max2 NegInfinity l.

(** [n.toString()]. *)
Definition toString (n : number) : string :=
  match n with
  | Int z => pretty z
  | NegInfinity => "-Infinity"
  | PosInfinity => "Infinity"
  | NaN => "NaN"
  end.

(** [parseInt] of a property key of the descriptor table.  A key is the
    [toString] of the number that was used as the index: an integer key
    parses to itself, the keys ["-Infinity"], ["Infinity"] and ["NaN"] start
    with no digit and parse to [NaN]. *)
Definition parseInt_key (k : number) : number :=
  match k with
  | Int z => Int z
  | _ => NaN
  end.

(** [ArrayBuffer.prototype.slice(begin, end)]: both ends are clamped to the
    buffer, a negative index counts from the end. *)
Definition clamp_index (len i : Z) : Z :=
  if i <? 0 then Z.max (len + i) 0 else Z.min i len.

Definition clamp_end (len : Z) (e : number) : Z :=
  match e with
  | Int i => clamp_index len i
  | PosInfinity => len
  | NegInfinity => 0
  | NaN => 0
  end.

Definition slice (data : list byte) (b : Z) (e : number) : list byte :=
  let len := Z.of_nat (length data) in
  let first := clamp_index len b in
  let final := clamp_end len e in
  take (Z.to_nat (final - first)) (drop (Z.to_nat first) data).

Definition byteLength (data : list byte) : Z := Z.of_nat (length data).

(** ** File model (File.ts) *)

Inductive FileKind :=
| RegularFile (data : list byte)
| ExecutableFile (data : option (list byte))
| DeviceFile
| SymbolicLink (target : string)
| FilesystemFile
| Directory.

Record File := {
  name : string;
  owner : Z;
  group : Z;
  mode : Z;
  deleted : bool;
  kind : FileKind
}.

Definition getFileType (value : File) : string :=
  match kind value with
  | RegularFile _ => "regular-file"
  | ExecutableFile _ => "executable-file"
  | DeviceFile => "device"
  | SymbolicLink _ => "symlink"
  | FilesystemFile => "filesystem"
  | Directory => "directory"
  end.

Definition isRegularFile (value : File) : bool :=
  String.eqb (getFileType value) "regular-file".
Definition isExecutableFile (value : File) : bool :=
  String.eqb (getFileType value) "executable-file".
Definition isDeviceFile (value : File) : bool :=
  String.eqb (getFileType value) "device".
Definition isSymbolicLink (value : File) : bool :=
  String.eqb (getFileType value) "symlink".
Definition isFilesystemFile (value : File) : bool :=
  String.eqb (getFileType value) "filesystem".
Definition isDirectory (value : File) : bool :=
  String.eqb (getFileType value) "directory".

(** ** Processes (Process.ts) *)

Record FileDescriptorData := {
  pathname : string;
  flags : Z;
  offset : Z
}.

(** The fields of [Process].  [fd] is a JavaScript array used as a table: its
    keys are the handles.  [children] keeps the ids of the child processes.
    The session [filesystem] is not a field here: every storage operation
    below receives the calling process, which is what a session bound to it
    can look at. *)
Record Process := {
  id : Z;
  pname : string;
  fd : gmap number FileDescriptorData;
  args : list string;
  env : gmap string string;
  children : list Z;
  uid : Z;
  gid : Z
}.

(** [Process._isPermitted]. *)
Definition _isPermitted (this : Process) (entry : File) (mode' : Z) : bool :=
  let owner_mode := js_shr (mode entry) 6 in
  let group_mode := js_shr (js_or (mode entry) 448 - 448) 3 in
  let other_mode := js_or (mode entry) 504 - 504 in
  let current_mode :=
    js_or (js_or (if owner entry =? uid this then owner_mode else 0)
                 (if group entry =? gid this then group_mode else 0))
          other_mode in
  truthy (js_and current_mode mode').

(** ** Exceptions and the state of a system call *)

(** The error classes of [Error.ts] that [Process.ts] imports, the
    [AlreadyExists] failure of the storage session, and the [TypeError] that
    the JavaScript runtime raises on a property access of [null] or
    [undefined].  The message of an error is not kept. *)
Inductive Exception :=
| EBADFD | ENOENT | ENOTDIR | EISDIR | EIO | ENOTEMPTY | ELIBBAD | EINVAL
| EACCES | EEXIST | TypeError.

Global Instance Exception_eq_dec : EqDecision Exception.
Proof. solve_decision. Defined.

Inductive Result (A : Type) :=
| Ok (v : A)
| Throw (e : Exception).
Arguments Ok {A} v.
Arguments Throw {A} e.

(** A reference to a file entry object. *)
Definition loc := nat.

(** What a storage session works on: the entry objects and the private state
    [FS] of the storage backend (the directory tree), which is not part of
    this file. *)
Record Vfs (FS : Type) := {
  objs : gmap loc File;
  backend : FS
}.
Arguments objs {FS} v.
Arguments backend {FS} v.

(** The storage session [FilesystemSession] of [Filesystem.ts], as
    [Process.ts] calls it.  The second argument of [get] and of [delete] is
    optional in the calls, hence the [option].  [get] only looks things up. *)
Class FilesystemSession (FS : Type) := {
  filesystem_get :
    Vfs FS -> Process -> list string -> option bool -> Result loc;
  filesystem_create :
    Vfs FS -> Process -> string -> File -> Vfs FS * Result unit;
  filesystem_delete :
    Vfs FS -> Process -> string -> option bool -> Vfs FS * Result unit;
  filesystem_list :
    Vfs FS -> Process -> string -> Result (list string)
}.

(** The constants of [Flags.ts] and of the emulator, and the helpers of
    [Utils.ts]: none of them is in the sources at hand, the embedding takes
    them as parameters. *)
Class Platform := {
  OpenFlag_READ : Z;
  OpenFlag_WRITE : Z;
  UnlinkFlag_REMOVE_DIR : Z;
  StatMode_IFDIR : Z;
  StatMode_IFREG : Z;
  StatMode_IFCHR : Z;
  StatMode_IFLNK : Z;
  PROCESS_DIRECTORY : string;
  generateFakeElfFile : list byte;
  resolve : string -> option string -> list string;
  dirname : string -> string;
  basename : string -> string;
  join : list string -> string
}.

(** Modelled from the spec: [concatArrayBuffer] of [Utils.ts] is missing; the
    spec of [write] says of its three arguments "bytes before offset kept,
    new bytes inserted, trailing bytes after offset kept". *)
Definition concatArrayBuffer (a b c : list byte) : list byte := a ++ b ++ c.

(** The emulator and everything outside of the calling process: the storage,
    the pid counter [emulator.newPid] and the buffers handed to the [write]
    method of a device, latest first. *)
Record World (FS : Type) := {
  vfs : Vfs FS;
  newPid : Z;
  device_writes : list (loc * list byte)
}.
Arguments vfs {FS} w.
Arguments newPid {FS} w.
Arguments device_writes {FS} w.

Record State (FS : Type) := {
  proc : Process;
  world : World FS
}.
Arguments proc {FS} s.
Arguments world {FS} s.

(** A method of [Process]: it runs on the process and the world and ends with
    a value or with an exception; the state changes made before a [throw]
    stay. *)
Definition M (FS : Type) (A : Type) : Type := State FS -> State FS * Result A.

Definition ret {FS A} (v : A) : M FS A := fun s => (s, Ok v).
Definition throw {FS A} (e : Exception) : M FS A := fun s => (s, Throw e).
Definition bind {FS A B} (m : M FS A) (k : A -> M FS B) : M FS B :=
  fun s =>
    match m s with
    | (s', Ok v) => k v s'
    | (s', Throw e) => (s', Throw e)
    end.
Definition try_catch {FS A} (m : M FS A) (handler : Exception -> M FS A) : M FS A :=
  fun s =>
    match m s with
    | (s', Ok v) => (s', Ok v)
    | (s', Throw e) => handler e s'
    end.

Notation "x <- m ;; k" := (bind m (fun x => k))
  (at level 20, m at level 99, k at level 200, only parsing).
Notation "m ;; k" := (bind m (fun _ => k))
  (at level 100, k at level 200, only parsing, right associativity).

Definition this {FS} : M FS Process := fun s => (s, Ok (proc s)).
Definition set_fd {FS} (t : gmap number FileDescriptorData) : M FS unit :=
  fun s =>
    let p := proc s in
    ({| proc := {| id := id p; pname := pname p; fd := t; args := args p;
                   env := env p; children := children p;
                   uid := uid p; gid := gid p |};
        world := world s |}, Ok tt).
Definition set_children {FS} (c : list Z) : M FS unit :=
  fun s =>
    let p := proc s in
    ({| proc := {| id := id p; pname := pname p; fd := fd p; args := args p;
                   env := env p; children := c;
                   uid := uid p; gid := gid p |};
        world := world s |}, Ok tt).
Definition set_vfs {FS} (v : Vfs FS) : M FS unit :=
  fun s =>
    ({| proc := proc s;
        world := {| vfs := v; newPid := newPid (world s);
                    device_writes := device_writes (world s) |} |}, Ok tt).

(** [entry.data = d] and the like: the object at [l] becomes [f]. *)
Definition store_entry {FS} (l : loc) (f : File) : M FS unit :=
  fun s =>
    let v := vfs (world s) in
    set_vfs {| objs := <[l := f]> (objs v); backend := backend v |} s.

(** ** The methods of [Process] *)

(** What [ProcessInit] carries into the constructor. *)
Record ProcessInit := {
  init_id : Z;
  init_name : string;
  init_fd : option (gmap number FileDescriptorData);
  init_args : option (list string);
  init_env : gmap string string;
  init_uid : Z;
  init_gid : Z
}.

(** [new Process(emulator, process)]. *)
Definition new_Process (process : ProcessInit) : Process :=
  {| id := init_id process;
     pname := init_name process;
     fd := default ∅ (init_fd process);
     children := [];
     args := default [] (init_args process);
     env := init_env process;
     uid := 0;
     gid := 0 |}.

(** The result of [read]: the bytes of a file, or the value that the [read]
    method of the device at [l] will produce, which the caller awaits. *)
Inductive ReadResult :=
| Data (d : list byte)
| AwaitDevice (l : loc).

Record Stat := {
  st_mode : Z;
  st_owner : Z;
  st_group : Z;
  st_size : Z
}.

Section Syscalls.
Context {FS : Type} `{!Platform} `{!FilesystemSession FS}.

(** [this.env.PWD]. *)
Definition PWD (p : Process) : option string := env p !! "PWD".

(** [this.filesystem.get(path, follow)]: the reference that the session
    returns, paired with the entry object it points to. *)
Definition fs_get (path : list string) (follow : option bool) : M FS (loc * File) :=
  fun s =>
    match filesystem_get (vfs (world s)) (proc s) path follow with
    | Ok l =>
        match objs (vfs (world s)) !! l with
        | Some f => (s, Ok (l, f))
        | None => (s, Throw TypeError)
        end
    | Throw e => (s, Throw e)
    end.

(** [this.filesystem.create(parent, entry)]. *)
Definition fs_create (parent : string) (entry : File) : M FS unit :=
  fun s =>
    let '(v, r) := filesystem_create (vfs (world s)) (proc s) parent entry in
    (fst (set_vfs v s), r).

(** [this.filesystem.delete(path, recursive)]. *)
Definition fs_delete (path : string) (recursive : option bool) : M FS unit :=
  fun s =>
    let '(v, r) := filesystem_delete (vfs (world s)) (proc s) path recursive in
    (fst (set_vfs v s), r).

Definition _requireFileDescriptorData (fd' : number) : M FS FileDescriptorData :=
  p <- this ;;
  match fd p !! fd' with
  | Some fdData => ret fdData
  | None => throw EBADFD
  end.

Definition _createFileDescriptor (pathname' : string) (flags' : Z) : M FS number :=
  p <- this ;;
  let fdData := {| pathname := pathname'; offset := 0; flags := flags' |} in
  let fdId :=
    js_add (Math_max (parseInt_key <$> (map_to_list (fd p)).*1)) (Int 1) in
  set_fd (<[fdId := fdData]> (fd p)) ;;
  ret fdId.

Definition is_ENOENT (e : Exception) : bool :=
  match e with ENOENT => true | _ => false end.

Definition open (pathname' : string) (flags' : Z) : M FS number :=
  p <- this ;;
  entry <-
    try_catch (fs_get (resolve pathname' (PWD p)) None)
      (fun e =>
         if truthy (js_and flags' OpenFlag_WRITE) && is_ENOENT e then
           parentEntry <- fs_get (resolve (dirname pathname') (PWD p)) None ;;
           if negb (_isPermitted p parentEntry.2 2) then throw EACCES else
           fs_create (dirname pathname')
             {| name := basename pathname';
                kind := RegularFile [];
                owner := 0;
                group := 0;
                mode := 511;
                deleted := false |} ;;
           fs_get (resolve pathname' (PWD p)) (Some true)
         else throw e) ;;
  if isDirectory entry.2 then throw EISDIR else
  if truthy (js_and flags' OpenFlag_READ) && negb (_isPermitted p entry.2 4)
  then throw EACCES else
  if truthy (js_and flags' OpenFlag_WRITE) && negb (_isPermitted p entry.2 2)
  then throw EACCES else
  fd' <- _createFileDescriptor pathname' flags' ;;
  fs_create (join [PROCESS_DIRECTORY; toString (Int (id p)); "fd"])
    {| name := toString fd';
       kind := SymbolicLink pathname';
       owner := 0;
       group := 0;
       mode := 448;
       deleted := false |} ;;
  ret fd'.

Definition unlink (pathname' : string) (flags' : Z) : M FS unit :=
  p <- this ;;
  entry <- fs_get (resolve pathname' (PWD p)) None ;;
  (if truthy (js_and flags' UnlinkFlag_REMOVE_DIR) then
     if negb (isDirectory entry.2) then throw ENOTDIR else
     fs_delete pathname' (Some true)
   else
     if isDirectory entry.2 then throw EISDIR else ret tt) ;;
  fs_delete pathname' (Some false).

Definition close (fd' : number) : M FS unit :=
  p <- this ;;
  unlink (join [PROCESS_DIRECTORY; toString (Int (id p)); "fd"; toString fd']) 0 ;;
  p <- this ;;
  set_fd (delete fd' (fd p)).

Definition seek (fd' : number) (offset' : Z) : M FS unit :=
  fdd <- _requireFileDescriptorData fd' ;;
  p <- this ;;
  set_fd (<[fd' := {| pathname := pathname fdd; flags := flags fdd;
                      offset := offset' |}]> (fd p)).

(** [entry.data], and the entry after the assignment [entry.data = d]. *)
Definition entry_data (entry : File) : option (list byte) :=
  match kind entry with
  | RegularFile d => Some d
  | ExecutableFile d => d
  | _ => None
  end.

Definition with_data (entry : File) (d : list byte) : File :=
  {| name := name entry; owner := owner entry; group := group entry;
     mode := mode entry; deleted := deleted entry;
     kind := match kind entry with
             | RegularFile _ => RegularFile d
             | ExecutableFile _ => ExecutableFile (Some d)
             | k => k
             end |}.

(** [count] is [PosInfinity] when the caller leaves it out. *)
Definition read (fd' : number) (count : number) : M FS ReadResult :=
  fdd <- _requireFileDescriptorData fd' ;;
  if negb (truthy (js_and (flags fdd) OpenFlag_READ)) then throw EBADFD else
  p <- this ;;
  entry <- fs_get (resolve (pathname fdd) (PWD p)) (Some true) ;;
  if isDirectory entry.2 then throw EISDIR else
  if isRegularFile entry.2 || isExecutableFile entry.2 then
    (match entry_data entry.2 with
     | Some _ => ret tt
     | None => store_entry entry.1 (with_data entry.2 generateFakeElfFile)
     end) ;;
    let entry_data' := default generateFakeElfFile (entry_data entry.2) in
    let data :=
      slice entry_data' (offset fdd) (js_add (Int (offset fdd)) count) in
    seek fd' (offset fdd + byteLength data) ;;
    ret (Data data)
  else if isDeviceFile entry.2 then ret (AwaitDevice entry.1)
  else throw EIO.

(** [entry.write(buf)] on a device. *)
Definition device_write (l : loc) (buf : list byte) : M FS unit :=
  fun s =>
    ({| proc := proc s;
        world := {| vfs := vfs (world s); newPid := newPid (world s);
                    device_writes := (l, buf) :: device_writes (world s) |} |},
     Ok tt).

(** [slice edata o PosInfinity] is [entry.data.slice(o)], the end left out. *)
Definition write (fd' : number) (buf : list byte) (count : number) : M FS unit :=
  fdd <- _requireFileDescriptorData fd' ;;
  if negb (truthy (js_and (flags fdd) OpenFlag_WRITE)) then throw EBADFD else
  p <- this ;;
  entry <- fs_get (resolve (pathname fdd) (PWD p)) (Some true) ;;
  if isDirectory entry.2 then throw EISDIR else
  if isRegularFile entry.2 then
    let data := slice buf 0 count in
    let edata := default [] (entry_data entry.2) in
    store_entry entry.1
      (with_data entry.2
         (concatArrayBuffer (slice edata 0 (Int (offset fdd))) data
                            (slice edata (offset fdd) PosInfinity))) ;;
    seek fd' (offset fdd + byteLength data)
  else if isDeviceFile entry.2 then device_write entry.1 buf
  else throw EIO.

Definition _stat (entry : File) : Stat :=
  let mode' :=
    js_or (js_or (js_or (if isDirectory entry then StatMode_IFDIR else 0)
                        (if isRegularFile entry then StatMode_IFREG else 0))
                 (if isDeviceFile entry then StatMode_IFCHR else 0))
          (if isSymbolicLink entry then StatMode_IFLNK else 0) in
  {| st_mode := js_or (mode entry) mode';
     st_owner := owner entry;
     st_group := group entry;
     st_size := 0 |}.

Definition stat (pathname' : string) : M FS Stat :=
  p <- this ;;
  entry <- fs_get (resolve pathname' (PWD p)) (Some true) ;;
  ret (_stat entry.2).

Definition fstat (fd' : number) : M FS Stat :=
  fdd <- _requireFileDescriptorData fd' ;;
  p <- this ;;
  entry <- fs_get (resolve (pathname fdd) (PWD p)) None ;;
  ret (_stat entry.2).

Definition lstat (pathname' : string) : M FS Stat :=
  p <- this ;;
  entry <- fs_get (resolve pathname' (PWD p)) None ;;
  ret (_stat entry.2).

Definition getuid : M FS Z := p <- this ;; ret (uid p).
Definition setuid (uid' : Z) : M FS unit :=
  fun s =>
    let p := proc s in
    ({| proc := {| id := id p; pname := pname p; fd := fd p; args := args p;
                   env := env p; children := children p;
                   uid := uid'; gid := gid p |};
        world := world s |}, Ok tt).
Definition getgid : M FS Z := p <- this ;; ret (gid p).
Definition setgid (gid' : Z) : M FS unit :=
  fun s =>
    let p := proc s in
    ({| proc := {| id := id p; pname := pname p; fd := fd p; args := args p;
                   env := env p; children := children p;
                   uid := uid p; gid := gid' |};
        world := world s |}, Ok tt).

(** [this.emulator.newPid++]. *)
Definition increment_newPid : M FS unit :=
  fun s =>
    ({| proc := proc s;
        world := {| vfs := vfs (world s); newPid := newPid (world s) + 1;
                    device_writes := device_writes (world s) |} |}, Ok tt).

(** Runs [m] with [process] as its [this], on the world of the caller; the
    caller gets the final state of [process] back with the result. *)
Definition bound_to {A} (process : Process) (m : M FS A) : M FS (Process * A) :=
  fun s =>
    match m {| proc := process; world := world s |} with
    | (s', Ok v) => ({| proc := proc s; world := world s' |}, Ok (proc s', v))
    | (s', Throw e) => ({| proc := proc s; world := world s' |}, Throw e)
    end.

(** The part of [spawn] that sets the new process up: the three descriptors
    on the terminal. *)
Definition spawn_stdio : M FS unit :=
  open "/dev/tty1" OpenFlag_READ ;;
  open "/dev/tty1" OpenFlag_WRITE ;;
  open "/dev/tty1" OpenFlag_WRITE ;;
  ret tt.

Definition spawn (callback : M FS unit) : M FS unit :=
  p <- this ;;
  newPid' <- (fun s => (s, Ok (newPid (world s)))) ;;
  let process :=
    new_Process {| init_id := newPid';
                   init_name := "New Process";
                   init_fd := None;
                   init_args := None;
                   init_env := env p;
                   init_uid := uid p;
                   init_gid := gid p |} in
  increment_newPid ;;
  set_children (children p ++ [id process]) ;;
  r <- bound_to process (spawn_stdio ;; callback) ;;
  p <- this ;;
  set_children (filter (fun c => c ≠ id r.1) (children p)).

End Syscalls.

(** ** A concrete platform and storage session

    [Flags.ts], [Utils.ts] and [Filesystem.ts] are not among the sources.  The
    theorems on the methods of [Process] hold for every [Platform] and every
    [FilesystemSession]; the instances of this module are what the concrete
    runs use. *)
Module Sample.

(** Modelled from the spec: the path helpers of [Utils.ts] are missing; this
    is the usual meaning of their names on [/]-separated paths. *)
Fixpoint split_path (s cur : string) : list string :=
  match s with
  | EmptyString => if String.eqb cur "" then [] else [cur]
  | String c s' =>
      if Ascii.eqb c "/"
      then (if String.eqb cur "" then [] else [cur]) ++ split_path s' ""
      else split_path s' (cur +:+ String c EmptyString)
  end.

(** Modelled from the spec: part of the missing [resolve]; a path that
    starts with the separator is absolute. *)
Definition is_absolute (s : string) : bool :=
  match s with
  | String c _ => Ascii.eqb c "/"
  | EmptyString => false
  end.

(** Modelled from the spec: [resolve] of [Utils.ts] is missing; "all path
    arguments are resolved relative to the process's working-directory
    environment variable before reaching storage". *)
Definition path_resolve (pathname' : string) (pwd : option string) : list string :=
  if is_absolute pathname' then split_path pathname' ""
  else split_path (default "/" pwd) "" ++ split_path pathname' "".

(** Modelled from the spec: [join] of [Utils.ts] is missing; the parts with
    the separator between them. *)
Definition path_join (parts : list string) : string := String.concat "/" parts.

(** Modelled from the spec: [dirname] of [Utils.ts] is missing; the path of
    the parent directory. *)
Definition path_dirname (pathname' : string) : string :=
  (if is_absolute pathname' then "/" else "")
    +:+ path_join (removelast (split_path pathname' "")).

(** Modelled from the spec: [basename] of [Utils.ts] is missing; the last
    component of the path. *)
Definition path_basename (pathname' : string) : string :=
  default "" (last (split_path pathname' "")).

(** Modelled from the spec: [Flags.ts] is missing; the spec names the flags
    (read, write, "remove directory") and the type bits, the values here
    are those of POSIX. *)
Global Instance platform : Platform := {|
  OpenFlag_READ := 1;
  OpenFlag_WRITE := 2;
  UnlinkFlag_REMOVE_DIR := 512;
  StatMode_IFDIR := 16384;
  StatMode_IFREG := 32768;
  StatMode_IFCHR := 8192;
  StatMode_IFLNK := 40960;
  PROCESS_DIRECTORY := "/proc";
  generateFakeElfFile := [x7f; x45; x4c; x46];
  resolve := path_resolve;
  dirname := path_dirname;
  basename := path_basename;
  join := path_join
|}.

(** Modelled from the spec: the storage backend of [Filesystem.ts] is
    missing ("the hierarchical storage backend that actually holds file
    entries and resolves directory trees").  Here it is the entry reference
    of every path that exists (the root is the empty path), and the next
    free reference. *)
Record Tree := {
  paths : gmap (list string) loc;
  next : loc
}.

(** Modelled from the spec: the link resolution of the missing [get]
    ("link target followed"); a chain of more than [fuel] links is not
    found. *)
Fixpoint follow_links (fuel : nat) (v : Vfs Tree) (l : loc) : Result loc :=
  match objs v !! l with
  | Some {| kind := SymbolicLink target |} =>
      match fuel with
      | O => Throw ENOENT
      | S fuel' =>
          match paths (backend v) !! split_path target "" with
          | Some l' => follow_links fuel' v l'
          | None => Throw ENOENT
          end
      end
  | _ => Ok l
  end.

(** Modelled from the spec: [get(path, followLinks) -> File |
    fails(NotFound|NotADirectory)]; a call that leaves [followLinks] out
    does not follow a terminal link, as the comment of [lstat] says. *)
Definition tree_get (v : Vfs Tree) (p : Process) (path : list string)
    (follow : option bool) : Result loc :=
  match paths (backend v) !! path with
  | None => Throw ENOENT
  | Some l =>
      match follow with
      | Some true => follow_links 8 v l
      | _ => Ok l
      end
  end.

(** Modelled from the spec: [create(parentPath, newEntry) ->
    fails(NotFound|AlreadyExists)]. *)
Definition tree_create (v : Vfs Tree) (p : Process) (parent : string)
    (entry : File) : Vfs Tree * Result unit :=
  let ppath := split_path parent "" in
  match paths (backend v) !! ppath with
  | None => (v, Throw ENOENT)
  | Some _ =>
      match paths (backend v) !! (ppath ++ [name entry]) with
      | Some _ => (v, Throw EEXIST)
      | None =>
          let l := next (backend v) in
          ({| objs := <[l := entry]> (objs v);
              backend := {| paths := <[ppath ++ [name entry] := l]> (paths (backend v));
                            next := S l |} |}, Ok tt)
      end
  end.

(** Modelled from the spec: part of the missing [delete] and [list]; the
    entries inside the directory [path]. *)
Definition below (path : list string) (kv : list string * loc) : bool :=
  bool_decide (path `prefix_of` kv.1) && negb (bool_decide (path = kv.1)).

(** Modelled from the spec: [delete(path, recursive) ->
    fails(NotFound|DirectoryNotEmpty)]. *)
Definition tree_delete (v : Vfs Tree) (p : Process) (path : string)
    (recursive : option bool) : Vfs Tree * Result unit :=
  let path' := split_path path "" in
  match paths (backend v) !! path' with
  | None => (v, Throw ENOENT)
  | Some _ =>
      let inside := List.filter (below path') (map_to_list (paths (backend v))) in
      match inside, recursive with
      | _ :: _, None | _ :: _, Some false => (v, Throw ENOTEMPTY)
      | _, _ =>
          ({| objs := objs v;
              backend :=
                {| paths := list_to_map
                     (List.filter
                        (fun kv => negb (bool_decide (path' `prefix_of` kv.1)))
                        (map_to_list (paths (backend v))));
                   next := next (backend v) |} |}, Ok tt)
      end
  end.

(** Modelled from the spec: [list(path) -> sequence of names]. *)
Definition tree_list (v : Vfs Tree) (p : Process) (path : string)
    : Result (list string) :=
  let path' := split_path path "" in
  match paths (backend v) !! path' with
  | None => Throw ENOENT
  | Some _ =>
      Ok (omap (fun kv : list string * loc =>
                  if below path' kv && bool_decide (length kv.1 = S (length path'))
                  then last kv.1 else None)
               (map_to_list (paths (backend v))))
  end.

(** Modelled from the spec: the session of [Filesystem.ts] is missing; the
    four operations above. *)
Global Instance session : FilesystemSession Tree := {|
  filesystem_get := tree_get;
  filesystem_create := tree_create;
  filesystem_delete := tree_delete;
  filesystem_list := tree_list
|}.

End Sample.

(** ** The line discipline: class [ReadInstance] *)

(** A string is the list of its code points.  The strings of [ReadInstance]
    are made of what [TextDecoder] produces, which are Unicode scalar values,
    so that the list of code points determines the string. *)
Definition jsstring := list Z.

(** [str.length] counts UTF-16 code units. *)
Definition units (c : Z) : Z := if c <? 65536 then 1 else 2.
Definition js_length (str : jsstring) : Z := foldr (fun c n => units c + n) 0 str.

(** [str.charCodeAt(0)] of a string of one code point. *)
Definition charCodeAt0 (c : Z) : Z :=
  if c <? 65536 then c else 55296 + Z.shiftr (c - 65536) 10.

(** The decimal digits of a number inside a template string. *)
Definition of_string (s : string) : jsstring :=
  (fun a => Z.of_N (N_of_ascii a)) <$> String.list_ascii_of_string s.
Definition decimal (n : Z) : jsstring := of_string (pretty n).

(** [TextDecoder("utf-8").decode]: the UTF-8 decoder of the Encoding
    standard.  A byte sequence that is not UTF-8 gives U+FFFD, and a leading
    byte order mark is dropped. *)
Record Utf8Pending := {
  utf8_code_point : Z;
  utf8_bytes_left : nat;
  utf8_lower : Z;
  utf8_upper : Z
}.

Definition utf8_first (b : Z) : list Z * option Utf8Pending :=
  if b <=? 127 then ([b], None)
  else if (194 <=? b) && (b <=? 223) then
    ([], Some {| utf8_code_point := Z.land b 31; utf8_bytes_left := 1;
                 utf8_lower := 128; utf8_upper := 191 |})
  else if (224 <=? b) && (b <=? 239) then
    ([], Some {| utf8_code_point := Z.land b 15; utf8_bytes_left := 2;
                 utf8_lower := if b =? 224 then 160 else 128;
                 utf8_upper := if b =? 237 then 159 else 191 |})
  else if (240 <=? b) && (b <=? 244) then
    ([], Some {| utf8_code_point := Z.land b 7; utf8_bytes_left := 3;
                 utf8_lower := if b =? 240 then 144 else 128;
                 utf8_upper := if b =? 244 then 143 else 191 |})
  else ([65533], None).

Fixpoint utf8_decode (pending : option Utf8Pending) (bytes : list Z) : list Z :=
  match bytes with
  | [] => match pending with Some _ => [65533] | None => [] end
  | b :: bytes' =>
      match pending with
      | None =>
          let '(out, pending') := utf8_first b in out ++ utf8_decode pending' bytes'
      | Some p =>
          if (b <? utf8_lower p) || (utf8_upper p <? b) then
            let '(out, pending') := utf8_first b in
            65533 :: out ++ utf8_decode pending' bytes'
          else
            let cp := Z.lor (Z.shiftl (utf8_code_point p) 6) (Z.land b 63) in
            match utf8_bytes_left p with
            | S (S n) =>
                utf8_decode
                  (Some {| utf8_code_point := cp; utf8_bytes_left := S n;
                           utf8_lower := 128; utf8_upper := 191 |}) bytes'
            | _ => cp :: utf8_decode None bytes'
            end
      end
  end.

Definition TextDecoder_decode (value : list byte) : jsstring :=
  match utf8_decode None ((fun b => Z.of_N (Byte.to_N b)) <$> value) with
  | 65279 :: str => str
  | str => str
  end.

(** [.replaceAll("\r\n", "\n").replaceAll("\r", "\n")]. *)
Fixpoint replace_crlf (str : jsstring) : jsstring :=
  match str with
  | 13 :: ((10 :: _) as str') => replace_crlf str'
  | c :: str' => c :: replace_crlf str'
  | [] => []
  end.
Definition replace_cr (str : jsstring) : jsstring :=
  (fun c => if c =? 13 then 10 else c) <$> str.

(** The regular expressions [/(.)$/u] and [/^(.)/u]: with the [u] flag [.] is
    one code point that is not a line terminator. *)
Definition dot (c : Z) : bool :=
  negb ((c =? 10) || (c =? 13) || (c =? 8232) || (c =? 8233)).

(** [str.match(/(.)$/u)]: [None] is [null]. *)
Definition match_last (str : jsstring) : option jsstring :=
  match last str with
  | Some c => if dot c then Some [c] else None
  | None => None
  end.
(** [str.replace(/.$/u, "")]. *)
Definition replace_last (str : jsstring) : jsstring :=
  match match_last str with
  | Some _ => removelast str
  | None => str
  end.
(** [str.match(/^(.)/u)]. *)
Definition match_first (str : jsstring) : option jsstring :=
  match str with
  | c :: _ => if dot c then Some [c] else None
  | [] => None
  end.
(** [str.replace(/^./u, "")]. *)
Definition replace_first (str : jsstring) : jsstring :=
  match match_first str with
  | Some _ => tail str
  | None => str
  end.

Module LineEdit.

(** The fields of a [ReadInstance]; [buffer.forward] and [buffer.backward]
    are flattened. *)
Record ReadInstance := {
  forward : jsstring;
  backward : jsstring;
  hasEnded : bool
}.

(** [new ReadInstance()]. *)
Definition new_ReadInstance : ReadInstance :=
  {| forward := []; backward := []; hasEnded := false |}.

(** [get line()]. *)
Definition line (r : ReadInstance) : jsstring := backward r ++ forward r.

(** The variables of one call of [process]: the instance, the characters
    not read yet, the echo and the pending blanks. *)
Record Local := {
  inst : ReadInstance;
  chars : list Z;
  response : jsstring;
  shiftCount : Z
}.

Definition set_backward (str : jsstring) (s : Local) : Local :=
  {| inst := {| forward := forward (inst s); backward := str;
                hasEnded := hasEnded (inst s) |};
     chars := chars s; response := response s; shiftCount := shiftCount s |}.
Definition set_forward (str : jsstring) (s : Local) : Local :=
  {| inst := {| forward := str; backward := backward (inst s);
                hasEnded := hasEnded (inst s) |};
     chars := chars s; response := response s; shiftCount := shiftCount s |}.
Definition set_hasEnded (b : bool) (s : Local) : Local :=
  {| inst := {| forward := forward (inst s); backward := backward (inst s);
                hasEnded := b |};
     chars := chars s; response := response s; shiftCount := shiftCount s |}.
Definition set_chars (l : list Z) (s : Local) : Local :=
  {| inst := inst s; chars := l; response := response s;
     shiftCount := shiftCount s |}.
Definition set_shiftCount (n : Z) (s : Local) : Local :=
  {| inst := inst s; chars := chars s; response := response s;
     shiftCount := n |}.

Definition BEL : Z := 7.
Definition ESC : Z := 27.

(** The closures [write], [bell] and [getLength] of [process]. *)
Definition write (char : jsstring) (s : Local) : Local :=
  {| inst := inst s; chars := chars s; response := response s ++ char;
     shiftCount := shiftCount s |}.
Definition bell (s : Local) : Local :=
  if bool_decide (BEL ∈ response s) then s else write [BEL] s.
Definition getLength (str : jsstring) : Z := js_length str.

(** ["\x1B[" + n + letter]. *)
Definition csi (n : Z) (letter : Z) : jsstring :=
  [ESC; 91] ++ decimal n ++ [letter].

(** The chain of [if] on [command] that follows the scan of an escape
    sequence.  [None] is [undefined]; [args] only reaches [console.log]. *)
Definition run_command (command : option Z) (args : jsstring) (s : Local)
    : Local * Result unit :=
  let b := inst s in
  match command with
  | Some 65 | Some 66 => (s, Ok tt)
  | Some 67 =>
      if bool_decide (forward b = []) then (bell s, Ok tt) else
      match match_first (forward b) with
      | None => (s, Throw TypeError)
      | Some movingChar =>
          let s := set_backward (backward b ++ movingChar) s in
          let s := set_forward (replace_first (forward b)) s in
          (write (csi (getLength movingChar) 67) s, Ok tt)
      end
  | Some 68 =>
      if bool_decide (backward b = []) then (bell s, Ok tt) else
      match match_last (backward b) with
      | None => (s, Throw TypeError)
      | Some movingChar =>
          let s := set_forward (movingChar ++ forward b) s in
          let s := set_backward (replace_last (backward b)) s in
          (write (csi (getLength movingChar) 68) s, Ok tt)
      end
  | Some 72 =>
      if bool_decide (backward b = []) then (bell s, Ok tt) else
      let length := getLength (backward b) in
      let s := set_forward (backward b ++ forward b) s in
      let s := set_backward [] s in
      (write (csi length 68) s, Ok tt)
  | Some 70 =>
      if bool_decide (forward b = []) then (bell s, Ok tt) else
      let length := getLength (forward b) in
      let s := set_backward (backward b ++ forward b) s in
      let s := set_forward [] s in
      (write (csi length 67) s, Ok tt)
  | _ => (s, Ok tt)
  end.

(** The closure [read] and the loop [while (!command)] inside it.  Both
    recurse on the characters left; [fuel] bounds the depth, and [None]
    means that it ran out. *)
Fixpoint read (fuel : nat) (push : bool) (s : Local)
    : option (Local * Result (option Z)) :=
  match fuel with
  | O => None
  | S fuel' =>
      let char := head (chars s) in
      let s := set_chars (tail (chars s)) s in
      match char with
      | Some c =>
          if (c =? 127) || (c =? 8) then
            if bool_decide (backward (inst s) = []) then Some (bell s, Ok char)
            else
              match match_last (backward (inst s)) with
              | None => Some (s, Throw TypeError)
              | Some removingChar =>
                  let s := set_backward (replace_last (backward (inst s))) s in
                  let length := getLength removingChar in
                  let s := set_shiftCount (shiftCount s + length) s in
                  Some (write (csi length 68) s, Ok char)
              end
          else if c =? 27 then
            match read fuel' false s with
            | None => None
            | Some (s, Throw e) => Some (s, Throw e)
            | Some (s, Ok (Some 91)) =>
                match scan fuel' [] s with
                | None => None
                | Some (s, Throw e) => Some (s, Throw e)
                | Some (s, Ok (args, command)) =>
                    match run_command command args s with
                    | (s, Throw e) => Some (s, Throw e)
                    | (s, Ok _) => Some (s, Ok char)
                    end
                end
            | Some (s, Ok _) => Some (s, Ok char)
            end
          else if c =? 10 then
            let s := set_hasEnded true s in
            Some (write [c] s, Ok char)
          else
            let s := if push then set_backward (backward (inst s) ++ [c]) s else s in
            let s := if push then write [c] s else s in
            Some (s, Ok char)
      | None =>
          (* [char] is [undefined]: [backward += char] appends its name *)
          let s :=
            if push
            then set_backward (backward (inst s) ++ of_string "undefined") s
            else s in
          Some (s, Ok None)
      end
  end
with scan (fuel : nat) (args : jsstring) (s : Local)
    : option (Local * Result (jsstring * option Z)) :=
  match fuel with
  | O => None
  | S fuel' =>
      match read fuel' false s with
      | None => None
      | Some (s, Throw e) => Some (s, Throw e)
      | Some (s, Ok None) => Some (s, Ok (args, None))
      | Some (s, Ok (Some sequenceChar)) =>
          let sequenceCharCode := charCodeAt0 sequenceChar in
          if (sequenceChar =? 59)
             || (48 <=? sequenceCharCode) && (sequenceCharCode <=? 57)
          then scan fuel' (args ++ [sequenceChar]) s
          else Some (s, Ok (args, Some sequenceChar))
      end
  end.

(** The loop [while (chars.length !== 0) { read(); if (this.hasEnded) break; }];
    [n] bounds the number of rounds. *)
Fixpoint loop (n fuel : nat) (s : Local) : option (Local * Result unit) :=
  match chars s with
  | [] => Some (s, Ok tt)
  | _ :: _ =>
      match n with
      | O => None
      | S n' =>
          match read fuel true s with
          | None => None
          | Some (s, Throw e) => Some (s, Throw e)
          | Some (s, Ok _) =>
              if hasEnded (inst s) then Some (s, Ok tt) else loop n' fuel s
          end
      end
  end.

(** The value that [process] returns, from the variables after the loop. *)
Definition echo (s : Local) : jsstring :=
  let f := forward (inst s) in
  response s ++
    (if 0 <? js_length f + shiftCount s
     then f ++ replicate (Z.to_nat (shiftCount s)) 32
            ++ csi (js_length f + shiftCount s) 68
     else []).

(** [process] from the decoded characters on. *)
Definition process_chars (r : ReadInstance) (cs : list Z)
    : option (ReadInstance * Result jsstring) :=
  let s := {| inst := r; chars := cs; response := []; shiftCount := 0 |} in
  match loop (length cs) (2 * length cs + 2) s with
  | None => None
  | Some (s, Throw e) => Some (inst s, Throw e)
  | Some (s, Ok _) => Some (inst s, Ok (echo s))
  end.

(** [ReadInstance.process]. *)
Definition process (r : ReadInstance) (value : list byte)
    : option (ReadInstance * Result jsstring) :=
  process_chars r (replace_cr (replace_crlf (TextDecoder_decode value))).

(** *** Vocabulary for the line discipline *)

(** The classes of characters that [read] tells apart, and the parameter
    characters of an escape sequence (a semicolon or a digit). *)
Definition is_backspace (c : Z) : bool := (c =? 127) || (c =? 8).
Definition is_param (c : Z) : bool :=
  (c =? 59) || (48 <=? charCodeAt0 c) && (charCodeAt0 c <=? 57).
Definition is_plain (c : Z) : bool :=
  negb (is_backspace c) && negb (c =? 27) && negb (c =? 10).

(** The state after [chars.shift()]. *)
Definition shifted (s : Local) : Local := set_chars (tail (chars s)) s.

(** [consumed pre s s']: from [s] to [s'] the characters [pre] were read, and
    the end flag was set only if a newline was among them. *)
Definition consumed (pre : list Z) (s s' : Local) : Prop :=
  chars s = pre ++ chars s'
  /\ (hasEnded (inst s') = hasEnded (inst s)
      \/ (hasEnded (inst s') = true /\ 10 ∈ pre)).

(** What follows [ESC] and the bracket. *)
Definition after_bracket (scanned : option (Local * Result (jsstring * option Z)))
    : option (Local * Result (option Z)) :=
  match scanned with
  | None => None
  | Some (s2, Throw e) => Some (s2, Throw e)
  | Some (s2, Ok (args', command)) =>
      match run_command command args' s2 with
      | (s3, Throw e) => Some (s3, Throw e)
      | (s3, Ok _) => Some (s3, Ok (Some 27))
      end
  end.


(** The cursor commands right (C), left (D), home (H) and end (F), and an
    escape sequence that carries one of them. *)
Definition is_cursor_command (c : Z) : bool :=
  (c =? 67) || (c =? 68) || (c =? 72) || (c =? 70).

Definition cursor_sequence (sq : list Z) : Prop :=
  exists params cmd,
    Forall (fun c => is_param c = true) params
    /\ is_cursor_command cmd = true
    /\ sq = 27 :: 91 :: params ++ [cmd].

(** The variables of [process] when it starts on the characters [cs]. *)
Definition start (r : ReadInstance) (cs : list Z) : Local :=
  {| inst := r; chars := cs; response := []; shiftCount := 0 |}.

(** What [process] returns once the loop is over. *)
Definition finish (x : option (Local * Result unit))
    : option (ReadInstance * Result jsstring) :=
  match x with
  | None => None
  | Some (s, Throw e) => Some (inst s, Throw e)
  | Some (s, Ok _) => Some (inst s, Ok (echo s))
  end.

(** A caller that feeds the chunks of [inputs] to [process] one after the
    other, whatever each call returns. *)
Fixpoint process_all (r : ReadInstance) (inputs : list (list Z)) : ReadInstance :=
  match inputs with
  | [] => r
  | cs :: inputs' =>
      match process_chars r cs with
      | Some (r', _) => process_all r' inputs'
      | None => r
      end
  end.

(** The number of BEL characters of a string, and [bell_bound pre s s']:
    from [s] to [s'], where the characters [pre] were read, the echo gained
    at most the BEL characters of [pre] and, if it held none, one more. *)
Definition bels (str : jsstring) : nat := count_occ Z.eq_dec str BEL.

Definition bell_bound (pre : list Z) (s s' : Local) : Prop :=
  chars s = pre ++ chars s'
  /\ (bels (response s) <= bels (response s'))%nat
  /\ (bels (response s')
      <= bels (response s) + bels pre
         + (if (bels (response s) =? 0)%nat then 1 else 0))%nat.

(** What [process] returns when the loop ends after one command. *)
Definition finish_command (x : Local * Result unit)
    : option (ReadInstance * Result jsstring) :=
  match x with
  | (s, Throw e) => Some (inst s, Throw e)
  | (s, Ok _) => Some (inst s, Ok (echo s))
  end.

(** An instance with "a" before the cursor and "bc" after it. *)
Definition sample_instance : ReadInstance :=
  {| forward := [98; 99]; backward := [97]; hasEnded := false |}.

End LineEdit.


(** ** Specification-level definitions and sample states *)

(** The effective permission bits as the specification writes them. *)
Definition effective_bits (m o g u G : Z) : Z :=
  Z.lor (Z.lor (if u =? o then Z.land (Z.shiftr m 6) 7 else 0)
               (if G =? g then Z.land (Z.shiftr m 3) 7 else 0))
        (Z.land m 7).

Definition sample_file_640 : File :=
  {| name := "f"; owner := 5; group := 9; mode := 416; deleted := false;
     kind := RegularFile [] |}.

Definition sample_process (u g : Z) : Process :=
  {| id := 1; pname := "sh"; fd := ∅; args := []; env := ∅; children := [];
     uid := u; gid := g |}.

Definition mkfile (name' : string) (mode' : Z) (kind' : FileKind) : File :=
  {| name := name'; owner := 0; group := 0; mode := mode'; deleted := false;
     kind := kind' |}.

(** A small tree: the descriptor directories of the processes 1 and 2 (with
    the entries of the descriptors 0, 1 and 2 of process 1), the terminal, a
    writable directory [/home] with an empty file [f], a file [g]
    that holds "AB", a link [l] to [f] and a directory [d] with one file, and
    a directory [/ro] that nobody may write. *)
Definition sample_vfs : Vfs Sample.Tree :=
  foldl (fun v e => (Sample.tree_create v (sample_process 0 0) e.1 e.2).1)
    {| objs := {[ 0%nat := mkfile "" 511 Directory ]};
       backend := {| Sample.paths := {[ [] := 0%nat ]}; Sample.next := 1%nat |} |}
    [ ("/", mkfile "proc" 511 Directory);
      ("/proc", mkfile "1" 511 Directory);
      ("/proc/1", mkfile "fd" 511 Directory);
      ("/proc/1/fd", mkfile "0" 448 (SymbolicLink "/dev/tty1"));
      ("/proc/1/fd", mkfile "1" 448 (SymbolicLink "/dev/tty1"));
      ("/proc/1/fd", mkfile "2" 448 (SymbolicLink "/dev/tty1"));
      ("/proc", mkfile "2" 511 Directory);
      ("/proc/2", mkfile "fd" 511 Directory);
      ("/", mkfile "dev" 511 Directory);
      ("/dev", mkfile "tty1" 438 DeviceFile);
      ("/", mkfile "home" 511 Directory);
      ("/home", mkfile "f" 420 (RegularFile []));
      ("/home", mkfile "g" 420 (RegularFile [x41; x42]));
      ("/home", mkfile "l" 448 (SymbolicLink "/home/f"));
      ("/home", mkfile "d" 511 Directory);
      ("/home/d", mkfile "x" 420 (RegularFile []));
      ("/", mkfile "ro" 320 Directory) ].

Definition sample_world : World Sample.Tree :=
  {| vfs := sample_vfs; newPid := 2; device_writes := [] |}.

Definition tty (flags' : Z) : FileDescriptorData :=
  {| pathname := "/dev/tty1"; flags := flags'; offset := 0 |}.

(** Process 1 with the descriptors 0, 1 and 2 on the terminal. *)
Definition sample_init : ProcessInit :=
  {| init_id := 1; init_name := "init";
     init_fd := Some (<[Int 0 := tty 1]> (<[Int 1 := tty 2]> (<[Int 2 := tty 2]> ∅)));
     init_args := None; init_env := {[ "PWD" := "/home" ]};
     init_uid := 0; init_gid := 0 |}.

Definition sample_state : State Sample.Tree :=
  {| proc := new_Process sample_init; world := sample_world |}.

(** The same process as the constructor leaves it when [fd] is not given. *)
Definition bare_state : State Sample.Tree :=
  {| proc := new_Process {| init_id := 1; init_name := "init"; init_fd := None;
                            init_args := None; init_env := {[ "PWD" := "/home" ]};
                            init_uid := 0; init_gid := 0 |};
     world := sample_world |}.

(** The first [count] bytes of a buffer. *)
Definition first_bytes (buf : list byte) (count : number) : list byte :=
  match count with
  | Int c => take (Z.to_nat c) buf
  | _ => buf
  end.

(** The state after [open("/home/g", READ | WRITE)] and [seek(3, 1)]. *)
Definition sample_state_g : State Sample.Tree :=
  fst ((h <- open "/home/g" 3 ;; seek h 1) sample_state).

(** The handles of a descriptor table are integers (the data model of the
    specification has small non-negative integers). *)
Definition integer_handles (t : gmap number FileDescriptorData) : Prop :=
  forall k, is_Some (t !! k) -> exists z, k = Int z.

(** The handle that [_createFileDescriptor] picks for a table. *)
Definition next_handle (t : gmap number FileDescriptorData) : number :=
  js_add (Math_max (parseInt_key <$> (map_to_list t).*1)) (Int 1).

Definition descriptor_link (fd' : number) (pathname' : string) : File :=
  {| name := toString fd'; kind := SymbolicLink pathname'; owner := 0;
     group := 0; mode := 448; deleted := false |}.

(** The process after [this.fd = t]. *)
Definition with_fd (p : Process) (t : gmap number FileDescriptorData) : Process :=
  {| id := id p; pname := pname p; fd := t; args := args p; env := env p;
     children := children p; uid := uid p; gid := gid p |}.

(** The state with another storage. *)
Definition with_vfs {FS} (s : State FS) (v : Vfs FS) : State FS :=
  {| proc := proc s;
     world := {| vfs := v; newPid := newPid (world s);
                 device_writes := device_writes (world s) |} |}.

(** The path of the entry of a descriptor in the descriptor directory. *)
Definition descriptor_path `{!Platform} (p : Process) (h : number) : string :=
  join [PROCESS_DIRECTORY; toString (Int (id p)); "fd"; toString h].

(** The sample state after [open("/home/l", READ)], which returns 3; [l] is a
    link to the file [f]. *)
Definition sample_state_l : State Sample.Tree :=
  fst (open "/home/l" 1 sample_state).

(** The sample process after [setuid(5)] and [setgid(7)]. *)
Definition sample_state_user : State Sample.Tree :=
  fst ((setuid 5 ;; setgid 7) sample_state).

(** What [spawn] passes to the constructor. *)
Definition spawn_init {FS} (s : State FS) : ProcessInit :=
  {| init_id := newPid (world s);
     init_name := "New Process";
     init_fd := None;
     init_args := None;
     init_env := env (proc s);
     init_uid := uid (proc s);
     init_gid := gid (proc s) |}.

(** The state in which the process that [spawn] creates starts. *)
Definition child_state {FS} (s : State FS) : State FS :=
  {| proc := new_Process (spawn_init s);
     world := {| vfs := vfs (world s); newPid := newPid (world s) + 1;
                 device_writes := device_writes (world s) |} |}.

(** The storage of the sample state once [/home/d] and its file are gone. *)
Definition sample_vfs_without_d : Vfs Sample.Tree :=
  (Sample.tree_delete sample_vfs (proc sample_state) "/home/d" (Some true)).1.

(** ** The other methods of [Process] *)

(** The separator [PATH_SEPARATOR] of [Utils.ts], which is not among the
    sources: a parameter like the other constants. *)
Class PathSeparator := PATH_SEPARATOR : string.

(** The process after [this.name = n; this.args = a; this.env = e]. *)
Definition with_image (p : Process) (n : string) (a : list string)
    (e : gmap string string) : Process :=
  {| id := id p; pname := n; fd := fd p; args := a; env := e;
     children := children p; uid := uid p; gid := gid p |}.

(** [Object.assign(env, Object.fromEntries(Object.entries(env').filter(([k, v])
    => v !== undefined)))]: the keys of [env'] that hold a value replace or
    extend those of [env]; a key that holds [undefined] ([Some None]) is left
    out. *)
Definition assign_defined (env0 : gmap string string)
    (env' : gmap string (option string)) : gmap string string :=
  omap (fun v : option string => v) env' ∪ env0.

(** The entry after [entry.owner = o; entry.group = g], and after
    [entry.mode = m]. *)
Definition with_owner (entry : File) (owner' group' : Z) : File :=
  {| name := name entry; owner := owner'; group := group'; mode := mode entry;
     deleted := deleted entry; kind := kind entry |}.
Definition with_mode (entry : File) (mode' : Z) : File :=
  {| name := name entry; owner := owner entry; group := group entry;
     mode := mode'; deleted := deleted entry; kind := kind entry |}.

(** The bits that [_stat] adds to the mode for the type of an entry. *)
Definition type_bits `{!Platform} (entry : File) : Z :=
  js_or (js_or (js_or (if isDirectory entry then StatMode_IFDIR else 0)
                      (if isRegularFile entry then StatMode_IFREG else 0))
               (if isDeviceFile entry then StatMode_IFCHR else 0))
        (if isSymbolicLink entry then StatMode_IFLNK else 0).

Section MoreSyscalls.
Context {FS : Type} `{!Platform} `{!FilesystemSession FS}.

(** [this.filesystem.list(path)]. *)
Definition fs_list (path : string) : M FS (list string) :=
  fun s => (s, filesystem_list (vfs (world s)) (proc s) path).

(** The entry that [mkdir] hands to [create].  The [children] of the
    literal are kept by the storage backend, not by the entry. *)
Definition new_directory (name' : string) (mode' : Z) : File :=
  {| name := name'; kind := Directory; owner := 0; group := 0;
     mode := mode'; deleted := false |}.

(** [mkdir] calls itself on [dirname(pathname)]; [fuel] bounds the depth of
    these calls, and [None] means that it ran out. *)
Fixpoint mkdir (fuel : nat) (pathname' : string) (mode' : Z) (recursive : bool)
    (s : State FS) : option (State FS * Result unit) :=
  match fuel with
  | O => None
  | S fuel' =>
      match fs_create (dirname pathname')
              (new_directory (basename pathname') mode') s with
      | (s1, Ok _) => Some (s1, Ok tt)
      | (s1, Throw e) =>
          if recursive && is_ENOENT e then
            match mkdir fuel' (dirname pathname') mode' recursive s1 with
            | None => None
            | Some (s2, Throw e') => Some (s2, Throw e')
            | Some (s2, Ok _) => mkdir fuel' pathname' mode' recursive s2
            end
          else Some (s1, Throw e)
      end
  end.

Definition readdir `{!PathSeparator} (pathname' : string) : M FS (list string) :=
  p <- this ;;
  fs_list (PATH_SEPARATOR +:+ join (resolve pathname' (PWD p))).


(** The entry that [symlink] hands to [create]. *)
Definition new_symlink (target linkpath : string) : File :=
  {| name := linkpath; kind := SymbolicLink target; owner := 0; group := 0;
     mode := 511; deleted := false |}.

Definition symlink (target linkpath : string) : M FS unit :=
  p <- this ;;
  fs_create (default "/" (PWD p)) (new_symlink target linkpath).

(** [isSymbolicLink(entry)] holds for the entries of kind [SymbolicLink],
    whose [target] is returned. *)
Definition readlink (pathname' : string) : M FS string :=
  p <- this ;;
  entry <- fs_get (resolve pathname' (PWD p)) None ;;
  match kind entry.2 with
  | SymbolicLink target => ret target
  | _ => throw EINVAL
  end.

(** [entry] is the reference that [get] returned with the object behind it;
    the assignments go to the object. *)
Definition _chown (entry : loc * File) (owner' group' : Z) : M FS unit :=
  store_entry entry.1 (with_owner entry.2 owner' group').

Definition chown (pathname' : string) (owner' group' : Z) : M FS unit :=
  p <- this ;;
  entry <- fs_get (resolve pathname' (PWD p)) (Some true) ;;
  _chown entry owner' group'.

Definition fchown (fd' : number) (owner' group' : Z) : M FS unit :=
  fdd <- _requireFileDescriptorData fd' ;;
  p <- this ;;
  entry <- fs_get (resolve (pathname fdd) (PWD p)) None ;;
  _chown entry owner' group'.

Definition lchown (pathname' : string) (owner' group' : Z) : M FS unit :=
  p <- this ;;
  entry <- fs_get (resolve pathname' (PWD p)) None ;;
  _chown entry owner' group'.

Definition _chmod (entry : loc * File) (mode' : Z) : M FS unit :=
  store_entry entry.1 (with_mode entry.2 mode').

Definition chmod (pathname' : string) (mode' : Z) : M FS unit :=
  p <- this ;;
  entry <- fs_get (resolve pathname' (PWD p)) (Some true) ;;
  _chmod entry mode'.

Definition fchmod (fd' : number) (mode' : Z) : M FS unit :=
  fdd <- _requireFileDescriptorData fd' ;;
  p <- this ;;
  entry <- fs_get (resolve (pathname fdd) (PWD p)) None ;;
  _chmod entry mode'.

(** [this.name = pathname; this.args = args; this.env = Object.assign(...)]. *)
Definition set_image (n : string) (a : list string)
    (env' : gmap string (option string)) : M FS unit :=
  fun s =>
    ({| proc := with_image (proc s) n a (assign_defined (env (proc s)) env');
        world := world s |}, Ok tt).

(** [exec].  [onStart l] is what the function [onStart] of the executable
    entry behind [l] does when it is bound to the calling process and given
    the library object; what [exec] returns when that is over is
    [undefined]. *)
Definition exec (onStart : loc -> M FS unit) (pathname' : string)
    (args' : list string) (env' : gmap string (option string)) : M FS unit :=
  p <- this ;;
  entry <- fs_get (resolve pathname' (PWD p)) (Some true) ;;
  set_image pathname' args' env' ;;
  if isExecutableFile entry.2 then onStart entry.1
  else if isRegularFile entry.2 then ret tt
  else throw ELIBBAD.

End MoreSyscalls.

(** ** More sample states *)

(** The sample storage with an executable [/home/e] that has no data yet and
    an empty directory [/home/empty]. *)
Definition sample_vfs_exe : Vfs Sample.Tree :=
  foldl (fun v e => (Sample.tree_create v (sample_process 0 0) e.1 e.2).1)
    sample_vfs
    [ ("/home", mkfile "e" 493 (ExecutableFile None));
      ("/home", mkfile "empty" 511 Directory) ].

Definition sample_state_exe : State Sample.Tree :=
  {| proc := new_Process sample_init;
     world := {| vfs := sample_vfs_exe; newPid := 2; device_writes := [] |} |}.

(** The sample state after [open("/home/e", READ)], which returns 3. *)
Definition sample_state_exe_open : State Sample.Tree :=
  fst (open "/home/e" 1 sample_state_exe).

(** The sample state after [open("/home/g", READ)] and [seek(3, 5)]: the
    offset is behind the two bytes of the file. *)
Definition sample_state_g_end : State Sample.Tree :=
  fst ((h <- open "/home/g" 1 ;; seek h 5) sample_state).

(** ** The vocabulary of the line discipline, continued *)

(** What [process] appends to the echo at the end of a call: the text after
    the cursor, [shift] blanks over what was erased, and the way back. *)
Definition redraw (f : jsstring) (shift : Z) : jsstring :=
  if 0 <? js_length f + shift
  then f ++ replicate (Z.to_nat shift) 32 ++ LineEdit.csi (js_length f + shift) 68
  else [].


(** The instance with other buffers. *)
Definition with_buffers (r : LineEdit.ReadInstance) (f b : jsstring)
    : LineEdit.ReadInstance :=
  {| LineEdit.forward := f; LineEdit.backward := b;
     LineEdit.hasEnded := LineEdit.hasEnded r |}.

(** The code points of bytes that are all below 128. *)
Definition ascii_codes (bs : list byte) : jsstring :=
  (fun b => Z.of_N (Byte.to_N b)) <$> bs.

(** The outcome of a step when the characters [post] follow those that the
    state had. *)
Definition extend_chars {A : Type} (post : list Z)
    (x : option (LineEdit.Local * A)) : option (LineEdit.Local * A) :=
  match x with
  | Some (s, r) => Some (LineEdit.set_chars (LineEdit.chars s ++ post) s, r)
  | None => None
  end.

(** The characters left to read end with the only newline among them. *)
Definition pending_newline (s : LineEdit.Local) : Prop :=
  exists cs, LineEdit.chars s = cs ++ [10] /\ 10 ∉ cs.

(** The state of [process] after the plain characters [cs] were typed: they
    are before the cursor and in the echo. *)
Definition typed (cs rest : list Z) (s : LineEdit.Local) : LineEdit.Local :=
  {| LineEdit.inst :=
       {| LineEdit.forward := LineEdit.forward (LineEdit.inst s);
          LineEdit.backward := LineEdit.backward (LineEdit.inst s) ++ cs;
          LineEdit.hasEnded := LineEdit.hasEnded (LineEdit.inst s) |};
     LineEdit.chars := rest;
     LineEdit.response := LineEdit.response s ++ cs;
     LineEdit.shiftCount := LineEdit.shiftCount s |}.


(** No line separator is next to the cursor or anywhere else in the line:
    every character of the two buffers is one that [.] matches. *)
Definition clean (r : LineEdit.ReadInstance) : Prop :=
  Forall (fun c => dot c = true) (LineEdit.backward r)
  /\ Forall (fun c => dot c = true) (LineEdit.forward r).

(** A character of the input that is a newline or one that [.] matches. *)
Definition harmless (c : Z) : Prop := dot c = true \/ c = 10.

(** * Theorems *)

(** ** Running a method step by step *)

Section MonadFacts.
Context {FS : Type}.

Lemma bind_Ok {A B} (m : M FS A) (k : A -> M FS B) (s s' : State FS) (v : A) :
  m s = (s', Ok v) -> bind m k s = k v s'.
Proof. intros H. unfold bind. rewrite H. reflexivity. Qed.

Lemma bind_Throw {A B} (m : M FS A) (k : A -> M FS B) (s s' : State FS)
    (e : Exception) :
  m s = (s', Throw e) -> bind m k s = (s', Throw e).
Proof. intros H. unfold bind. rewrite H. reflexivity. Qed.

Lemma try_catch_Ok {A} (m : M FS A) (handler : Exception -> M FS A)
    (s s' : State FS) (v : A) :
  m s = (s', Ok v) -> try_catch m handler s = (s', Ok v).
Proof. intros H. unfold try_catch. rewrite H. reflexivity. Qed.

Lemma try_catch_Throw {A} (m : M FS A) (handler : Exception -> M FS A)
    (s s' : State FS) (e : Exception) :
  m s = (s', Throw e) -> try_catch m handler s = handler e s'.
Proof. intros H. unfold try_catch. rewrite H. reflexivity. Qed.

Lemma this_eq (s : State FS) : this s = (s, Ok (proc s)).
Proof. reflexivity. Qed.

Lemma truthy_true (x : Z) : x <> 0 -> truthy x = true.
Proof. intros H. unfold truthy. apply negb_true_iff, Z.eqb_neq, H. Qed.

Lemma truthy_false (x : Z) : x = 0 -> truthy x = false.
Proof. intros ->. reflexivity. Qed.

Context `{!Platform} `{!FilesystemSession FS}.

Lemma fs_get_Ok (s : State FS) (path : list string) (follow : option bool)
    (l : loc) (f : File) :
  filesystem_get (vfs (world s)) (proc s) path follow = Ok l ->
  objs (vfs (world s)) !! l = Some f ->
  fs_get path follow s = (s, Ok (l, f)).
Proof. intros H1 H2. unfold fs_get. rewrite H1, H2. reflexivity. Qed.

Lemma fs_get_Throw (s : State FS) (path : list string) (follow : option bool)
    (e : Exception) :
  filesystem_get (vfs (world s)) (proc s) path follow = Throw e ->
  fs_get path follow s = (s, Throw e).
Proof. intros H1. unfold fs_get. rewrite H1. reflexivity. Qed.

Lemma fs_create_eq (s : State FS) (parent : string) (entry : File)
    (v : Vfs FS) (r : Result unit) :
  filesystem_create (vfs (world s)) (proc s) parent entry = (v, r) ->
  fs_create parent entry s = (with_vfs s v, r).
Proof. intros H1. unfold fs_create. rewrite H1. reflexivity. Qed.

Lemma fs_delete_eq (s : State FS) (path : string) (recursive : option bool)
    (v : Vfs FS) (r : Result unit) :
  filesystem_delete (vfs (world s)) (proc s) path recursive = (v, r) ->
  fs_delete path recursive s = (with_vfs s v, r).
Proof. intros H1. unfold fs_delete. rewrite H1. reflexivity. Qed.

Lemma requireFileDescriptorData_Some (s : State FS) (h : number)
    (fdd : FileDescriptorData) :
  fd (proc s) !! h = Some fdd ->
  _requireFileDescriptorData h s = (s, Ok fdd).
Proof.
  intros Hfd. unfold _requireFileDescriptorData, bind, this. rewrite Hfd.
  reflexivity.
Qed.

Lemma requireFileDescriptorData_None (s : State FS) (h : number) :
  fd (proc s) !! h = None ->
  _requireFileDescriptorData h s = (s, Throw EBADFD).
Proof.
  intros Hfd. unfold _requireFileDescriptorData, bind, this. rewrite Hfd.
  reflexivity.
Qed.

Lemma createFileDescriptor_eq (s : State FS) (pathname' : string) (flags' : Z) :
  _createFileDescriptor pathname' flags' s =
    ({| proc := with_fd (proc s)
                  (<[next_handle (fd (proc s)) :=
                       {| pathname := pathname'; flags := flags'; offset := 0 |}]>
                     (fd (proc s)));
        world := world s |}, Ok (next_handle (fd (proc s)))).
Proof. reflexivity. Qed.

End MonadFacts.

(** [mstep H] runs the first action of the method in the goal, whose outcome
    the equation [H] gives. *)
Ltac mstep H :=
  first [ erewrite bind_Ok by (exact H)
        | erewrite bind_Throw by (exact H) ]; cbv beta.

(** ** The permission evaluator *)

Lemma ToInt32_testbit (x i : Z) :
  0 <= i < 32 -> Z.testbit (ToInt32 x) i = Z.testbit x i.
Proof.
  intros Hi. unfold ToInt32.
  replace ((x + 2 ^ 31) mod 2 ^ 32 - 2 ^ 31)
    with (x + 2 ^ 32 * (- ((x + 2 ^ 31) / 2 ^ 32)))
    by (pose proof (Z.div_mod (x + 2 ^ 31) (2 ^ 32)); lia).
  rewrite <- (Z.mod_pow2_bits_low (x + _) 32 i) by lia.
  rewrite Z.mul_comm, Z_mod_plus_full.
  apply Z.mod_pow2_bits_low. lia.
Qed.

Lemma ToInt32_small (x : Z) : - 2 ^ 31 <= x < 2 ^ 31 -> ToInt32 x = x.
Proof.
  intros H. unfold ToInt32. rewrite Z.mod_small; lia.
Qed.

Lemma lor_sub_ldiff (x k : Z) : Z.lor x k - k = Z.ldiff x k.
Proof.
  rewrite Z.sub_nocarry_ldiff.
  - apply Z.bits_inj'. intros n Hn.
    rewrite !Z.ldiff_spec, Z.lor_spec. destruct (Z.testbit x n), (Z.testbit k n); reflexivity.
  - apply Z.bits_inj'. intros n Hn.
    rewrite Z.ldiff_spec, Z.lor_spec, Z.bits_0.
    destruct (Z.testbit x n), (Z.testbit k n); reflexivity.
Qed.

(** Only the three low bits of [a] matter in [a & r] when [r] is at most 7. *)
Lemma land_low3 (a b r : Z) :
  0 <= r <= 7 ->
  (forall i, 0 <= i < 3 -> Z.testbit a i = Z.testbit b i) ->
  Z.land a r = Z.land b r.
Proof.
  intros Hr H. apply Z.bits_inj'. intros n Hn.
  rewrite !Z.land_spec.
  destruct (Z_lt_dec n 3) as [Hlt|Hge].
  - rewrite H by lia. reflexivity.
  - assert (Z.testbit r n = false) as ->.
    { destruct (Z.eq_dec r 0) as [->|]; [apply Z.bits_0|].
      apply Z.bits_above_log2; [lia|].
      assert (Z.log2 r < 3) by (apply Z.log2_lt_pow2; lia). lia. }
    rewrite !andb_false_r. reflexivity.
Qed.

Lemma current_mode_low_bits (m o g u G i : Z) :
  0 <= i < 3 ->
  Z.testbit
    (ToInt32
       (js_or (js_or (if o =? u then js_shr m 6 else 0)
                     (if g =? G then js_shr (js_or m 448 - 448) 3 else 0))
              (js_or m 504 - 504))) i
  = Z.testbit (effective_bits m o g u G) i.
Proof.
  intros Hi. unfold effective_bits, js_or, js_shr.
  rewrite !lor_sub_ldiff, (Z.eqb_sym o u), (Z.eqb_sym g G).
  assert (Z.testbit 7 i = true) as H7
    by (assert (i = 0 \/ i = 1 \/ i = 2) as [-> | [-> | ->]] by lia; reflexivity).
  assert (Z.testbit 448 (i + 3) = false) as H448
    by (assert (i = 0 \/ i = 1 \/ i = 2) as [-> | [-> | ->]] by lia; reflexivity).
  assert (Z.testbit 504 i = false) as H504
    by (assert (i = 0 \/ i = 1 \/ i = 2) as [-> | [-> | ->]] by lia; reflexivity).
  destruct (u =? o), (G =? g);
    repeat (rewrite ?Z.shiftr_spec, ?ToInt32_testbit, ?Z.ldiff_spec,
              ?Z.lor_spec, ?Z.land_spec, ?(ToInt32_small 448),
              ?(ToInt32_small 504), ?(ToInt32_small 0), ?Z.bits_0,
              ?H7, ?H448, ?H504 by lia);
    rewrite ?andb_true_r, ?andb_false_r, ?orb_false_r; reflexivity.
Qed.

Lemma isPermitted_eq (p : Process) (entry : File) (r : Z) :
  0 <= r <= 7 ->
  _isPermitted p entry r
  = negb (Z.land (effective_bits (mode entry) (owner entry) (group entry)
                                 (uid p) (gid p)) r =? 0).
Proof.
  intros Hr. unfold _isPermitted, truthy, js_and at 1.
  rewrite (ToInt32_small r) by lia.
  rewrite (land_low3 _ (effective_bits (mode entry) (owner entry) (group entry)
                                       (uid p) (gid p)) r Hr); [reflexivity|].
  intros i Hi. apply current_mode_low_bits. exact Hi.
Qed.

(** C1. For every file (mode [m], owner [o], group [g]), every acting uid and
    gid and every requested bits [r] in 1..7, [_isPermitted] is true exactly
    when [(((u == o) ? (m>>6)&7 : 0) | ((G == g) ? (m>>3)&7 : 0) | (m&7)) & r]
    is not zero.  The "other" bits count whoever asks.  The function is total.
    For mode 0o640, owner 5 and group 9: uid 5 may read and write and may not
    execute; uid 1 with gid 9 may read and may not write. *)
Theorem isPermitted_spec (p : Process) (entry : File) (r : Z) :
  1 <= r <= 7 ->
  (_isPermitted p entry r = true <->
     Z.land (effective_bits (mode entry) (owner entry) (group entry) (uid p) (gid p)) r <> 0)
  /\ (Z.land (Z.land (mode entry) 7) r <> 0 -> _isPermitted p entry r = true)
  /\ (mode entry = 416 -> owner entry = 5 -> group entry = 9 ->
      (uid p = 5 ->
         _isPermitted p entry 4 = true /\ _isPermitted p entry 2 = true
         /\ _isPermitted p entry 1 = false)
      /\ (uid p = 1 -> gid p = 9 ->
         _isPermitted p entry 4 = true /\ _isPermitted p entry 2 = false)).
Proof.
  intros Hr. split; [|split].
  - rewrite isPermitted_eq by lia.
    rewrite negb_true_iff, Z.eqb_neq. reflexivity.
  - intros Hother. rewrite isPermitted_eq by lia.
    rewrite negb_true_iff, Z.eqb_neq. unfold effective_bits.
    rewrite Z.land_lor_distr_l. intros H0.
    apply Z.lor_eq_0_iff in H0 as [_ H0]. contradiction.
  - intros Hm Ho Hg. split.
    + intros Hu. rewrite !isPermitted_eq by lia. rewrite Hm, Ho, Hg, Hu.
      unfold effective_bits. destruct (gid p =? 9); repeat split; reflexivity.
    + intros Hu HG. rewrite !isPermitted_eq by lia. rewrite Hm, Ho, Hg, Hu, HG.
      split; reflexivity.
Qed.

Lemma isPermitted_spec_witness :
  _isPermitted (sample_process 1 9) sample_file_640 4 = true
  /\ _isPermitted (sample_process 1 9) sample_file_640 2 = false.
Proof.
  pose proof (isPermitted_spec (sample_process 1 9) sample_file_640 4
                ltac:(lia)) as (_ & _ & H).
  destruct (H eq_refl eq_refl eq_refl) as [_ H']. exact (H' eq_refl eq_refl).
Defined.

(** ** Reading and writing through a descriptor *)

Lemma slice_prefix (data : list byte) (k : Z) :
  0 <= k -> slice data 0 (Int k) = take (Z.to_nat k) data.
Proof.
  intros Hk. unfold slice, clamp_end, clamp_index.
  change (0 <? 0) with false. cbv iota.
  destruct (Z.ltb_spec k 0); [lia|].
  rewrite (Z.min_l 0) by lia. simpl drop.
  destruct (Z.min_spec k (Z.of_nat (length data))) as [[H1 ->]|[H1 ->]].
  - f_equal. lia.
  - rewrite Z.sub_0_r, Nat2Z.id, firstn_all.
    symmetry. apply take_ge. change (Z.to_nat 0) with 0%nat. rewrite drop_0. lia.
Qed.

Lemma slice_all_prefix (data : list byte) : slice data 0 PosInfinity = data.
Proof.
  unfold slice, clamp_end, clamp_index. simpl.
  rewrite Z.min_l by lia. simpl. rewrite Z.sub_0_r, Nat2Z.id. apply firstn_all.
Qed.

Lemma slice_suffix (data : list byte) (k : Z) :
  0 <= k -> slice data k PosInfinity = drop (Z.to_nat k) data.
Proof.
  intros Hk. unfold slice, clamp_end, clamp_index.
  destruct (Z.ltb_spec k 0); [lia|].
  destruct (Z.min_spec k (Z.of_nat (length data))) as [[H1 ->]|[H1 ->]].
  - apply take_ge. rewrite length_drop. lia.
  - rewrite Nat2Z.id, Z.sub_diag. simpl.
    rewrite !drop_ge by lia. reflexivity.
Qed.

Lemma slice_first_bytes (buf : list byte) (count : number) :
  (count = PosInfinity \/ exists c, count = Int c /\ 0 <= c) ->
  slice buf 0 count = first_bytes buf count.
Proof.
  intros [-> | (c & -> & Hc)].
  - apply slice_all_prefix.
  - apply slice_prefix, Hc.
Qed.

Section WriteFacts.
Context {FS : Type} `{!Platform} `{!FilesystemSession FS}.

Lemma write_regular (s : State FS) (h : number) (fdd : FileDescriptorData)
    (l : loc) (entry : File) (d buf : list byte) (count : number) :
  fd (proc s) !! h = Some fdd ->
  js_and (flags fdd) OpenFlag_WRITE <> 0 ->
  filesystem_get (vfs (world s)) (proc s)
    (resolve (pathname fdd) (PWD (proc s))) (Some true) = Ok l ->
  objs (vfs (world s)) !! l = Some entry ->
  kind entry = RegularFile d ->
  write h buf count s =
    (store_entry l
       (with_data entry
          (concatArrayBuffer (slice d 0 (Int (offset fdd))) (slice buf 0 count)
             (slice d (offset fdd) PosInfinity))) ;;
     set_fd (<[h := {| pathname := pathname fdd; flags := flags fdd;
                       offset := offset fdd + byteLength (slice buf 0 count) |}]>
               (fd (proc s)))) s.
Proof.
  intros Hfd Hw Hget Hobj Hkind.
  unfold write, seek, _requireFileDescriptorData, fs_get, store_entry,
    set_vfs, set_fd, bind, this, ret, throw. simpl.
  rewrite Hfd. simpl.
  unfold truthy. destruct (js_and (flags fdd) OpenFlag_WRITE =? 0) eqn:E;
    [apply Z.eqb_eq in E; contradiction|]. simpl.
  rewrite Hget, Hobj. simpl.
  unfold isDirectory, isRegularFile, getFileType, entry_data. rewrite Hkind. simpl.
  rewrite Hfd. simpl.
  reflexivity.
Qed.

Lemma write_regular_state (s : State FS) (h : number) (fdd : FileDescriptorData)
    (l : loc) (entry : File) (d buf : list byte) (count : number) :
  fd (proc s) !! h = Some fdd ->
  js_and (flags fdd) OpenFlag_WRITE <> 0 ->
  filesystem_get (vfs (world s)) (proc s)
    (resolve (pathname fdd) (PWD (proc s))) (Some true) = Ok l ->
  objs (vfs (world s)) !! l = Some entry ->
  kind entry = RegularFile d ->
  0 <= offset fdd ->
  (count = PosInfinity \/ exists c, count = Int c /\ 0 <= c) ->
  let k := Z.to_nat (offset fdd) in
  let new := first_bytes buf count in
  exists s',
    write h buf count s = (s', Ok tt)
    /\ objs (vfs (world s')) =
         <[l := with_data entry (take k d ++ new ++ drop k d)]> (objs (vfs (world s)))
    /\ backend (vfs (world s')) = backend (vfs (world s))
    /\ fd (proc s') =
         <[h := {| pathname := pathname fdd; flags := flags fdd;
                   offset := offset fdd + Z.of_nat (length new) |}]> (fd (proc s))
    /\ uid (proc s') = uid (proc s) /\ gid (proc s') = gid (proc s)
    /\ env (proc s') = env (proc s) /\ id (proc s') = id (proc s).
Proof.
  intros Hfd Hw Hget Hobj Hkind Hoff Hcount k new.
  eexists. split.
  - rewrite (write_regular s h fdd l entry d buf count) by assumption.
    unfold store_entry, set_vfs, set_fd, bind. simpl. reflexivity.
  - simpl. rewrite slice_prefix, slice_suffix, slice_first_bytes by assumption.
    unfold concatArrayBuffer, byteLength. repeat split; reflexivity.
Qed.

(** [read] on a regular file: the bytes from the offset on, at most
    [count] of them, and the offset moves behind them. *)
Lemma read_regular (s : State FS) (h : number) (fdd : FileDescriptorData)
    (l : loc) (entry : File) (d : list byte) (count : number) :
  fd (proc s) !! h = Some fdd ->
  js_and (flags fdd) OpenFlag_READ <> 0 ->
  filesystem_get (vfs (world s)) (proc s)
    (resolve (pathname fdd) (PWD (proc s))) (Some true) = Ok l ->
  objs (vfs (world s)) !! l = Some entry ->
  kind entry = RegularFile d ->
  let data := slice d (offset fdd) (js_add (Int (offset fdd)) count) in
  read h count s
  = ({| proc := with_fd (proc s)
                  (<[h := {| pathname := pathname fdd; flags := flags fdd;
                             offset := offset fdd + byteLength data |}]>
                     (fd (proc s)));
        world := world s |}, Ok (Data data)).
Proof.
  intros Hfd Hr Hget Hobj Hkind data.
  unfold read, seek, _requireFileDescriptorData, fs_get, store_entry,
    set_vfs, set_fd, bind, this, ret, throw. simpl.
  rewrite Hfd. simpl.
  unfold truthy. destruct (js_and (flags fdd) OpenFlag_READ =? 0) eqn:E;
    [apply Z.eqb_eq in E; contradiction|]. simpl.
  rewrite Hget, Hobj. simpl.
  unfold isDirectory, isRegularFile, isExecutableFile, getFileType, entry_data.
  rewrite Hkind. simpl. rewrite Hfd. simpl. reflexivity.
Qed.

(** After a [write] at offset [k], a [seek] back to [k] and a [read] of as
    many bytes as were written return these bytes, when the path of the
    descriptor still leads to the same entry. *)
Lemma write_then_read_back (s : State FS) (h : number) (fdd : FileDescriptorData)
    (l : loc) (entry : File) (d buf : list byte) (count : number) :
  fd (proc s) !! h = Some fdd ->
  js_and (flags fdd) OpenFlag_WRITE <> 0 ->
  js_and (flags fdd) OpenFlag_READ <> 0 ->
  filesystem_get (vfs (world s)) (proc s)
    (resolve (pathname fdd) (PWD (proc s))) (Some true) = Ok l ->
  objs (vfs (world s)) !! l = Some entry ->
  kind entry = RegularFile d ->
  0 <= offset fdd <= byteLength d ->
  (count = PosInfinity \/ exists c, count = Int c /\ 0 <= c) ->
  let new := first_bytes buf count in
  let s2 := fst ((write h buf count ;; seek h (offset fdd)) s) in
  filesystem_get (vfs (world s2)) (proc s2)
    (resolve (pathname fdd) (PWD (proc s2))) (Some true) = Ok l ->
  snd ((write h buf count ;; seek h (offset fdd) ;; read h (Int (byteLength new))) s)
  = Ok (Data new).
Proof.
  intros Hfd Hw Hr Hget Hobj Hkind Hoff Hcount new s2 Hstable.
  assert (0 <= offset fdd) as Hoff0 by lia.
  destruct (write_regular_state s h fdd l entry d buf count Hfd Hw Hget Hobj
              Hkind Hoff0 Hcount) as (s1 & Hwrite & Hobjs & _ & Hfd1 & _).
  fold new in Hobjs, Hfd1.
  assert (fd (proc s1) !! h
          = Some {| pathname := pathname fdd; flags := flags fdd;
                    offset := offset fdd + Z.of_nat (length new) |}) as Hfd1'
    by (rewrite Hfd1; apply lookup_insert_eq).
  assert (seek h (offset fdd) s1
          = ({| proc := with_fd (proc s1)
                          (<[h := fdd]> (fd (proc s1)));
                world := world s1 |}, Ok tt)) as Hseek.
  { unfold seek. erewrite bind_Ok by (apply requireFileDescriptorData_Some, Hfd1').
    destruct fdd; reflexivity. }
  assert (s2 = {| proc := with_fd (proc s1) (<[h := fdd]> (fd (proc s1)));
                  world := world s1 |}) as Hs2.
  { unfold s2. erewrite bind_Ok by exact Hwrite. rewrite Hseek. reflexivity. }
  erewrite bind_Ok by exact Hwrite. erewrite bind_Ok by exact Hseek.
  rewrite Hs2 in Hstable.
  erewrite (read_regular _ h fdd l
              (with_data entry (take (Z.to_nat (offset fdd)) d ++ new
                                  ++ drop (Z.to_nat (offset fdd)) d))
              (take (Z.to_nat (offset fdd)) d ++ new ++ drop (Z.to_nat (offset fdd)) d));
    [| simpl; apply lookup_insert_eq | exact Hr | exact Hstable
     | simpl; rewrite Hobjs; apply lookup_insert_eq
     | simpl; rewrite Hkind; reflexivity].
  simpl. f_equal. f_equal.
  unfold slice, clamp_end, clamp_index, byteLength in *. simpl js_add. cbv beta iota.
  destruct (Z.ltb_spec (offset fdd) 0); [lia|].
  destruct (Z.ltb_spec (offset fdd + Z.of_nat (length new)) 0); [lia|].
  rewrite !length_app, length_take, length_drop.
  rewrite !Z.min_l by lia.
  replace (Z.to_nat (offset fdd + Z.of_nat (length new) - offset fdd))
    with (length new) by lia.
  rewrite drop_app_length'; [|rewrite length_take; lia].
  apply take_app_length.
Qed.

End WriteFacts.

(** C2. A [write] through a descriptor that is open on a regular file with
    the write flag, at offset [k], puts the first [count] bytes of the buffer
    into the data of the file at position [k]: the bytes before [k] stay, the
    new bytes follow, the bytes that were at [k] and after come behind them;
    the offset grows by the number of bytes written.  Reading from [k] after
    the write gives the written bytes back.  Writing "AB" at offset 0 into an
    empty file and reading from offset 0 gives "AB"; writing "X" at offset 1
    into a file that holds "AB" leaves "AXB". *)
Theorem write_inserts_at_offset :
  (forall (FS : Type) (P : Platform) (F : FilesystemSession FS)
          (s : State FS) (h : number) (fdd : FileDescriptorData)
          (l : loc) (entry : File) (d buf : list byte) (count : number),
      fd (proc s) !! h = Some fdd ->
      js_and (flags fdd) OpenFlag_WRITE <> 0 ->
      filesystem_get (vfs (world s)) (proc s)
        (resolve (pathname fdd) (PWD (proc s))) (Some true) = Ok l ->
      objs (vfs (world s)) !! l = Some entry ->
      kind entry = RegularFile d ->
      0 <= offset fdd ->
      (count = PosInfinity \/ exists c, count = Int c /\ 0 <= c) ->
      let k := Z.to_nat (offset fdd) in
      let new := first_bytes buf count in
      exists s',
        write h buf count s = (s', Ok tt)
        /\ objs (vfs (world s')) =
             <[l := with_data entry (take k d ++ new ++ drop k d)]> (objs (vfs (world s)))
        /\ backend (vfs (world s')) = backend (vfs (world s))
        /\ fd (proc s') =
             <[h := {| pathname := pathname fdd; flags := flags fdd;
                       offset := offset fdd + Z.of_nat (length new) |}]> (fd (proc s))
        /\ uid (proc s') = uid (proc s) /\ gid (proc s') = gid (proc s)
        /\ env (proc s') = env (proc s) /\ id (proc s') = id (proc s))
  /\ (forall (FS : Type) (P : Platform) (F : FilesystemSession FS)
             (s : State FS) (h : number) (fdd : FileDescriptorData)
             (l : loc) (entry : File) (d buf : list byte) (count : number),
        fd (proc s) !! h = Some fdd ->
        js_and (flags fdd) OpenFlag_WRITE <> 0 ->
        js_and (flags fdd) OpenFlag_READ <> 0 ->
        filesystem_get (vfs (world s)) (proc s)
          (resolve (pathname fdd) (PWD (proc s))) (Some true) = Ok l ->
        objs (vfs (world s)) !! l = Some entry ->
        kind entry = RegularFile d ->
        0 <= offset fdd <= byteLength d ->
        (count = PosInfinity \/ exists c, count = Int c /\ 0 <= c) ->
        let new := first_bytes buf count in
        let s2 := fst ((write h buf count ;; seek h (offset fdd)) s) in
        filesystem_get (vfs (world s2)) (proc s2)
          (resolve (pathname fdd) (PWD (proc s2))) (Some true) = Ok l ->
        snd ((write h buf count ;; seek h (offset fdd) ;;
              read h (Int (byteLength new))) s)
        = Ok (Data new))
  /\ snd ((h <- open "/home/f" 3 ;;
           write h [x41; x42] PosInfinity ;;
           seek h 0 ;;
           read h PosInfinity) sample_state) = Ok (Data [x41; x42])
  /\ snd ((h <- open "/home/g" 3 ;;
           seek h 1 ;;
           write h [x58] PosInfinity ;;
           seek h 0 ;;
           read h PosInfinity) sample_state) = Ok (Data [x41; x58; x42]).
Proof.
  split; [|split; [|split]].
  - intros FS P F. apply write_regular_state.
  - intros FS P F. apply write_then_read_back.
  - vm_compute. reflexivity.
  - vm_compute. reflexivity.
Qed.

Lemma write_inserts_at_offset_witness :
  exists s',
    write (Int 3) [x58] PosInfinity sample_state_g = (s', Ok tt)
    /\ objs (vfs (world s')) !! 13%nat
       = Some (mkfile "g" 420 (RegularFile [x41; x58; x42]))
    /\ fd (proc s') !! Int 3
       = Some {| pathname := "/home/g"; flags := 3; offset := 2 |}.
Proof.
  destruct (proj1 write_inserts_at_offset Sample.Tree Sample.platform Sample.session
              sample_state_g (Int 3)
              {| pathname := "/home/g"; flags := 3; offset := 1 |}
              13%nat (mkfile "g" 420 (RegularFile [x41; x42])) [x41; x42] [x58]
              PosInfinity)
    as (s' & Hw & Hobjs & _ & Hfd & _).
  - vm_compute. reflexivity.
  - vm_compute. discriminate.
  - vm_compute. reflexivity.
  - vm_compute. reflexivity.
  - reflexivity.
  - simpl. lia.
  - left. reflexivity.
  - exists s'. split; [exact Hw|]. split.
    + rewrite Hobjs. rewrite lookup_insert_eq. reflexivity.
    + rewrite Hfd. rewrite lookup_insert_eq. reflexivity.
Defined.

(** ** Descriptor allocation and [open] *)

Lemma Math_max_integers (l : list number) :
  (forall k, k ∈ l -> exists z, k = Int z) ->
  (l = [] /\ Math_max (parseInt_key <$> l) = NegInfinity)
  \/ (exists m, Math_max (parseInt_key <$> l) = Int m
                /\ forall z, Int z ∈ l -> z <= m).
Proof.
  induction l as [|k l IH]; intros Hall.
  - left. split; reflexivity.
  - right. destruct (Hall k) as [z ->]; [left|].
    destruct IH as [[Hnil Hmax] | (m & Hmax & Hle)].
    + intros k' Hk'. apply Hall. right. exact Hk'.
    + exists z. subst l. split; [reflexivity|].
      intros z' Hz'. apply list_elem_of_singleton in Hz'. injection Hz' as ->. lia.
    + exists (Z.max z m). split.
      * unfold Math_max in *. rewrite fmap_cons. simpl foldr. rewrite Hmax. reflexivity.
      * intros z' Hz'. apply elem_of_cons in Hz' as [Hz' | Hz'].
        -- injection Hz' as ->. lia.
        -- specialize (Hle z' Hz'). lia.
Qed.

(** On a table whose handles are integers the next handle is free. *)
Lemma next_handle_fresh (t : gmap number FileDescriptorData) :
  integer_handles t -> t !! next_handle t = None.
Proof.
  intros Hint. unfold next_handle.
  destruct (Math_max_integers (map_to_list t).*1) as [[Hnil ->] | (m & -> & Hle)].
  - intros k Hk. apply list_elem_of_fmap in Hk as ([k' v] & -> & Hkv).
    apply elem_of_map_to_list in Hkv. apply Hint. exists v. exact Hkv.
  - simpl. destruct (t !! NegInfinity) as [v|] eqn:E; [|reflexivity].
    destruct (Hint NegInfinity) as [z Hz]; [eexists; exact E|discriminate].
  - simpl. destruct (t !! Int (m + 1)) as [v|] eqn:E; [|reflexivity].
    assert (Int (m + 1) ∈ (map_to_list t).*1) as Hin.
    { apply list_elem_of_fmap. exists (Int (m + 1), v). split; [reflexivity|].
      apply elem_of_map_to_list. exact E. }
    specialize (Hle _ Hin). lia.
Qed.

Section OpenFacts.
Context {FS : Type} `{!Platform} `{!FilesystemSession FS}.




End OpenFacts.


Lemma sample_integer_handles : integer_handles (fd (proc sample_state)).
Proof.
  intros k [v Hk]. destruct k as [z| | |]; [exists z; reflexivity|..];
    vm_compute in Hk; discriminate.
Qed.


(** ** [close] and [unlink] *)

Section CloseFacts.
Context {FS : Type} `{!Platform} `{!FilesystemSession FS}.

(** [unlink] fails with what the lookup of the path fails with. *)
Lemma unlink_lookup_fails (s : State FS) (pathname' : string) (flags' : Z)
    (e : Exception) :
  filesystem_get (vfs (world s)) (proc s)
    (resolve pathname' (PWD (proc s))) None = Throw e ->
  unlink pathname' flags' s = (s, Throw e).
Proof.
  intros Hget. unfold unlink. mstep (this_eq s).
  mstep (fs_get_Throw s _ _ _ Hget). reflexivity.
Qed.

(** [unlink] without the flag, on an entry that is not a directory. *)
Lemma unlink_file (s : State FS) (pathname' : string) (flags' : Z)
    (l : loc) (entry : File) (v : Vfs FS) (r : Result unit) :
  js_and flags' UnlinkFlag_REMOVE_DIR = 0 ->
  filesystem_get (vfs (world s)) (proc s)
    (resolve pathname' (PWD (proc s))) None = Ok l ->
  objs (vfs (world s)) !! l = Some entry ->
  isDirectory entry = false ->
  filesystem_delete (vfs (world s)) (proc s) pathname' (Some false) = (v, r) ->
  unlink pathname' flags' s = (with_vfs s v, r).
Proof.
  intros Hflag Hget Hobj Hdir Hdel. unfold unlink. mstep (this_eq s).
  mstep (fs_get_Ok s _ _ _ _ Hget Hobj). cbn [snd].
  rewrite (truthy_false _ Hflag), Hdir.
  erewrite bind_Ok by reflexivity.
  apply fs_delete_eq, Hdel.
Qed.

(** [close] never looks the handle up in the table: on a handle that is not
    in the table it fails with the error of the lookup of the path of its
    entry in the descriptor directory, and changes nothing. *)
Lemma close_unknown (s : State FS) (h : number) (e : Exception) :
  fd (proc s) !! h = None ->
  filesystem_get (vfs (world s)) (proc s)
    (resolve (descriptor_path (proc s) h) (PWD (proc s))) None = Throw e ->
  close h s = (s, Throw e).
Proof.
  intros _ Hget. unfold close. mstep (this_eq s).
  mstep (unlink_lookup_fails s _ 0 e Hget). reflexivity.
Qed.

(** [close] on a handle whose entry in the descriptor directory is found
    and deleted. *)
Lemma close_valid (s : State FS) (h : number) (l : loc) (entry : File)
    (v : Vfs FS) :
  filesystem_get (vfs (world s)) (proc s)
    (resolve (descriptor_path (proc s) h) (PWD (proc s))) None = Ok l ->
  objs (vfs (world s)) !! l = Some entry ->
  isDirectory entry = false ->
  filesystem_delete (vfs (world s)) (proc s) (descriptor_path (proc s) h)
    (Some false) = (v, Ok tt) ->
  close h s
  = ({| proc := with_fd (proc s) (delete h (fd (proc s)));
        world := world (with_vfs s v) |}, Ok tt).
Proof.
  intros Hget Hobj Hdir Hdel. unfold close. mstep (this_eq s).
  erewrite bind_Ok; cycle 1.
  { apply (unlink_file s _ 0 l entry v (Ok tt)); try assumption.
    unfold js_and. rewrite (ToInt32_small 0) by lia. apply Z.land_0_l. }
  mstep (this_eq (with_vfs s v)). reflexivity.
Qed.

(** After it every use of the handle fails with BadFileDescriptor. *)
Lemma closed_handle_is_bad (s : State FS) (h : number) :
  fd (proc s) !! h = None ->
  (forall count, read h count s = (s, Throw EBADFD))
  /\ (forall buf count, write h buf count s = (s, Throw EBADFD))
  /\ (forall offset', seek h offset' s = (s, Throw EBADFD))
  /\ fstat h s = (s, Throw EBADFD).
Proof.
  intros Hfd. pose proof (requireFileDescriptorData_None s h Hfd) as Hreq.
  repeat split; intros; [unfold read | unfold write | unfold seek | unfold fstat];
    mstep Hreq; reflexivity.
Qed.

Lemma close_then_bad_descriptor (s : State FS) (h : number) (l : loc)
    (entry : File) (v : Vfs FS) :
  filesystem_get (vfs (world s)) (proc s)
    (resolve (descriptor_path (proc s) h) (PWD (proc s))) None = Ok l ->
  objs (vfs (world s)) !! l = Some entry ->
  isDirectory entry = false ->
  filesystem_delete (vfs (world s)) (proc s) (descriptor_path (proc s) h)
    (Some false) = (v, Ok tt) ->
  exists s',
    close h s = (s', Ok tt)
    /\ vfs (world s') = v
    /\ fd (proc s') = delete h (fd (proc s))
    /\ (forall count, read h count s' = (s', Throw EBADFD))
    /\ (forall buf count, write h buf count s' = (s', Throw EBADFD))
    /\ (forall offset', seek h offset' s' = (s', Throw EBADFD)).
Proof.
  intros Hget Hobj Hdir Hdel. eexists. split.
  - apply (close_valid s h l entry v); assumption.
  - split; [reflexivity|]. split; [reflexivity|].
    match goal with
    | |- context [read h _ ?s'] =>
        destruct (closed_handle_is_bad s' h) as (Hr & Hw & Hs & _)
    end.
    { simpl. apply lookup_delete_eq. }
    repeat split; assumption.
Qed.

End CloseFacts.

(** C4 (the code differs). [close] does not check the handle: on a handle
    that is not in the table it fails with the error that the storage session
    gives for the missing entry of the descriptor directory, NotFound, and
    not with BadFileDescriptor. *)
Theorem close_unknown_handle
    (FS : Type) (P : Platform) (F : FilesystemSession FS)
    (s : State FS) (h : number) (e : Exception) :
  fd (proc s) !! h = None ->
  filesystem_get (vfs (world s)) (proc s)
    (resolve (descriptor_path (proc s) h) (PWD (proc s))) None = Throw e ->
  close h s = (s, Throw e).
Proof. apply close_unknown. Qed.

Lemma close_unknown_handle_witness :
  close (Int 7) sample_state = (sample_state, Throw ENOENT).
Proof.
  apply (close_unknown_handle Sample.Tree Sample.platform Sample.session
           sample_state (Int 7) ENOENT); vm_compute; reflexivity.
Defined.

(** On the sample state descriptor 1 is closed, and then it is bad. *)
Lemma close_valid_sample :
  snd ((close (Int 1) ;; seek (Int 1) 0) sample_state) = Throw EBADFD
  /\ snd ((close (Int 1) ;; read (Int 1) PosInfinity) sample_state) = Throw EBADFD
  /\ snd ((close (Int 1) ;; write (Int 1) [x41] PosInfinity) sample_state)
     = Throw EBADFD.
Proof. repeat split; vm_compute; reflexivity. Qed.

Section UnlinkFacts.
Context {FS : Type} `{!Platform} `{!FilesystemSession FS}.

(** With the flag, on an entry that is not a directory. *)
Lemma unlink_rmdir_not_directory (s : State FS) (pathname' : string)
    (flags' : Z) (l : loc) (entry : File) :
  js_and flags' UnlinkFlag_REMOVE_DIR <> 0 ->
  filesystem_get (vfs (world s)) (proc s)
    (resolve pathname' (PWD (proc s))) None = Ok l ->
  objs (vfs (world s)) !! l = Some entry ->
  isDirectory entry = false ->
  unlink pathname' flags' s = (s, Throw ENOTDIR).
Proof.
  intros Hflag Hget Hobj Hdir. unfold unlink. mstep (this_eq s).
  mstep (fs_get_Ok s _ _ _ _ Hget Hobj). cbn [snd].
  rewrite (truthy_true _ Hflag), Hdir. reflexivity.
Qed.

(** Without the flag, on a directory. *)
Lemma unlink_directory_rejected (s : State FS) (pathname' : string)
    (flags' : Z) (l : loc) (entry : File) :
  js_and flags' UnlinkFlag_REMOVE_DIR = 0 ->
  filesystem_get (vfs (world s)) (proc s)
    (resolve pathname' (PWD (proc s))) None = Ok l ->
  objs (vfs (world s)) !! l = Some entry ->
  isDirectory entry = true ->
  unlink pathname' flags' s = (s, Throw EISDIR).
Proof.
  intros Hflag Hget Hobj Hdir. unfold unlink. mstep (this_eq s).
  mstep (fs_get_Ok s _ _ _ _ Hget Hobj). cbn [snd].
  rewrite (truthy_false _ Hflag), Hdir. reflexivity.
Qed.

(** With the flag, on a directory: the recursive [delete] is followed by a
    second [delete] of the same path. *)
Lemma unlink_rmdir_directory (s : State FS) (pathname' : string)
    (flags' : Z) (l : loc) (entry : File) (v1 : Vfs FS) :
  js_and flags' UnlinkFlag_REMOVE_DIR <> 0 ->
  filesystem_get (vfs (world s)) (proc s)
    (resolve pathname' (PWD (proc s))) None = Ok l ->
  objs (vfs (world s)) !! l = Some entry ->
  isDirectory entry = true ->
  filesystem_delete (vfs (world s)) (proc s) pathname' (Some true) = (v1, Ok tt) ->
  unlink pathname' flags' s = fs_delete pathname' (Some false) (with_vfs s v1).
Proof.
  intros Hflag Hget Hobj Hdir Hdel. unfold unlink. mstep (this_eq s).
  mstep (fs_get_Ok s _ _ _ _ Hget Hobj). cbn [snd].
  rewrite (truthy_true _ Hflag), Hdir. cbn [negb].
  mstep (fs_delete_eq s _ _ _ _ Hdel). reflexivity.
Qed.

End UnlinkFacts.

(** C7 (the code differs). With the remove-directory flag [unlink] fails
    with NotADirectory on an entry that is not a directory; without the flag
    it fails with IsADirectory on a directory and deletes any other entry.
    With the flag on a directory it deletes the directory and its contents
    and then deletes the same path a second time: a session that reports a
    missing path makes the call fail with NotFound after the directory is
    gone. *)
Theorem unlink_remove_directory_deletes_twice
    (FS : Type) (P : Platform) (F : FilesystemSession FS)
    (s : State FS) (pathname' : string) (flags' : Z) (l : loc) (entry : File)
    (v1 v2 : Vfs FS) (e : Exception) :
  js_and flags' UnlinkFlag_REMOVE_DIR <> 0 ->
  filesystem_get (vfs (world s)) (proc s)
    (resolve pathname' (PWD (proc s))) None = Ok l ->
  objs (vfs (world s)) !! l = Some entry ->
  isDirectory entry = true ->
  filesystem_delete (vfs (world s)) (proc s) pathname' (Some true) = (v1, Ok tt) ->
  filesystem_delete v1 (proc s) pathname' (Some false) = (v2, Throw e) ->
  unlink pathname' flags' s = (with_vfs s v2, Throw e).
Proof.
  intros Hflag Hget Hobj Hdir Hdel1 Hdel2.
  rewrite (unlink_rmdir_directory s pathname' flags' l entry v1) by assumption.
  apply (fs_delete_eq (with_vfs s v1)). exact Hdel2.
Qed.

Lemma unlink_remove_directory_deletes_twice_witness :
  unlink "/home/d" 512 sample_state
  = (with_vfs sample_state sample_vfs_without_d, Throw ENOENT)
  /\ Sample.paths (backend sample_vfs) !! ["home"; "d"] = Some 15%nat
  /\ Sample.paths (backend sample_vfs_without_d) !! ["home"; "d"] = None
  /\ Sample.paths (backend sample_vfs_without_d) !! ["home"; "d"; "x"] = None.
Proof.
  split.
  - apply (unlink_remove_directory_deletes_twice Sample.Tree Sample.platform
             Sample.session sample_state "/home/d" 512 15%nat
             (mkfile "d" 511 Directory) sample_vfs_without_d sample_vfs_without_d
             ENOENT); vm_compute; first [reflexivity | discriminate].
  - repeat split; vm_compute; reflexivity.
Defined.

(** The other three cases on the sample state. *)
Lemma unlink_sample_cases :
  snd (unlink "/home/f" 512 sample_state) = Throw ENOTDIR
  /\ snd (unlink "/home/d" 0 sample_state) = Throw EISDIR
  /\ snd (unlink "/home/f" 0 sample_state) = Ok tt
  /\ snd ((unlink "/home/f" 0 ;; lstat "/home/f") sample_state) = Throw ENOENT.
Proof. repeat split; vm_compute; reflexivity. Qed.

(** ** [stat], [fstat] and [lstat] *)

Section StatFacts.
Context {FS : Type} `{!Platform} `{!FilesystemSession FS}.

(** [stat] reports on the entry that the session finds when it is asked to
    follow links. *)
Lemma stat_follows (s : State FS) (pathname' : string) (l : loc) (entry : File) :
  filesystem_get (vfs (world s)) (proc s)
    (resolve pathname' (PWD (proc s))) (Some true) = Ok l ->
  objs (vfs (world s)) !! l = Some entry ->
  stat pathname' s = (s, Ok (_stat entry)).
Proof.
  intros Hget Hobj. unfold stat. mstep (this_eq s).
  mstep (fs_get_Ok s _ _ _ _ Hget Hobj). reflexivity.
Qed.

(** [lstat] leaves the second argument of [get] out. *)
Lemma lstat_plain (s : State FS) (pathname' : string) (l : loc) (entry : File) :
  filesystem_get (vfs (world s)) (proc s)
    (resolve pathname' (PWD (proc s))) None = Ok l ->
  objs (vfs (world s)) !! l = Some entry ->
  lstat pathname' s = (s, Ok (_stat entry)).
Proof.
  intros Hget Hobj. unfold lstat. mstep (this_eq s).
  mstep (fs_get_Ok s _ _ _ _ Hget Hobj). reflexivity.
Qed.

(** [fstat] makes the same call as [lstat], on the path of the descriptor. *)
Lemma fstat_is_lstat (s : State FS) (h : number) (fdd : FileDescriptorData) :
  fd (proc s) !! h = Some fdd ->
  fstat h s = lstat (pathname fdd) s.
Proof.
  intros Hfd. unfold fstat, lstat.
  mstep (requireFileDescriptorData_Some s h fdd Hfd). reflexivity.
Qed.

(** The report: the permission bits with the bit of the type, owner, group,
    and a size of 0.  For a link the type bit is that of a link. *)
Lemma stat_of_link (entry : File) (target' : string) :
  kind entry = SymbolicLink target' ->
  _stat entry = {| st_mode := js_or (mode entry)
                                (js_or (js_or (js_or 0 0) 0) StatMode_IFLNK);
                   st_owner := owner entry;
                   st_group := group entry;
                   st_size := 0 |}.
Proof.
  intros Hk. unfold _stat, isDirectory, isRegularFile, isDeviceFile,
    isSymbolicLink, getFileType. rewrite Hk. reflexivity.
Qed.

End StatFacts.

(** C5 (the code differs). [fstat] asks the session for the path of the
    descriptor without the request to follow links, as [lstat] does: for a
    descriptor whose path is a symbolic link it reports on the link, where
    [stat] reports on the target. *)
Theorem fstat_does_not_follow_links
    (FS : Type) (P : Platform) (F : FilesystemSession FS)
    (s : State FS) (h : number) (fdd : FileDescriptorData) :
  fd (proc s) !! h = Some fdd ->
  fstat h s = lstat (pathname fdd) s.
Proof. apply fstat_is_lstat. Qed.

Lemma fstat_does_not_follow_links_witness :
  snd (fstat (Int 3) sample_state_l)
  = Ok {| st_mode := 41408; st_owner := 0; st_group := 0; st_size := 0 |}
  /\ snd (lstat "/home/l" sample_state_l)
     = Ok {| st_mode := 41408; st_owner := 0; st_group := 0; st_size := 0 |}
  /\ snd (stat "/home/l" sample_state_l)
     = Ok {| st_mode := 33188; st_owner := 0; st_group := 0; st_size := 0 |}.
Proof.
  rewrite (fstat_does_not_follow_links Sample.Tree Sample.platform Sample.session
             sample_state_l (Int 3)
             {| pathname := "/home/l"; flags := 1; offset := 0 |})
    by (vm_compute; reflexivity).
  repeat split; vm_compute; reflexivity.
Defined.

(** ** [spawn] *)

(** The handles that [_createFileDescriptor] gives out on the empty table of
    a new process: [-Infinity], then [NaN], then [NaN] again. *)
Lemma next_handle_empty : next_handle ∅ = NegInfinity.
Proof. reflexivity. Qed.

Lemma next_handle_second (a : FileDescriptorData) :
  next_handle {[ NegInfinity := a ]} = NaN.
Proof. unfold next_handle. rewrite map_to_list_singleton. reflexivity. Qed.

Lemma Math_max_NaN (l : list number) : NaN ∈ l -> Math_max l = NaN.
Proof.
  induction l as [|k l IH]; intros Hin.
  - apply elem_of_nil in Hin. contradiction.
  - apply elem_of_cons in Hin as [<- | Hin].
    + reflexivity.
    + simpl. fold (Math_max l). rewrite (IH Hin). destruct k; reflexivity.
Qed.

(** Once a handle that is not an integer is in the table, every further
    handle is [NaN]. *)
Lemma next_handle_NaN (t : gmap number FileDescriptorData) (k : number) :
  is_Some (t !! k) -> (forall z, k <> Int z) -> next_handle t = NaN.
Proof.
  intros [v Hk] Hnot. unfold next_handle.
  rewrite (Math_max_NaN (parseInt_key <$> (map_to_list t).*1)); [reflexivity|].
  apply list_elem_of_fmap. exists k. split.
  - destruct k; try reflexivity. exfalso. apply (Hnot z). reflexivity.
  - apply list_elem_of_fmap. exists (k, v). split; [reflexivity|].
    apply elem_of_map_to_list. exact Hk.
Qed.

Section SpawnFacts.
Context {FS : Type} `{!Platform} `{!FilesystemSession FS}.

(** [spawn] runs the three [open] and the body on the new process. *)
Lemma spawn_eq (callback : M FS unit) (s : State FS) :
  spawn callback s =
    match (spawn_stdio ;; callback) (child_state s) with
    | (s', Ok _) =>
        ({| proc :=
              {| id := id (proc s); pname := pname (proc s); fd := fd (proc s);
                 args := args (proc s); env := env (proc s);
                 children :=
                   filter (fun c => c ≠ id (proc s'))
                          (children (proc s) ++ [newPid (world s)]);
                 uid := uid (proc s); gid := gid (proc s) |};
            world := world s' |}, Ok tt)
    | (s', Throw e) =>
        ({| proc :=
              {| id := id (proc s); pname := pname (proc s); fd := fd (proc s);
                 args := args (proc s); env := env (proc s);
                 children := children (proc s) ++ [newPid (world s)];
                 uid := uid (proc s); gid := gid (proc s) |};
            world := world s' |}, Throw e)
    end.
Proof.
  unfold spawn. mstep (this_eq s).
  erewrite bind_Ok by reflexivity. cbv beta.
  erewrite bind_Ok by reflexivity.
  erewrite bind_Ok by reflexivity.
  unfold bind at 1, bound_to. cbn [world proc newPid vfs device_writes].
  change (new_Process _) with (new_Process (spawn_init s)).
  fold (child_state s).
  destruct ((spawn_stdio ;; callback) (child_state s)) as [s' [v|e]]; reflexivity.
Qed.

(** [spawn] leaves the descriptor table of the caller, and its identity,
    as they were. *)
Lemma spawn_parent_table (callback : M FS unit) (s s' : State FS)
    (r : Result unit) :
  spawn callback s = (s', r) ->
  fd (proc s') = fd (proc s) /\ id (proc s') = id (proc s)
  /\ uid (proc s') = uid (proc s) /\ gid (proc s') = gid (proc s)
  /\ env (proc s') = env (proc s).
Proof.
  rewrite spawn_eq.
  destruct ((spawn_stdio ;; callback) (child_state s)) as [s1 [v|e]];
    intros [= <- <-]; repeat split; reflexivity.
Qed.

(** The new process: the pid of the counter, the environment of the caller,
    an empty descriptor table, and the identity of the superuser whatever
    the caller is. *)
Lemma spawn_child_fields (s : State FS) :
  let child := proc (child_state s) in
  id child = newPid (world s)
  /\ newPid (world (child_state s)) = newPid (world s) + 1
  /\ vfs (world (child_state s)) = vfs (world s)
  /\ env child = env (proc s)
  /\ fd child = ∅
  /\ uid child = 0 /\ gid child = 0.
Proof. repeat split; reflexivity. Qed.

End SpawnFacts.

(** C6 (the code differs). The process that [spawn] creates gets the pid of
    the counter and the environment of the caller, the three [open] and the
    body run on it, and the descriptor table of the caller stays as it was.
    But the constructor sets [uid] and [gid]
    to 0 whatever [spawn] passes, and on the empty table of the new process
    the three [open] get the handles [-Infinity], [NaN] and [NaN]: the third
    takes the place of the second.  For a caller with uid 5 and gid 7 in the
    sample state (where the session refuses a second entry of the same name)
    the third [open] fails and [spawn] throws before the body runs. *)
Theorem spawn_child_identity_and_descriptors :
  (forall (FS : Type) (P : Platform) (F : FilesystemSession FS) (s : State FS),
      let child := proc (child_state s) in
      id child = newPid (world s) /\ env child = env (proc s)
      /\ fd child = ∅ /\ uid child = 0 /\ gid child = 0)
  /\ (forall (FS : Type) (P : Platform) (F : FilesystemSession FS)
             (callback : M FS unit) (s : State FS),
        fd (proc (fst (spawn callback s))) = fd (proc s)
        /\ snd (spawn callback s)
           = match snd ((spawn_stdio ;; callback) (child_state s)) with
             | Ok _ => Ok tt
             | Throw e => Throw e
             end)
  /\ (forall a b : FileDescriptorData,
        next_handle ∅ = NegInfinity
        /\ next_handle {[ NegInfinity := a ]} = NaN
        /\ next_handle (<[NaN := b]> {[ NegInfinity := a ]}) = NaN)
  /\ uid (proc sample_state_user) = 5 /\ gid (proc sample_state_user) = 7
  /\ uid (proc (child_state sample_state_user)) = 0
  /\ gid (proc (child_state sample_state_user)) = 0
  /\ snd ((h0 <- open "/dev/tty1" OpenFlag_READ ;;
           h1 <- open "/dev/tty1" OpenFlag_WRITE ;;
           p <- this ;;
           ret (h0, h1, fd p)) (child_state sample_state_user))
     = Ok (NegInfinity, NaN, <[NaN := tty 2]> {[ NegInfinity := tty 1 ]})
  /\ snd (spawn_stdio (child_state sample_state_user)) = Throw EEXIST
  /\ snd (spawn (ret tt) sample_state_user) = Throw EEXIST.
Proof.
  split; [|split; [|split]].
  - intros FS P F s. repeat split; reflexivity.
  - intros FS P F callback s. rewrite spawn_eq.
    destruct ((spawn_stdio ;; callback) (child_state s)) as [s' [v|e]];
      split; reflexivity.
  - intros a b. split; [apply next_handle_empty|]. split; [apply next_handle_second|].
    apply (next_handle_NaN _ NaN).
    + exists b. apply lookup_insert_eq.
    + intros z. discriminate.
  - repeat split; vm_compute; reflexivity.
Qed.

(** * Further properties of the system calls *)

(** ** Descriptors: [seek], [read] and [write] *)

Section DescriptorFacts.
Context {FS : Type} `{!Platform} `{!FilesystemSession FS}.

Lemma seek_Some (s : State FS) (h : number) (fdd : FileDescriptorData)
    (offset' : Z) :
  fd (proc s) !! h = Some fdd ->
  seek h offset' s
  = ({| proc := with_fd (proc s)
                  (<[h := {| pathname := pathname fdd; flags := flags fdd;
                             offset := offset' |}]> (fd (proc s)));
        world := world s |}, Ok tt).
Proof.
  intros Hfd. unfold seek.
  mstep (requireFileDescriptorData_Some s h fdd Hfd). reflexivity.
Qed.

Lemma store_entry_eq (s : State FS) (l : loc) (f : File) :
  store_entry l f s
  = (with_vfs s {| objs := <[l := f]> (objs (vfs (world s)));
                   backend := backend (vfs (world s)) |}, Ok tt).
Proof. reflexivity. Qed.

Lemma truthy_cases (x : Z) : (x = 0 /\ truthy x = false) \/ (x <> 0 /\ truthy x = true).
Proof.
  destruct (Z.eq_dec x 0) as [->|Hx]; [left; split; reflexivity|].
  right. split; [exact Hx|apply truthy_true, Hx].
Qed.

Lemma fs_get_cases (s : State FS) (path : list string) (follow : option bool) :
  (exists l f, filesystem_get (vfs (world s)) (proc s) path follow = Ok l
               /\ objs (vfs (world s)) !! l = Some f
               /\ fs_get path follow s = (s, Ok (l, f)))
  \/ (exists e, fs_get path follow s = (s, Throw e)).
Proof.
  unfold fs_get.
  destruct (filesystem_get _ _ _ _) as [l|e]; [|right; eexists; reflexivity].
  destruct (objs _ !! l) as [f|] eqn:E; [|right; eexists; reflexivity].
  left. exists l, f. repeat split; assumption.
Qed.

Lemma read_throw_unchanged (s s' : State FS) (h : number) (count : number)
    (e : Exception) :
  read h count s = (s', Throw e) -> s' = s.
Proof.
  unfold read. destruct (fd (proc s) !! h) as [fdd|] eqn:Hfd.
  - mstep (requireFileDescriptorData_Some s h fdd Hfd).
    destruct (negb _); [intros [= <- _]; reflexivity|].
    mstep (this_eq s).
    destruct (fs_get_cases s (resolve (pathname fdd) (PWD (proc s))) (Some true))
      as [(l & f & _ & _ & Hget) | (e' & Hget)]; mstep Hget;
      [|intros [= <- _]; reflexivity].
    cbn [fst snd].
    destruct (isDirectory f); [intros [= <- _]; reflexivity|].
    destruct (isRegularFile f || isExecutableFile f).
    + destruct (entry_data f).
      * erewrite bind_Ok by reflexivity.
        erewrite bind_Ok by (apply (seek_Some s h fdd), Hfd).
        discriminate.
      * mstep (store_entry_eq s l (with_data f generateFakeElfFile)).
        erewrite bind_Ok by (apply (seek_Some _ h fdd), Hfd).
        discriminate.
    + destruct (isDeviceFile f); [discriminate|intros [= <- _]; reflexivity].
  - mstep (requireFileDescriptorData_None s h Hfd). intros [= <- _]. reflexivity.
Qed.

Lemma write_throw_unchanged (s s' : State FS) (h : number) (buf : list byte)
    (count : number) (e : Exception) :
  write h buf count s = (s', Throw e) -> s' = s.
Proof.
  unfold write. destruct (fd (proc s) !! h) as [fdd|] eqn:Hfd.
  - mstep (requireFileDescriptorData_Some s h fdd Hfd).
    destruct (negb _); [intros [= <- _]; reflexivity|].
    mstep (this_eq s).
    destruct (fs_get_cases s (resolve (pathname fdd) (PWD (proc s))) (Some true))
      as [(l & f & _ & _ & Hget) | (e' & Hget)]; mstep Hget;
      [|intros [= <- _]; reflexivity].
    cbn [fst snd].
    destruct (isDirectory f); [intros [= <- _]; reflexivity|].
    destruct (isRegularFile f).
    + erewrite bind_Ok by apply store_entry_eq.
      erewrite (seek_Some _ h fdd) by exact Hfd. discriminate.
    + destruct (isDeviceFile f); [discriminate|intros [= <- _]; reflexivity].
  - mstep (requireFileDescriptorData_None s h Hfd). intros [= <- _]. reflexivity.
Qed.

Lemma seek_throw_unchanged (s s' : State FS) (h : number) (offset' : Z)
    (e : Exception) :
  seek h offset' s = (s', Throw e) -> s' = s /\ e = EBADFD /\ fd (proc s) !! h = None.
Proof.
  destruct (fd (proc s) !! h) as [fdd|] eqn:Hfd.
  - rewrite (seek_Some s h fdd) by exact Hfd. discriminate.
  - unfold seek. mstep (requireFileDescriptorData_None s h Hfd).
    intros [= <- <-]. repeat split.
Qed.

End DescriptorFacts.

(** X1. A [read], a [write] or a [seek] that throws has changed nothing:
    the process and the world are as before the call. *)
Theorem failed_io_changes_nothing
    (FS : Type) (P : Platform) (F : FilesystemSession FS)
    (s s' : State FS) (h : number) (e : Exception) :
  (forall count, read h count s = (s', Throw e) -> s' = s)
  /\ (forall buf count, write h buf count s = (s', Throw e) -> s' = s)
  /\ (forall offset', seek h offset' s = (s', Throw e) -> s' = s).
Proof.
  split; [|split].
  - intros count. apply read_throw_unchanged.
  - intros buf count. apply write_throw_unchanged.
  - intros offset' H. apply seek_throw_unchanged in H. apply H.
Qed.

Lemma failed_io_changes_nothing_witness :
  fst (read (Int 1) PosInfinity sample_state) = sample_state
  /\ fst (write (Int 0) [x41] PosInfinity sample_state) = sample_state
  /\ fst (seek (Int 9) 0 sample_state) = sample_state.
Proof.
  split; [|split].
  - apply (proj1 (failed_io_changes_nothing Sample.Tree Sample.platform
                    Sample.session sample_state _ (Int 1) EBADFD) PosInfinity).
    vm_compute. reflexivity.
  - apply (proj1 (proj2 (failed_io_changes_nothing Sample.Tree Sample.platform
                           Sample.session sample_state _ (Int 0) EBADFD))
             [x41] PosInfinity).
    vm_compute. reflexivity.
  - apply (proj2 (proj2 (failed_io_changes_nothing Sample.Tree Sample.platform
                           Sample.session sample_state _ (Int 9) EBADFD)) 0).
    vm_compute. reflexivity.
Defined.

(** ** Reading a regular file *)

Lemma slice_read (d : list byte) (k : Z) (count : number) :
  0 <= k -> (count = PosInfinity \/ exists c, count = Int c /\ 0 <= c) ->
  slice d k (js_add (Int k) count) = first_bytes (drop (Z.to_nat k) d) count.
Proof.
  intros Hk [-> | (c & -> & Hc)].
  - simpl js_add. apply slice_suffix, Hk.
  - simpl js_add. unfold slice, clamp_end, clamp_index, first_bytes.
    destruct (Z.ltb_spec k 0); [lia|]. destruct (Z.ltb_spec (k + c) 0); [lia|].
    destruct (Z.le_gt_cases k (Z.of_nat (length d))) as [Hle|Hgt].
    + rewrite (Z.min_l k) by lia.
      destruct (Z.le_gt_cases (k + c) (Z.of_nat (length d))) as [Hle'|Hgt'].
      * rewrite Z.min_l by lia. f_equal. lia.
      * rewrite Z.min_r by lia.
        rewrite !take_ge; [reflexivity|rewrite length_drop; lia..].
    + rewrite !Z.min_r by lia. rewrite Z.sub_diag. simpl take.
      rewrite (drop_ge d (Z.to_nat k)) by lia. rewrite take_nil. reflexivity.
Qed.

Lemma with_fd_same (p : Process) (h : number) (fdd : FileDescriptorData) :
  fd p !! h = Some fdd -> with_fd p (<[h := fdd]> (fd p)) = p.
Proof. intros H. unfold with_fd. rewrite insert_id by exact H. destruct p; reflexivity. Qed.

(** X2. A [read] through a descriptor on a regular file, at an offset [k]
    that is not negative: it returns the bytes from [k] on, at most [count]
    of them, and moves the offset behind them.  At the end of the file, or
    behind it, it returns no byte and the state stays as it is. *)
Theorem read_returns_bytes_from_offset
    (FS : Type) (P : Platform) (F : FilesystemSession FS)
    (s : State FS) (h : number) (fdd : FileDescriptorData)
    (l : loc) (entry : File) (d : list byte) (count : number) :
  fd (proc s) !! h = Some fdd ->
  js_and (flags fdd) OpenFlag_READ <> 0 ->
  filesystem_get (vfs (world s)) (proc s)
    (resolve (pathname fdd) (PWD (proc s))) (Some true) = Ok l ->
  objs (vfs (world s)) !! l = Some entry ->
  kind entry = RegularFile d ->
  0 <= offset fdd ->
  (count = PosInfinity \/ exists c, count = Int c /\ 0 <= c) ->
  let data := first_bytes (drop (Z.to_nat (offset fdd)) d) count in
  exists s',
    read h count s = (s', Ok (Data data))
    /\ world s' = world s
    /\ fd (proc s')
       = <[h := {| pathname := pathname fdd; flags := flags fdd;
                   offset := offset fdd + byteLength data |}]> (fd (proc s))
    /\ (length data <= length d - Z.to_nat (offset fdd))%nat
    /\ (byteLength d <= offset fdd -> data = [] /\ s' = s).
Proof.
  intros Hfd Hr Hget Hobj Hkind Hoff Hcount data.
  rewrite (read_regular s h fdd l entry d count Hfd Hr Hget Hobj Hkind).
  rewrite (slice_read d (offset fdd) count Hoff Hcount). fold data.
  eexists. split; [reflexivity|]. split; [reflexivity|]. split; [reflexivity|].
  split.
  - unfold data. rewrite <- length_drop.
    destruct count; simpl; try lia. rewrite length_take. lia.
  - intros Hend.
    assert (data = []) as Hnil.
    { unfold data. unfold byteLength in Hend. rewrite drop_ge by lia.
      destruct count; try reflexivity. apply take_nil. }
    split; [exact Hnil|].
    rewrite Hnil. unfold byteLength. simpl length. rewrite Z.add_0_r.
    replace {| pathname := pathname fdd; flags := flags fdd; offset := offset fdd |}
      with fdd by (destruct fdd; reflexivity).
    rewrite with_fd_same by exact Hfd. destruct s; reflexivity.
Qed.

Lemma read_returns_bytes_from_offset_witness :
  read (Int 3) (Int 4) sample_state_g_end = (sample_state_g_end, Ok (Data [])).
Proof.
  destruct (read_returns_bytes_from_offset Sample.Tree Sample.platform Sample.session
              sample_state_g_end (Int 3)
              {| pathname := "/home/g"; flags := 1; offset := 5 |}
              13%nat (mkfile "g" 420 (RegularFile [x41; x42])) [x41; x42] (Int 4))
    as (s' & Hread & _ & _ & _ & Hend).
  - vm_compute. reflexivity.
  - vm_compute. discriminate.
  - vm_compute. reflexivity.
  - vm_compute. reflexivity.
  - reflexivity.
  - simpl. lia.
  - right. exists 4. split; [reflexivity|lia].
  - destruct Hend as [_ Hs']; [unfold byteLength; simpl; lia|].
    rewrite Hread, Hs'. reflexivity.
Defined.

(** ** Devices and executables behind a descriptor *)

Section DeviceFacts.
Context {FS : Type} `{!Platform} `{!FilesystemSession FS}.

Lemma write_device (s : State FS) (h : number) (fdd : FileDescriptorData)
    (l : loc) (entry : File) (buf : list byte) (count : number) :
  fd (proc s) !! h = Some fdd ->
  js_and (flags fdd) OpenFlag_WRITE <> 0 ->
  filesystem_get (vfs (world s)) (proc s)
    (resolve (pathname fdd) (PWD (proc s))) (Some true) = Ok l ->
  objs (vfs (world s)) !! l = Some entry ->
  kind entry = DeviceFile ->
  write h buf count s
  = ({| proc := proc s;
        world := {| vfs := vfs (world s); newPid := newPid (world s);
                    device_writes := (l, buf) :: device_writes (world s) |} |},
     Ok tt).
Proof.
  intros Hfd Hw Hget Hobj Hkind. unfold write.
  mstep (requireFileDescriptorData_Some s h fdd Hfd).
  rewrite (truthy_true _ Hw). cbn [negb].
  mstep (this_eq s). mstep (fs_get_Ok s _ _ _ _ Hget Hobj). cbn [fst snd].
  unfold isDirectory, isRegularFile, isDeviceFile, getFileType. rewrite Hkind.
  reflexivity.
Qed.

Lemma read_device (s : State FS) (h : number) (fdd : FileDescriptorData)
    (l : loc) (entry : File) (count : number) :
  fd (proc s) !! h = Some fdd ->
  js_and (flags fdd) OpenFlag_READ <> 0 ->
  filesystem_get (vfs (world s)) (proc s)
    (resolve (pathname fdd) (PWD (proc s))) (Some true) = Ok l ->
  objs (vfs (world s)) !! l = Some entry ->
  kind entry = DeviceFile ->
  read h count s = (s, Ok (AwaitDevice l)).
Proof.
  intros Hfd Hr Hget Hobj Hkind. unfold read.
  mstep (requireFileDescriptorData_Some s h fdd Hfd).
  rewrite (truthy_true _ Hr). cbn [negb].
  mstep (this_eq s). mstep (fs_get_Ok s _ _ _ _ Hget Hobj). cbn [fst snd].
  unfold isDirectory, isRegularFile, isExecutableFile, isDeviceFile, getFileType.
  rewrite Hkind. reflexivity.
Qed.

Lemma read_executable_without_data (s : State FS) (h : number)
    (fdd : FileDescriptorData) (l : loc) (entry : File) (count : number) :
  fd (proc s) !! h = Some fdd ->
  js_and (flags fdd) OpenFlag_READ <> 0 ->
  filesystem_get (vfs (world s)) (proc s)
    (resolve (pathname fdd) (PWD (proc s))) (Some true) = Ok l ->
  objs (vfs (world s)) !! l = Some entry ->
  kind entry = ExecutableFile None ->
  let data :=
    slice generateFakeElfFile (offset fdd) (js_add (Int (offset fdd)) count) in
  read h count s
  = ({| proc := with_fd (proc s)
                  (<[h := {| pathname := pathname fdd; flags := flags fdd;
                             offset := offset fdd + byteLength data |}]>
                     (fd (proc s)));
        world := world (with_vfs s
                   {| objs := <[l := with_data entry generateFakeElfFile]>
                                (objs (vfs (world s)));
                      backend := backend (vfs (world s)) |}) |},
     Ok (Data data)).
Proof.
  intros Hfd Hr Hget Hobj Hkind data. unfold read.
  mstep (requireFileDescriptorData_Some s h fdd Hfd).
  rewrite (truthy_true _ Hr). cbn [negb].
  mstep (this_eq s). mstep (fs_get_Ok s _ _ _ _ Hget Hobj). cbn [fst snd].
  unfold isDirectory, isRegularFile, isExecutableFile, getFileType, entry_data.
  rewrite Hkind. cbn [String.eqb Ascii.eqb Bool.eqb orb default].
  mstep (store_entry_eq s l (with_data entry generateFakeElfFile)).
  erewrite bind_Ok by (apply (seek_Some _ h fdd), Hfd).
  reflexivity.
Qed.

End DeviceFacts.

(** X3. On a device the byte count of [write] plays no part: the whole
    buffer goes to the [write] method of the device, whatever [count] is, and
    neither the offset of the descriptor nor the storage changes.  A [read]
    on a device hands over what the device will produce and leaves the state
    alone. *)
Theorem device_write_ignores_count
    (FS : Type) (P : Platform) (F : FilesystemSession FS)
    (s : State FS) (h : number) (fdd : FileDescriptorData)
    (l : loc) (entry : File) :
  fd (proc s) !! h = Some fdd ->
  filesystem_get (vfs (world s)) (proc s)
    (resolve (pathname fdd) (PWD (proc s))) (Some true) = Ok l ->
  objs (vfs (world s)) !! l = Some entry ->
  kind entry = DeviceFile ->
  (js_and (flags fdd) OpenFlag_WRITE <> 0 ->
   forall (buf : list byte) (count : number),
   exists s',
     write h buf count s = (s', Ok tt)
     /\ device_writes (world s') = (l, buf) :: device_writes (world s)
     /\ vfs (world s') = vfs (world s)
     /\ proc s' = proc s)
  /\ (js_and (flags fdd) OpenFlag_READ <> 0 ->
      forall count : number, read h count s = (s, Ok (AwaitDevice l))).
Proof.
  intros Hfd Hget Hobj Hkind. split.
  - intros Hw buf count. eexists. split.
    + apply (write_device s h fdd l entry); assumption.
    + repeat split.
  - intros Hr count. apply (read_device s h fdd l entry); assumption.
Qed.

Lemma device_write_ignores_count_witness :
  exists s',
    write (Int 1) [x68; x69] (Int 0) sample_state = (s', Ok tt)
    /\ device_writes (world s') = [(10%nat, [x68; x69])]
    /\ proc s' = proc sample_state.
Proof.
  destruct (proj1 (device_write_ignores_count Sample.Tree Sample.platform
                     Sample.session sample_state (Int 1) (tty 2) 10%nat
                     (mkfile "tty1" 438 DeviceFile)
                     ltac:(vm_compute; reflexivity) ltac:(vm_compute; reflexivity)
                     ltac:(vm_compute; reflexivity) ltac:(reflexivity))
              ltac:(vm_compute; discriminate) [x68; x69] (Int 0))
    as (s' & Hw & Hdev & _ & Hproc).
  exists s'. split; [exact Hw|]. split; [exact Hdev|exact Hproc].
Defined.

(** X4. The first [read] through a descriptor on an executable that has no
    data puts the placeholder image into the entry, where it stays, and
    returns bytes of that image from the offset on. *)
Theorem read_executable_installs_image
    (FS : Type) (P : Platform) (F : FilesystemSession FS)
    (s : State FS) (h : number) (fdd : FileDescriptorData)
    (l : loc) (entry : File) (count : number) :
  fd (proc s) !! h = Some fdd ->
  js_and (flags fdd) OpenFlag_READ <> 0 ->
  filesystem_get (vfs (world s)) (proc s)
    (resolve (pathname fdd) (PWD (proc s))) (Some true) = Ok l ->
  objs (vfs (world s)) !! l = Some entry ->
  kind entry = ExecutableFile None ->
  0 <= offset fdd ->
  (count = PosInfinity \/ exists c, count = Int c /\ 0 <= c) ->
  let data := first_bytes (drop (Z.to_nat (offset fdd)) generateFakeElfFile) count in
  exists s' entry',
    read h count s = (s', Ok (Data data))
    /\ objs (vfs (world s')) = <[l := entry']> (objs (vfs (world s)))
    /\ kind entry' = ExecutableFile (Some generateFakeElfFile)
    /\ mode entry' = mode entry /\ owner entry' = owner entry
    /\ group entry' = group entry
    /\ backend (vfs (world s')) = backend (vfs (world s))
    /\ fd (proc s')
       = <[h := {| pathname := pathname fdd; flags := flags fdd;
                   offset := offset fdd + byteLength data |}]> (fd (proc s)).
Proof.
  intros Hfd Hr Hget Hobj Hkind Hoff Hcount data.
  exists (fst (read h count s)), (with_data entry generateFakeElfFile).
  rewrite (read_executable_without_data s h fdd l entry count Hfd Hr Hget Hobj Hkind).
  rewrite (slice_read generateFakeElfFile (offset fdd) count Hoff Hcount). fold data.
  cbn [fst]. split; [reflexivity|]. split; [reflexivity|].
  split; [unfold with_data; simpl; rewrite Hkind; reflexivity|].
  repeat split.
Qed.

Lemma read_executable_installs_image_witness :
  exists s',
    read (Int 3) (Int 2) sample_state_exe_open = (s', Ok (Data [x7f; x45]))
    /\ (kind <$> objs (vfs (world s')) !! 18%nat)
       = Some (ExecutableFile (Some [x7f; x45; x4c; x46])).
Proof.
  destruct (read_executable_installs_image Sample.Tree Sample.platform Sample.session
              sample_state_exe_open (Int 3)
              {| pathname := "/home/e"; flags := 1; offset := 0 |}
              18%nat (mkfile "e" 493 (ExecutableFile None)) (Int 2))
    as (s' & entry' & Hread & Hobjs & Hk & _).
  - vm_compute. reflexivity.
  - vm_compute. discriminate.
  - vm_compute. reflexivity.
  - vm_compute. reflexivity.
  - reflexivity.
  - simpl. lia.
  - right. exists 2. split; [reflexivity|lia].
  - exists s'. split; [exact Hread|].
    rewrite Hobjs, lookup_insert_eq. simpl. rewrite Hk. reflexivity.
Defined.

(** ** [open] on an entry that exists *)

Section OpenExisting.
Context {FS : Type} `{!Platform} `{!FilesystemSession FS}.

Lemma open_lookup_rethrown (s : State FS) (pathname' : string) (flags' : Z)
    (e : Exception) :
  filesystem_get (vfs (world s)) (proc s)
    (resolve pathname' (PWD (proc s))) None = Throw e ->
  js_and flags' OpenFlag_WRITE = 0 \/ e <> ENOENT ->
  open pathname' flags' s = (s, Throw e).
Proof.
  intros Hget Hno. unfold open. mstep (this_eq s).
  erewrite bind_Throw; [reflexivity|].
  erewrite try_catch_Throw by (apply fs_get_Throw, Hget).
  destruct Hno as [Hw | He].
  - rewrite (truthy_false _ Hw). reflexivity.
  - destruct e; cbn [is_ENOENT]; rewrite ?andb_false_r; try reflexivity.
    exfalso. apply He. reflexivity.
Qed.

Lemma open_found (s : State FS) (pathname' : string) (flags' : Z)
    (l : loc) (entry : File) :
  filesystem_get (vfs (world s)) (proc s)
    (resolve pathname' (PWD (proc s))) None = Ok l ->
  objs (vfs (world s)) !! l = Some entry ->
  open pathname' flags' s
  = (if isDirectory entry then throw EISDIR else
     if truthy (js_and flags' OpenFlag_READ) && negb (_isPermitted (proc s) entry 4)
     then throw EACCES else
     if truthy (js_and flags' OpenFlag_WRITE) && negb (_isPermitted (proc s) entry 2)
     then throw EACCES else
     fd' <- _createFileDescriptor pathname' flags' ;;
     fs_create (join [PROCESS_DIRECTORY; toString (Int (id (proc s))); "fd"])
       (descriptor_link fd' pathname') ;;
     ret fd') s.
Proof.
  intros Hget Hobj. unfold open. mstep (this_eq s).
  erewrite bind_Ok by (apply try_catch_Ok, (fs_get_Ok s _ _ l entry Hget Hobj)).
  reflexivity.
Qed.

Lemma open_existing (s : State FS) (pathname' : string) (flags' : Z)
    (l : loc) (entry : File) (v2 : Vfs FS) (r : Result unit) :
  let p := proc s in
  let h := next_handle (fd p) in
  let t := <[h := {| pathname := pathname'; flags := flags'; offset := 0 |}]> (fd p) in
  filesystem_get (vfs (world s)) p (resolve pathname' (PWD p)) None = Ok l ->
  objs (vfs (world s)) !! l = Some entry ->
  isDirectory entry = false ->
  (js_and flags' OpenFlag_READ <> 0 -> _isPermitted p entry 4 = true) ->
  (js_and flags' OpenFlag_WRITE <> 0 -> _isPermitted p entry 2 = true) ->
  filesystem_create (vfs (world s)) (with_fd p t)
    (join [PROCESS_DIRECTORY; toString (Int (id p)); "fd"])
    (descriptor_link h pathname') = (v2, r) ->
  open pathname' flags' s
  = ({| proc := with_fd p t; world := world (with_vfs s v2) |},
     match r with Ok _ => Ok h | Throw e => Throw e end).
Proof.
  intros p h t Hget Hobj Hdir Hread Hwrite Hlink.
  rewrite (open_found s pathname' flags' l entry Hget Hobj). rewrite Hdir.
  assert (truthy (js_and flags' OpenFlag_READ)
            && negb (_isPermitted (proc s) entry 4) = false) as ->.
  { destruct (truthy_cases (js_and flags' OpenFlag_READ)) as [[_ ->]|[Hne ->]];
      [reflexivity|]. fold p. rewrite (Hread Hne). reflexivity. }
  assert (truthy (js_and flags' OpenFlag_WRITE)
            && negb (_isPermitted (proc s) entry 2) = false) as ->.
  { destruct (truthy_cases (js_and flags' OpenFlag_WRITE)) as [[_ ->]|[Hne ->]];
      [reflexivity|]. fold p. rewrite (Hwrite Hne). reflexivity. }
  mstep (createFileDescriptor_eq s pathname' flags').
  destruct r as [[]|e].
  - erewrite bind_Ok by (apply fs_create_eq; exact Hlink). reflexivity.
  - erewrite bind_Throw by (apply fs_create_eq; exact Hlink). reflexivity.
Qed.

Lemma open_rejected (s : State FS) (pathname' : string) (flags' : Z)
    (l : loc) (entry : File) :
  filesystem_get (vfs (world s)) (proc s)
    (resolve pathname' (PWD (proc s))) None = Ok l ->
  objs (vfs (world s)) !! l = Some entry ->
  (isDirectory entry = true -> open pathname' flags' s = (s, Throw EISDIR))
  /\ (isDirectory entry = false ->
      (js_and flags' OpenFlag_READ <> 0 /\ _isPermitted (proc s) entry 4 = false)
      \/ (js_and flags' OpenFlag_WRITE <> 0 /\ _isPermitted (proc s) entry 2 = false) ->
      open pathname' flags' s = (s, Throw EACCES)).
Proof.
  intros Hget Hobj. rewrite (open_found s pathname' flags' l entry Hget Hobj).
  split.
  - intros ->. reflexivity.
  - intros -> [[Hf Hp] | [Hf Hp]].
    + rewrite (truthy_true _ Hf), Hp. reflexivity.
    + rewrite (truthy_true _ Hf), Hp. cbn [negb andb].
      destruct (_ && _); reflexivity.
Qed.

End OpenExisting.

(** X5. [open] on a path that leads to an entry which is not a directory
    and grants what the flags ask for (nothing, when neither the read nor the
    write flag is set) takes the next handle, enters the descriptor at offset
    0 and has the session create its link in the descriptor directory.  The
    result is the handle when the session accepts the link.  When the session
    refuses it, [open] throws, and the descriptor is in the table all the
    same. *)
Theorem open_existing_entry
    (FS : Type) (P : Platform) (F : FilesystemSession FS)
    (s : State FS) (pathname' : string) (flags' : Z)
    (l : loc) (entry : File) (v2 : Vfs FS) (r : Result unit) :
  let p := proc s in
  let h := next_handle (fd p) in
  let fdd := {| pathname := pathname'; flags := flags'; offset := 0 |} in
  filesystem_get (vfs (world s)) p (resolve pathname' (PWD p)) None = Ok l ->
  objs (vfs (world s)) !! l = Some entry ->
  isDirectory entry = false ->
  (js_and flags' OpenFlag_READ <> 0 -> _isPermitted p entry 4 = true) ->
  (js_and flags' OpenFlag_WRITE <> 0 -> _isPermitted p entry 2 = true) ->
  filesystem_create (vfs (world s)) (with_fd p (<[h := fdd]> (fd p)))
    (join [PROCESS_DIRECTORY; toString (Int (id p)); "fd"])
    (descriptor_link h pathname') = (v2, r) ->
  exists s',
    open pathname' flags' s
    = (s', match r with Ok _ => Ok h | Throw e => Throw e end)
    /\ fd (proc s') = <[h := fdd]> (fd p)
    /\ fd (proc s') !! h = Some fdd
    /\ vfs (world s') = v2
    /\ uid (proc s') = uid p /\ gid (proc s') = gid p /\ env (proc s') = env p.
Proof.
  intros p h fdd Hget Hobj Hdir Hread Hwrite Hlink.
  eexists. split.
  - apply (open_existing s pathname' flags' l entry v2 r); assumption.
  - simpl. split; [reflexivity|]. split; [apply lookup_insert_eq|]. repeat split.
Qed.

Lemma open_existing_entry_witness :
  exists s',
    open "/home/g" 1 sample_state = (s', Ok (Int 3))
    /\ fd (proc s') !! Int 3
       = Some {| pathname := "/home/g"; flags := 1; offset := 0 |}.
Proof.
  pose (t := <[Int 3 := {| pathname := "/home/g"; flags := 1; offset := 0 |}]>
               (fd (proc sample_state))).
  pose (v2 := (Sample.tree_create (vfs (world sample_state))
                 (with_fd (proc sample_state) t) "/proc/1/fd"
                 (descriptor_link (Int 3) "/home/g")).1).
  destruct (open_existing_entry Sample.Tree Sample.platform Sample.session
              sample_state "/home/g" 1 13%nat
              (mkfile "g" 420 (RegularFile [x41; x42])) v2 (Ok tt))
    as (s' & Hopen & _ & Hfd & _).
  - vm_compute. reflexivity.
  - vm_compute. reflexivity.
  - reflexivity.
  - intros _. vm_compute. reflexivity.
  - intros Hw. exfalso. apply Hw. vm_compute. reflexivity.
  - vm_compute. reflexivity.
  - exists s'. split; [exact Hopen|exact Hfd].
Defined.

(** X6. An [open] that is turned down leaves no trace.  When the lookup of
    the path fails, and the write flag is not set or the failure is not
    NotFound, [open] fails with the error of the lookup; on a directory it
    fails with IsADirectory; on an entry that does not grant the read or the
    write that the flags ask for it fails with AccessDenied.  In each case
    the state is as before: no descriptor, no file. *)
Theorem open_rejected_without_trace
    (FS : Type) (P : Platform) (F : FilesystemSession FS)
    (s : State FS) (pathname' : string) (flags' : Z) :
  (forall e,
      filesystem_get (vfs (world s)) (proc s)
        (resolve pathname' (PWD (proc s))) None = Throw e ->
      js_and flags' OpenFlag_WRITE = 0 \/ e <> ENOENT ->
      open pathname' flags' s = (s, Throw e))
  /\ (forall l entry,
        filesystem_get (vfs (world s)) (proc s)
          (resolve pathname' (PWD (proc s))) None = Ok l ->
        objs (vfs (world s)) !! l = Some entry ->
        (isDirectory entry = true -> open pathname' flags' s = (s, Throw EISDIR))
        /\ (isDirectory entry = false ->
            (js_and flags' OpenFlag_READ <> 0
             /\ _isPermitted (proc s) entry 4 = false)
            \/ (js_and flags' OpenFlag_WRITE <> 0
                /\ _isPermitted (proc s) entry 2 = false) ->
            open pathname' flags' s = (s, Throw EACCES))).
Proof.
  split.
  - intros e. apply open_lookup_rethrown.
  - intros l entry. apply open_rejected.
Qed.

Lemma open_rejected_without_trace_witness :
  open "/home/nothing" 1 sample_state = (sample_state, Throw ENOENT)
  /\ open "/home/d" 1 sample_state = (sample_state, Throw EISDIR)
  /\ open "/home/g" 2 sample_state_user = (sample_state_user, Throw EACCES).
Proof.
  split; [|split].
  - apply (proj1 (open_rejected_without_trace Sample.Tree Sample.platform
                    Sample.session sample_state "/home/nothing" 1)).
    + vm_compute. reflexivity.
    + left. vm_compute. reflexivity.
  - apply (proj2 (open_rejected_without_trace Sample.Tree Sample.platform
                    Sample.session sample_state "/home/d" 1) 15%nat
             (mkfile "d" 511 Directory)); vm_compute; reflexivity.
  - apply (proj2 (open_rejected_without_trace Sample.Tree Sample.platform
                    Sample.session sample_state_user "/home/g" 2) 13%nat
             (mkfile "g" 420 (RegularFile [x41; x42])));
      [vm_compute; reflexivity | vm_compute; reflexivity | reflexivity |].
    right. split; [vm_compute; discriminate | vm_compute; reflexivity].
Defined.

(** ** The handles that [_createFileDescriptor] gives out *)

Lemma Math_max_integers_attained (l : list number) :
  (forall k, k ∈ l -> exists z, k = Int z) -> l <> [] ->
  exists m, Math_max (parseInt_key <$> l) = Int m /\ Int m ∈ l
            /\ forall z, Int z ∈ l -> z <= m.
Proof.
  induction l as [|k l IH]; intros Hall Hne; [contradiction|].
  destruct (Hall k) as [z ->]; [left|].
  destruct (decide (l = [])) as [->|Hl].
  - exists z. split; [reflexivity|]. split; [left|].
    intros z' Hz'. apply list_elem_of_singleton in Hz'. injection Hz' as ->. lia.
  - destruct IH as (m & Hmax & Hin & Hle); [|exact Hl|].
    { intros k0 Hk0. apply Hall. right. exact Hk0. }
    exists (Z.max z m). split; [|split].
    + unfold Math_max in *. rewrite fmap_cons. simpl foldr. rewrite Hmax. reflexivity.
    + destruct (Z.max_spec z m) as [[_ ->]|[_ ->]]; [right; exact Hin|left].
    + intros z' Hz'. apply elem_of_cons in Hz' as [Hz' | Hz'].
      * injection Hz' as ->. lia.
      * specialize (Hle z' Hz'). lia.
Qed.

Lemma next_handle_max (t : gmap number FileDescriptorData) (m : Z) :
  integer_handles t -> is_Some (t !! Int m) ->
  (forall z, is_Some (t !! Int z) -> z <= m) ->
  next_handle t = Int (m + 1).
Proof.
  intros Hint [x Hm] Hmax. unfold next_handle.
  assert (forall k, k ∈ (map_to_list t).*1 <-> is_Some (t !! k)) as Hkeys.
  { intros k. split.
    - intros Hk. apply list_elem_of_fmap in Hk as ([k' v] & -> & Hkv).
      apply elem_of_map_to_list in Hkv. exists v. exact Hkv.
    - intros [v Hk]. apply list_elem_of_fmap. exists (k, v). split; [reflexivity|].
      apply elem_of_map_to_list. exact Hk. }
  destruct (Math_max_integers_attained (map_to_list t).*1) as (m' & -> & Hin & Hle).
  - intros k Hk. apply Hint, Hkeys, Hk.
  - intros Hnil. assert (Int m ∈ (map_to_list t).*1) as Hin
      by (apply Hkeys; exists x; exact Hm).
    rewrite Hnil in Hin. apply elem_of_nil in Hin. contradiction.
  - simpl. f_equal. f_equal.
    assert (m <= m') by (apply Hle, Hkeys; exists x; exact Hm).
    assert (m' <= m) by (apply Hmax, Hkeys, Hin). lia.
Qed.

(** X7. On a table whose handles are integers the next handle is the
    largest handle in use plus one.  Closing a handle below the largest one
    does not make it available again, and handles that are taken one after
    the other are consecutive. *)
Theorem next_handle_is_largest_plus_one
    (t : gmap number FileDescriptorData) (m : Z) :
  integer_handles t -> is_Some (t !! Int m) ->
  (forall z, is_Some (t !! Int z) -> z <= m) ->
  next_handle t = Int (m + 1)
  /\ (forall k, k < m -> next_handle (delete (Int k) t) = Int (m + 1))
  /\ (forall x, next_handle (<[Int (m + 1) := x]> t) = Int (m + 1 + 1)).
Proof.
  intros Hint Hm Hmax. split; [|split].
  - apply next_handle_max; assumption.
  - intros k Hk. apply next_handle_max.
    + intros k' [v Hk']. apply lookup_delete_Some in Hk' as [_ Hk'].
      apply Hint. exists v. exact Hk'.
    + destruct Hm as [x Hm]. exists x. apply lookup_delete_Some. split; [|exact Hm].
      intros [= ->]. lia.
    + intros z [v Hz]. apply lookup_delete_Some in Hz as [_ Hz].
      apply Hmax. exists v. exact Hz.
  - intros x. apply next_handle_max.
    + intros k' [v Hk']. apply lookup_insert_Some in Hk' as [[<- _] | [_ Hk']].
      * eexists. reflexivity.
      * apply Hint. exists v. exact Hk'.
    + exists x. apply lookup_insert_eq.
    + intros z [v Hz]. apply lookup_insert_Some in Hz as [[Hz _] | [_ Hz]].
      * injection Hz as <-. lia.
      * assert (z <= m) by (apply Hmax; exists v; exact Hz). lia.
Qed.

Lemma next_handle_is_largest_plus_one_witness :
  next_handle (fd (proc sample_state)) = Int 3
  /\ next_handle (delete (Int 1) (fd (proc sample_state))) = Int 3.
Proof.
  destruct (next_handle_is_largest_plus_one (fd (proc sample_state)) 2)
    as (H1 & H2 & _).
  - apply sample_integer_handles.
  - vm_compute. eexists. reflexivity.
  - intros z [v Hz]. destruct (Z.le_gt_cases z 2) as [Hle|Hgt]; [exact Hle|].
    exfalso. revert Hz. unfold sample_state, new_Process, sample_init.
    cbn [proc fd init_fd default]. unfold Datatypes.id.
    rewrite !lookup_insert_ne by (intros [= <-]; lia). rewrite lookup_empty.
    discriminate.
  - split; [exact H1|]. apply (H2 1). lia.
Defined.

(** ** [open] and then [close] *)

Section OpenClose.
Context {FS : Type} `{!Platform} `{!FilesystemSession FS}.

Lemma with_fd_restored (p : Process) (h : number) (x : FileDescriptorData) :
  fd p !! h = None ->
  with_fd (with_fd p (<[h := x]> (fd p))) (delete h (<[h := x]> (fd p))) = p.
Proof.
  intros Hfree. unfold with_fd. simpl.
  rewrite delete_insert_eq, delete_id by exact Hfree. destruct p; reflexivity.
Qed.

Lemma open_close (s : State FS) (pathname' : string) (flags' : Z)
    (l l' : loc) (entry entry' : File) (v2 v3 : Vfs FS) :
  let p := proc s in
  let h := next_handle (fd p) in
  let p' := with_fd p (<[h := {| pathname := pathname'; flags := flags';
                                 offset := 0 |}]> (fd p)) in
  integer_handles (fd p) ->
  filesystem_get (vfs (world s)) p (resolve pathname' (PWD p)) None = Ok l ->
  objs (vfs (world s)) !! l = Some entry ->
  isDirectory entry = false ->
  (js_and flags' OpenFlag_READ <> 0 -> _isPermitted p entry 4 = true) ->
  (js_and flags' OpenFlag_WRITE <> 0 -> _isPermitted p entry 2 = true) ->
  filesystem_create (vfs (world s)) p'
    (join [PROCESS_DIRECTORY; toString (Int (id p)); "fd"])
    (descriptor_link h pathname') = (v2, Ok tt) ->
  filesystem_get v2 p' (resolve (descriptor_path p h) (PWD p)) None = Ok l' ->
  objs v2 !! l' = Some entry' ->
  isDirectory entry' = false ->
  filesystem_delete v2 p' (descriptor_path p h) (Some false) = (v3, Ok tt) ->
  (h' <- open pathname' flags' ;; close h') s = (with_vfs s v3, Ok tt).
Proof.
  intros p h p' Hint Hget Hobj Hdir Hread Hwrite Hlink Hget' Hobj' Hdir' Hdel.
  erewrite bind_Ok
    by (apply (open_existing s pathname' flags' l entry v2 (Ok tt)); assumption).
  cbv beta.
  erewrite (close_valid _ h l' entry' v3);
    [|exact Hget'|exact Hobj'|exact Hdir'|exact Hdel].
  cbn [proc world with_vfs vfs newPid device_writes].
  fold p. unfold h. rewrite with_fd_restored by (apply next_handle_fresh, Hint).
  reflexivity.
Qed.

End OpenClose.

(** X8. An [open] of an entry that exists, followed by the [close] of the
    handle it returned, gives the process back as it was before (its
    descriptor table too), when the handles of the table are integers and the
    session creates, finds and deletes the link of the descriptor. *)
Theorem open_then_close_restores_process
    (FS : Type) (P : Platform) (F : FilesystemSession FS)
    (s : State FS) (pathname' : string) (flags' : Z)
    (l l' : loc) (entry entry' : File) (v2 v3 : Vfs FS) :
  let p := proc s in
  let h := next_handle (fd p) in
  let p' := with_fd p (<[h := {| pathname := pathname'; flags := flags';
                                 offset := 0 |}]> (fd p)) in
  integer_handles (fd p) ->
  filesystem_get (vfs (world s)) p (resolve pathname' (PWD p)) None = Ok l ->
  objs (vfs (world s)) !! l = Some entry ->
  isDirectory entry = false ->
  (js_and flags' OpenFlag_READ <> 0 -> _isPermitted p entry 4 = true) ->
  (js_and flags' OpenFlag_WRITE <> 0 -> _isPermitted p entry 2 = true) ->
  filesystem_create (vfs (world s)) p'
    (join [PROCESS_DIRECTORY; toString (Int (id p)); "fd"])
    (descriptor_link h pathname') = (v2, Ok tt) ->
  filesystem_get v2 p' (resolve (descriptor_path p h) (PWD p)) None = Ok l' ->
  objs v2 !! l' = Some entry' ->
  isDirectory entry' = false ->
  filesystem_delete v2 p' (descriptor_path p h) (Some false) = (v3, Ok tt) ->
  exists s',
    (h' <- open pathname' flags' ;; close h') s = (s', Ok tt)
    /\ proc s' = proc s
    /\ vfs (world s') = v3.
Proof.
  intros p h p' Hint Hget Hobj Hdir Hread Hwrite Hlink Hget' Hobj' Hdir' Hdel.
  exists (with_vfs s v3). split; [|split; reflexivity].
  apply (open_close s pathname' flags' l l' entry entry' v2 v3); assumption.
Qed.

Lemma open_then_close_restores_process_witness :
  exists s',
    (h' <- open "/home/g" 1 ;; close h') sample_state = (s', Ok tt)
    /\ proc s' = proc sample_state
    /\ Sample.paths (backend (vfs (world s'))) !! ["proc"; "1"; "fd"; "3"] = None.
Proof.
  pose (p' := with_fd (proc sample_state)
                (<[Int 3 := {| pathname := "/home/g"; flags := 1; offset := 0 |}]>
                   (fd (proc sample_state)))).
  pose (v2 := (Sample.tree_create (vfs (world sample_state)) p' "/proc/1/fd"
                 (descriptor_link (Int 3) "/home/g")).1).
  pose (v3 := (Sample.tree_delete v2 p' "/proc/1/fd/3" (Some false)).1).
  destruct (open_then_close_restores_process Sample.Tree Sample.platform
              Sample.session sample_state "/home/g" 1 13%nat 18%nat
              (mkfile "g" 420 (RegularFile [x41; x42]))
              (descriptor_link (Int 3) "/home/g") v2 v3)
    as (s' & Hrun & Hproc & Hvfs).
  - apply sample_integer_handles.
  - vm_compute. reflexivity.
  - vm_compute. reflexivity.
  - reflexivity.
  - intros _. vm_compute. reflexivity.
  - intros Hw. exfalso. apply Hw. vm_compute. reflexivity.
  - vm_compute. reflexivity.
  - vm_compute. reflexivity.
  - vm_compute. reflexivity.
  - reflexivity.
  - vm_compute. reflexivity.
  - exists s'. split; [exact Hrun|]. split; [exact Hproc|].
    rewrite Hvfs. vm_compute. reflexivity.
Defined.

(** ** [spawn] and the list of children *)

Lemma filter_out_last (pid : Z) (l : list Z) :
  pid ∉ l -> filter (fun c => c ≠ pid) (l ++ [pid]) = l.
Proof.
  induction l as [|c l IH]; intros Hnot.
  - simpl. rewrite filter_cons_False; [reflexivity|]. intros Hne. apply Hne. reflexivity.
  - simpl. apply not_elem_of_cons in Hnot as [Hc Hl].
    rewrite filter_cons_True by (intros ->; apply Hc; reflexivity).
    rewrite (IH Hl). reflexivity.
Qed.

(** X9. [spawn] enters the new process in the list of children before it
    runs.  When the three [open] and the body return, it takes the process
    out again: the list is as before.  When one of them throws, [spawn]
    throws and the process stays in the list.  (The pid of the new process is
    one that is not in the list, and the body leaves it alone.) *)
Theorem spawn_children_bookkeeping
    (FS : Type) (P : Platform) (F : FilesystemSession FS)
    (callback : M FS unit) (s s1 : State FS) (r : Result unit) :
  (spawn_stdio ;; callback) (child_state s) = (s1, r) ->
  id (proc s1) = newPid (world s) ->
  newPid (world s) ∉ children (proc s) ->
  exists s',
    spawn callback s = (s', r)
    /\ world s' = world s1
    /\ children (proc s')
       = match r with
         | Ok _ => children (proc s)
         | Throw _ => children (proc s) ++ [newPid (world s)]
         end.
Proof.
  intros Hrun Hid Hfresh. rewrite spawn_eq, Hrun.
  destruct r as [[]|e]; eexists; (split; [reflexivity|]); split; try reflexivity.
  simpl. rewrite Hid. apply filter_out_last, Hfresh.
Qed.

Lemma spawn_children_bookkeeping_witness :
  exists s',
    spawn (ret tt) sample_state_user = (s', Throw EEXIST)
    /\ children (proc s') = [2].
Proof.
  destruct (spawn_children_bookkeeping Sample.Tree Sample.platform Sample.session
              (ret tt) sample_state_user
              (fst ((spawn_stdio ;; ret tt) (child_state sample_state_user)))
              (Throw EEXIST))
    as (s' & Hspawn & _ & Hch).
  - vm_compute. reflexivity.
  - vm_compute. reflexivity.
  - vm_compute. intros H. apply elem_of_nil in H. exact H.
  - exists s'. split; [exact Hspawn|]. rewrite Hch. reflexivity.
Defined.

(** ** Directories: [rmdir] and [mkdir] *)

Section DirectoryFacts.
Context {FS : Type} `{!Platform} `{!FilesystemSession FS}.



Lemma mkdir_created (fuel : nat) (s : State FS) (pathname' : string) (mode' : Z)
    (recursive : bool) (v : Vfs FS) :
  filesystem_create (vfs (world s)) (proc s) (dirname pathname')
    (new_directory (basename pathname') mode') = (v, Ok tt) ->
  mkdir (S fuel) pathname' mode' recursive s = Some (with_vfs s v, Ok tt).
Proof.
  intros Hc. simpl. rewrite (fs_create_eq s _ _ _ _ Hc). reflexivity.
Qed.

Lemma mkdir_failed (fuel : nat) (s : State FS) (pathname' : string) (mode' : Z)
    (recursive : bool) (v : Vfs FS) (e : Exception) :
  filesystem_create (vfs (world s)) (proc s) (dirname pathname')
    (new_directory (basename pathname') mode') = (v, Throw e) ->
  recursive = false \/ e <> ENOENT ->
  mkdir (S fuel) pathname' mode' recursive s = Some (with_vfs s v, Throw e).
Proof.
  intros Hc Hno. simpl. rewrite (fs_create_eq s _ _ _ _ Hc).
  destruct Hno as [-> | He]; [reflexivity|].
  destruct e; cbn [is_ENOENT]; rewrite ?andb_false_r; try reflexivity.
  exfalso. apply He. reflexivity.
Qed.

Lemma mkdir_retry (fuel : nat) (s : State FS) (pathname' : string) (mode' : Z)
    (v : Vfs FS) :
  filesystem_create (vfs (world s)) (proc s) (dirname pathname')
    (new_directory (basename pathname') mode') = (v, Throw ENOENT) ->
  mkdir (S fuel) pathname' mode' true s
  = match mkdir fuel (dirname pathname') mode' true (with_vfs s v) with
    | None => None
    | Some (s2, Throw e') => Some (s2, Throw e')
    | Some (s2, Ok _) => mkdir fuel pathname' mode' true s2
    end.
Proof.
  intros Hc. simpl. rewrite (fs_create_eq s _ _ _ _ Hc). reflexivity.
Qed.

End DirectoryFacts.



(** X11. [mkdir] with the recursive flag, on a path whose parent is missing
    while the parent of the parent is there: the first [create] fails with
    NotFound, then the parent is created, with the same mode, and then the
    directory itself.  Without the flag the call ends with the first
    failure. *)
Theorem mkdir_recursive_creates_parent_first
    (FS : Type) (P : Platform) (F : FilesystemSession FS)
    (fuel : nat) (s : State FS) (pathname' : string) (mode' : Z)
    (v0 v1 v2 : Vfs FS) :
  let parent := dirname pathname' in
  filesystem_create (vfs (world s)) (proc s) parent
    (new_directory (basename pathname') mode') = (v0, Throw ENOENT) ->
  filesystem_create v0 (proc s) (dirname parent)
    (new_directory (basename parent) mode') = (v1, Ok tt) ->
  filesystem_create v1 (proc s) parent
    (new_directory (basename pathname') mode') = (v2, Ok tt) ->
  mkdir (S (S fuel)) pathname' mode' true s = Some (with_vfs s v2, Ok tt)
  /\ mkdir (S fuel) pathname' mode' false s = Some (with_vfs s v0, Throw ENOENT).
Proof.
  intros parent H0 H1 H2. split.
  - rewrite (mkdir_retry (S fuel) s pathname' mode' v0 H0).
    rewrite (mkdir_created fuel (with_vfs s v0) (dirname pathname') mode' true v1 H1).
    apply (mkdir_created fuel (with_vfs (with_vfs s v0) v1) pathname' mode' true v2).
    exact H2.
  - apply mkdir_failed; [exact H0|left; reflexivity].
Qed.

Lemma mkdir_recursive_creates_parent_first_witness :
  exists s',
    mkdir 2 "/home/a/b" 448 true sample_state = Some (s', Ok tt)
    /\ snd (lstat "/home/a" s')
       = Ok {| st_mode := 16832; st_owner := 0; st_group := 0; st_size := 0 |}
    /\ snd (lstat "/home/a/b" s')
       = Ok {| st_mode := 16832; st_owner := 0; st_group := 0; st_size := 0 |}
    /\ snd (lstat "/home/a" sample_state) = Throw ENOENT.
Proof.
  pose (v1 := (Sample.tree_create sample_vfs (proc sample_state) "/home"
                 (new_directory "a" 448)).1).
  pose (v2 := (Sample.tree_create v1 (proc sample_state) "/home/a"
                 (new_directory "b" 448)).1).
  destruct (mkdir_recursive_creates_parent_first Sample.Tree Sample.platform
              Sample.session 0 sample_state "/home/a/b" 448 sample_vfs v1 v2)
    as [Hrun _].
  - vm_compute. reflexivity.
  - vm_compute. reflexivity.
  - vm_compute. reflexivity.
  - eexists. split; [exact Hrun|].
    split; [|split]; vm_compute; reflexivity.
Defined.

(** ** Links: [symlink] and [readlink] *)

Section LinkFacts.
Context {FS : Type} `{!Platform} `{!FilesystemSession FS}.

Lemma readlink_found (s : State FS) (pathname' : string) (l : loc) (entry : File) :
  filesystem_get (vfs (world s)) (proc s)
    (resolve pathname' (PWD (proc s))) None = Ok l ->
  objs (vfs (world s)) !! l = Some entry ->
  readlink pathname' s
  = (s, match kind entry with
        | SymbolicLink target => Ok target
        | _ => Throw EINVAL
        end).
Proof.
  intros Hget Hobj. unfold readlink. mstep (this_eq s).
  mstep (fs_get_Ok s _ _ _ _ Hget Hobj). cbn [snd].
  destruct (kind entry); reflexivity.
Qed.

Lemma symlink_eq (s : State FS) (target linkpath : string) (v : Vfs FS)
    (r : Result unit) :
  filesystem_create (vfs (world s)) (proc s) (default "/" (PWD (proc s)))
    (new_symlink target linkpath) = (v, r) ->
  symlink target linkpath s = (with_vfs s v, r).
Proof.
  intros Hc. unfold symlink. mstep (this_eq s). apply fs_create_eq, Hc.
Qed.

End LinkFacts.

(** X12. [symlink] has the session create, in the working directory of the
    process (the root when there is none), a link entry named by the link
    path as it is given; a [readlink] of that path then returns the target,
    when the session finds the new entry under it.  [readlink] of an entry
    that is not a link fails with InvalidArgument, and changes nothing. *)
Theorem symlink_then_readlink
    (FS : Type) (P : Platform) (F : FilesystemSession FS)
    (s : State FS) (target linkpath : string) (v : Vfs FS) (l : loc) :
  filesystem_create (vfs (world s)) (proc s) (default "/" (PWD (proc s)))
    (new_symlink target linkpath) = (v, Ok tt) ->
  filesystem_get v (proc s) (resolve linkpath (PWD (proc s))) None = Ok l ->
  objs v !! l = Some (new_symlink target linkpath) ->
  (symlink target linkpath ;; readlink linkpath) s = (with_vfs s v, Ok target)
  /\ (forall (pathname' : string) (l' : loc) (entry : File),
        filesystem_get (vfs (world s)) (proc s)
          (resolve pathname' (PWD (proc s))) None = Ok l' ->
        objs (vfs (world s)) !! l' = Some entry ->
        isSymbolicLink entry = false ->
        readlink pathname' s = (s, Throw EINVAL)).
Proof.
  intros Hc Hget Hobj. split.
  - mstep (symlink_eq s target linkpath v (Ok tt) Hc).
    rewrite (readlink_found (with_vfs s v) linkpath l (new_symlink target linkpath));
      [reflexivity|exact Hget|exact Hobj].
  - intros pathname' l' entry Hget' Hobj' Hlink.
    rewrite (readlink_found s pathname' l' entry Hget' Hobj').
    destruct (kind entry) eqn:Hk; try reflexivity.
    unfold isSymbolicLink, getFileType in Hlink. rewrite Hk in Hlink. discriminate.
Qed.

Lemma symlink_then_readlink_witness :
  snd ((symlink "/home/g" "lg" ;; readlink "lg") sample_state) = Ok "/home/g"
  /\ readlink "/home/g" sample_state = (sample_state, Throw EINVAL).
Proof.
  pose (v := (Sample.tree_create sample_vfs (proc sample_state) "/home"
                (new_symlink "/home/g" "lg")).1).
  destruct (symlink_then_readlink Sample.Tree Sample.platform Sample.session
              sample_state "/home/g" "lg" v 18%nat) as [Hrt Hinv].
  - vm_compute. reflexivity.
  - vm_compute. reflexivity.
  - vm_compute. reflexivity.
  - split.
    + rewrite Hrt. reflexivity.
    + apply (Hinv "/home/g" 13%nat (mkfile "g" 420 (RegularFile [x41; x42])));
        vm_compute; reflexivity.
Defined.

(** X13. The link that [open] publishes for a descriptor leads back to the
    path that was opened: after an [open] of an entry that exists, a
    [readlink] of the entry of the new handle in the descriptor directory
    returns the path given to [open], when the session finds the link that
    it created. *)
Theorem readlink_of_descriptor_entry
    (FS : Type) (P : Platform) (F : FilesystemSession FS)
    (s : State FS) (pathname' : string) (flags' : Z)
    (l l' : loc) (entry : File) (v2 : Vfs FS) :
  let p := proc s in
  let h := next_handle (fd p) in
  let p' := with_fd p (<[h := {| pathname := pathname'; flags := flags';
                                 offset := 0 |}]> (fd p)) in
  filesystem_get (vfs (world s)) p (resolve pathname' (PWD p)) None = Ok l ->
  objs (vfs (world s)) !! l = Some entry ->
  isDirectory entry = false ->
  (js_and flags' OpenFlag_READ <> 0 -> _isPermitted p entry 4 = true) ->
  (js_and flags' OpenFlag_WRITE <> 0 -> _isPermitted p entry 2 = true) ->
  filesystem_create (vfs (world s)) p'
    (join [PROCESS_DIRECTORY; toString (Int (id p)); "fd"])
    (descriptor_link h pathname') = (v2, Ok tt) ->
  filesystem_get v2 p' (resolve (descriptor_path p h) (PWD p)) None = Ok l' ->
  objs v2 !! l' = Some (descriptor_link h pathname') ->
  snd ((h' <- open pathname' flags' ;;
        p1 <- this ;;
        readlink (descriptor_path p1 h')) s) = Ok pathname'.
Proof.
  intros p h p' Hget Hobj Hdir Hread Hwrite Hlink Hget' Hobj'.
  erewrite bind_Ok
    by (apply (open_existing s pathname' flags' l entry v2 (Ok tt)); assumption).
  cbv beta. erewrite bind_Ok by apply this_eq. cbv beta.
  erewrite (readlink_found _ _ l' (descriptor_link h pathname'));
    [reflexivity|exact Hget'|exact Hobj'].
Qed.

Lemma readlink_of_descriptor_entry_witness :
  snd ((h' <- open "g" 1 ;;
        p1 <- this ;;
        readlink (descriptor_path p1 h')) sample_state) = Ok "g".
Proof.
  pose (p' := with_fd (proc sample_state)
                (<[Int 3 := {| pathname := "g"; flags := 1; offset := 0 |}]>
                   (fd (proc sample_state)))).
  pose (v2 := (Sample.tree_create (vfs (world sample_state)) p' "/proc/1/fd"
                 (descriptor_link (Int 3) "g")).1).
  apply (readlink_of_descriptor_entry Sample.Tree Sample.platform
           Sample.session sample_state "g" 1 13%nat 18%nat
           (mkfile "g" 420 (RegularFile [x41; x42])) v2).
  - vm_compute. reflexivity.
  - vm_compute. reflexivity.
  - reflexivity.
  - intros _. vm_compute. reflexivity.
  - intros Hw. exfalso. apply Hw. vm_compute. reflexivity.
  - vm_compute. reflexivity.
  - vm_compute. reflexivity.
  - vm_compute. reflexivity.
Defined.

(** ** Ownership and mode: [chown] and [chmod] *)

Section OwnershipFacts.
Context {FS : Type} `{!Platform} `{!FilesystemSession FS}.

Lemma chown_found (s : State FS) (pathname' : string) (owner' group' : Z)
    (l : loc) (entry : File) :
  filesystem_get (vfs (world s)) (proc s)
    (resolve pathname' (PWD (proc s))) (Some true) = Ok l ->
  objs (vfs (world s)) !! l = Some entry ->
  chown pathname' owner' group' s
  = (with_vfs s {| objs := <[l := with_owner entry owner' group']>
                             (objs (vfs (world s)));
                   backend := backend (vfs (world s)) |}, Ok tt).
Proof.
  intros Hget Hobj. unfold chown. mstep (this_eq s).
  mstep (fs_get_Ok s _ _ _ _ Hget Hobj). reflexivity.
Qed.

Lemma chmod_found (s : State FS) (pathname' : string) (mode' : Z)
    (l : loc) (entry : File) :
  filesystem_get (vfs (world s)) (proc s)
    (resolve pathname' (PWD (proc s))) (Some true) = Ok l ->
  objs (vfs (world s)) !! l = Some entry ->
  chmod pathname' mode' s
  = (with_vfs s {| objs := <[l := with_mode entry mode']>
                             (objs (vfs (world s)));
                   backend := backend (vfs (world s)) |}, Ok tt).
Proof.
  intros Hget Hobj. unfold chmod. mstep (this_eq s).
  mstep (fs_get_Ok s _ _ _ _ Hget Hobj). reflexivity.
Qed.

Lemma stat_with_owner (entry : File) (owner' group' : Z) :
  _stat (with_owner entry owner' group')
  = {| st_mode := st_mode (_stat entry); st_owner := owner'; st_group := group';
       st_size := 0 |}.
Proof. reflexivity. Qed.

Lemma stat_with_mode (entry : File) (mode' : Z) :
  _stat (with_mode entry mode')
  = {| st_mode := js_or mode' (type_bits entry); st_owner := owner entry;
       st_group := group entry; st_size := 0 |}.
Proof. reflexivity. Qed.


End OwnershipFacts.

(** X14. [chown] and [chmod] change the entry that the path leads to with
    links followed, and nothing else: the other entries, the tree and the
    process stay.  A [stat] of the path afterwards (the session still leading
    to the entry) reports the new owner and group with the mode as it was,
    or the new mode, put in as it is given, with the bits of the type. *)
Theorem chown_chmod_then_stat
    (FS : Type) (P : Platform) (F : FilesystemSession FS)
    (s : State FS) (pathname' : string) (l : loc) (entry : File) :
  filesystem_get (vfs (world s)) (proc s)
    (resolve pathname' (PWD (proc s))) (Some true) = Ok l ->
  objs (vfs (world s)) !! l = Some entry ->
  (forall owner' group',
      exists s1,
        chown pathname' owner' group' s = (s1, Ok tt)
        /\ proc s1 = proc s
        /\ backend (vfs (world s1)) = backend (vfs (world s))
        /\ objs (vfs (world s1))
           = <[l := with_owner entry owner' group']> (objs (vfs (world s)))
        /\ (filesystem_get (vfs (world s1)) (proc s1)
              (resolve pathname' (PWD (proc s1))) (Some true) = Ok l ->
            stat pathname' s1
            = (s1, Ok {| st_mode := st_mode (_stat entry); st_owner := owner';
                         st_group := group'; st_size := 0 |})))
  /\ (forall mode',
        exists s1,
          chmod pathname' mode' s = (s1, Ok tt)
          /\ proc s1 = proc s
          /\ backend (vfs (world s1)) = backend (vfs (world s))
          /\ objs (vfs (world s1))
             = <[l := with_mode entry mode']> (objs (vfs (world s)))
          /\ (filesystem_get (vfs (world s1)) (proc s1)
                (resolve pathname' (PWD (proc s1))) (Some true) = Ok l ->
              stat pathname' s1
              = (s1, Ok {| st_mode := js_or mode' (type_bits entry);
                           st_owner := owner entry; st_group := group entry;
                           st_size := 0 |}))).
Proof.
  intros Hget Hobj. split.
  - intros owner' group'. eexists. split; [apply (chown_found s _ _ _ l entry Hget Hobj)|].
    repeat split. intros Hget1.
    rewrite (stat_follows _ pathname' l (with_owner entry owner' group') Hget1)
      by (simpl; apply lookup_insert_eq).
    rewrite stat_with_owner. reflexivity.
  - intros mode'. eexists. split; [apply (chmod_found s _ _ l entry Hget Hobj)|].
    repeat split. intros Hget1.
    rewrite (stat_follows _ pathname' l (with_mode entry mode') Hget1)
      by (simpl; apply lookup_insert_eq).
    rewrite stat_with_mode. reflexivity.
Qed.

Lemma chown_chmod_then_stat_witness :
  snd ((chown "l" 5 7 ;; stat "/home/f") sample_state)
  = Ok {| st_mode := 33188; st_owner := 5; st_group := 7; st_size := 0 |}
  /\ snd ((chmod "l" 384 ;; stat "/home/f") sample_state)
     = Ok {| st_mode := 33152; st_owner := 0; st_group := 0; st_size := 0 |}
  /\ snd ((chmod "l" 384 ;; lstat "l") sample_state)
     = Ok {| st_mode := 41408; st_owner := 0; st_group := 0; st_size := 0 |}.
Proof.
  destruct (chown_chmod_then_stat Sample.Tree Sample.platform Sample.session
              sample_state "l" 12%nat (mkfile "f" 420 (RegularFile [])))
    as [Hown Hmod].
  - vm_compute. reflexivity.
  - vm_compute. reflexivity.
  - destruct (Hown 5 7) as (s1 & Hrun1 & _).
    destruct (Hmod 384) as (s2 & Hrun2 & _).
    split; [|split]; vm_compute; reflexivity.
Defined.



(** ** [exec] *)

Section ExecFacts.
Context {FS : Type} `{!Platform} `{!FilesystemSession FS}.

Lemma exec_found (onStart : loc -> M FS unit) (s : State FS) (pathname' : string)
    (args' : list string) (env' : gmap string (option string))
    (l : loc) (entry : File) :
  filesystem_get (vfs (world s)) (proc s)
    (resolve pathname' (PWD (proc s))) (Some true) = Ok l ->
  objs (vfs (world s)) !! l = Some entry ->
  exec onStart pathname' args' env' s
  = (if isExecutableFile entry then onStart l
     else if isRegularFile entry then ret tt
     else throw ELIBBAD)
      {| proc := with_image (proc s) pathname' args'
                   (assign_defined (env (proc s)) env');
         world := world s |}.
Proof.
  intros Hget Hobj. unfold exec. mstep (this_eq s).
  mstep (fs_get_Ok s _ _ _ _ Hget Hobj).
  erewrite bind_Ok by reflexivity. reflexivity.
Qed.

Lemma assign_defined_lookup (env0 : gmap string string)
    (env' : gmap string (option string)) (k : string) :
  assign_defined env0 env' !! k
  = match env' !! k with
    | Some (Some v) => Some v
    | _ => env0 !! k
    end.
Proof.
  unfold assign_defined. rewrite lookup_union, lookup_omap.
  destruct (env' !! k) as [[v|]|]; simpl.
  - destruct (env0 !! k); reflexivity.
  - destruct (env0 !! k); reflexivity.
  - destruct (env0 !! k); reflexivity.
Qed.

End ExecFacts.

(** X16. [exec] replaces the name, the arguments and the environment of
    the process as soon as the path is found, before it looks at the type of
    the entry and without any permission check: a variable that is given
    with a value is set, one that is given as undefined or not given keeps
    its old value.  On an executable the program then runs on the changed
    process; on a regular file [exec] returns at once; on any other entry it
    fails with BadLibrary, and the process keeps the changes.  When the path
    is not found, nothing is changed. *)
Theorem exec_replaces_image_first
    (FS : Type) (P : Platform) (F : FilesystemSession FS)
    (onStart : loc -> M FS unit) (s : State FS) (pathname' : string)
    (args' : list string) (env' : gmap string (option string)) :
  let s1 := {| proc := with_image (proc s) pathname' args'
                         (assign_defined (env (proc s)) env');
               world := world s |} in
  (forall e,
      filesystem_get (vfs (world s)) (proc s)
        (resolve pathname' (PWD (proc s))) (Some true) = Throw e ->
      exec onStart pathname' args' env' s = (s, Throw e))
  /\ (forall l entry,
        filesystem_get (vfs (world s)) (proc s)
          (resolve pathname' (PWD (proc s))) (Some true) = Ok l ->
        objs (vfs (world s)) !! l = Some entry ->
        (isExecutableFile entry = true ->
         exec onStart pathname' args' env' s = onStart l s1)
        /\ (isRegularFile entry = true ->
            exec onStart pathname' args' env' s = (s1, Ok tt))
        /\ (isExecutableFile entry = false -> isRegularFile entry = false ->
            exec onStart pathname' args' env' s = (s1, Throw ELIBBAD)))
  /\ pname (proc s1) = pathname' /\ args (proc s1) = args'
  /\ (forall k,
        env (proc s1) !! k
        = match env' !! k with
          | Some (Some v) => Some v
          | _ => env (proc s) !! k
          end)
  /\ fd (proc s1) = fd (proc s) /\ uid (proc s1) = uid (proc s)
  /\ gid (proc s1) = gid (proc s) /\ id (proc s1) = id (proc s).
Proof.
  intros s1. split; [|split].
  - intros e Hget. unfold exec. mstep (this_eq s).
    mstep (fs_get_Throw s _ _ _ Hget). reflexivity.
  - intros l entry Hget Hobj.
    rewrite (exec_found onStart s pathname' args' env' l entry Hget Hobj). fold s1.
    split; [intros ->; reflexivity|]. split.
    + intros Hreg. destruct (isExecutableFile entry) eqn:Hexe; [|rewrite Hreg; reflexivity].
      unfold isExecutableFile, isRegularFile in *.
      apply String.eqb_eq in Hexe, Hreg. rewrite Hexe in Hreg. discriminate.
    + intros -> ->. reflexivity.
  - split; [reflexivity|]. split; [reflexivity|]. split; [|repeat split].
    intros k. apply assign_defined_lookup.
Qed.

Lemma exec_replaces_image_first_witness :
  exists s',
    exec (fun _ => ret tt) "/dev/tty1" ["-v"]
      {[ "PWD" := Some "/"; "HOME" := None; "TERM" := Some "vt100" ]} sample_state
    = (s', Throw ELIBBAD)
    /\ pname (proc s') = "/dev/tty1"
    /\ env (proc s') !! "PWD" = Some "/"
    /\ env (proc s') !! "HOME" = None
    /\ env (proc s') !! "TERM" = Some "vt100".
Proof.
  destruct (exec_replaces_image_first Sample.Tree Sample.platform Sample.session
              (fun _ => ret tt) sample_state "/dev/tty1" ["-v"]
              {[ "PWD" := Some "/"; "HOME" := None; "TERM" := Some "vt100" ]})
    as (_ & Hfound & Hname & _ & Henv & _).
  destruct (Hfound 10%nat (mkfile "tty1" 438 DeviceFile)
              ltac:(vm_compute; reflexivity) ltac:(vm_compute; reflexivity))
    as (_ & _ & Hbad).
  eexists. split; [apply Hbad; reflexivity|].
  split; [exact Hname|].
  rewrite !Henv. split; [|split]; vm_compute; reflexivity.
Defined.

(** ** [seek] takes any offset *)

Lemma slice_from_end (d : list byte) (k : Z) :
  0 < k <= byteLength d ->
  slice d (- k) PosInfinity = drop (Z.to_nat (byteLength d - k)) d.
Proof.
  intros Hk. unfold slice, clamp_end, clamp_index, byteLength in *.
  destruct (Z.ltb_spec (- k) 0); [|lia].
  rewrite Z.max_l by lia.
  replace (Z.of_nat (length d) + - k) with (Z.of_nat (length d) - k) by lia.
  apply take_ge. rewrite length_drop. lia.
Qed.

Lemma slice_from_end_short (d : list byte) (k c : Z) :
  0 < k <= c -> c <= byteLength d ->
  slice d (- k) (Int (- k + c)) = [].
Proof.
  intros Hk Hc. unfold slice, clamp_end, clamp_index, byteLength in *.
  destruct (Z.ltb_spec (- k) 0); [|lia].
  destruct (Z.ltb_spec (- k + c) 0); [lia|].
  rewrite Z.max_l, Z.min_l by lia.
  replace (Z.to_nat (- k + c - (Z.of_nat (length d) + - k))) with 0%nat by lia.
  reflexivity.
Qed.

(** X29. [seek] stores the offset it is given without a look at the file:
    a negative offset is taken as it is, with the path and the flags of the
    descriptor kept and the other descriptors untouched.  A [read] of a
    regular file at the offset [-k] then counts from the end of the data: with
    no byte count it returns the last [k] bytes and leaves the offset at 0;
    with a byte count between [k] and the size of the file it returns no byte
    at all. *)
Theorem seek_takes_any_offset
    (FS : Type) (P : Platform) (F : FilesystemSession FS)
    (s : State FS) (h : number) (fdd : FileDescriptorData) :
  fd (proc s) !! h = Some fdd ->
  (forall offset',
      exists s1,
        seek h offset' s = (s1, Ok tt)
        /\ world s1 = world s
        /\ fd (proc s1) !! h
           = Some {| pathname := pathname fdd; flags := flags fdd;
                     offset := offset' |}
        /\ forall h', h' <> h -> fd (proc s1) !! h' = fd (proc s) !! h')
  /\ (forall (k : Z) (l : loc) (entry : File) (d : list byte),
        js_and (flags fdd) OpenFlag_READ <> 0 ->
        0 < k <= byteLength d ->
        let s1 := fst (seek h (- k) s) in
        filesystem_get (vfs (world s1)) (proc s1)
          (resolve (pathname fdd) (PWD (proc s1))) (Some true) = Ok l ->
        objs (vfs (world s1)) !! l = Some entry ->
        kind entry = RegularFile d ->
        (exists s2,
            (seek h (- k) ;; read h PosInfinity) s
            = (s2, Ok (Data (drop (Z.to_nat (byteLength d - k)) d)))
            /\ fd (proc s2) !! h
               = Some {| pathname := pathname fdd; flags := flags fdd;
                         offset := 0 |})
        /\ (forall c, k <= c <= byteLength d ->
              (seek h (- k) ;; read h (Int c)) s = (s1, Ok (Data [])))).
Proof.
  intros Hfd. split.
  - intros offset'. eexists. split; [apply (seek_Some s h fdd), Hfd|].
    split; [reflexivity|]. split; [apply lookup_insert_eq|].
    intros h' Hne. simpl. apply lookup_insert_ne. congruence.
  - intros k l entry d Hr Hk s1 Hget Hobj Hkind.
    pose proof (seek_Some s h fdd (- k) Hfd) as Hseek.
    assert (s1 = fst (seek h (- k) s)) as Hs1 by reflexivity.
    rewrite Hseek in Hs1. cbn [fst] in Hs1.
    set (fdd1 := {| pathname := pathname fdd; flags := flags fdd; offset := - k |}).
    assert (fd (proc s1) !! h = Some fdd1) as Hfd1
      by (rewrite Hs1; simpl; apply lookup_insert_eq).
    split.
    + eexists. split.
      * mstep Hseek. rewrite <- Hs1.
        rewrite (read_regular s1 h fdd1 l entry d PosInfinity Hfd1 Hr Hget Hobj Hkind).
        simpl js_add. cbn [offset fdd1]. rewrite (slice_from_end d k Hk). reflexivity.
      * simpl. rewrite lookup_insert_eq. f_equal. f_equal.
        unfold byteLength in *. rewrite length_drop. lia.
    + intros c Hc. mstep Hseek. rewrite <- Hs1.
      rewrite (read_regular s1 h fdd1 l entry d (Int c) Hfd1 Hr Hget Hobj Hkind).
      simpl js_add. cbn [offset fdd1 pathname flags].
      rewrite (slice_from_end_short d k c) by lia.
      unfold byteLength. simpl length. rewrite Z.add_0_r.
      fold fdd1. rewrite with_fd_same by exact Hfd1. destruct s1; reflexivity.
Qed.

Lemma seek_takes_any_offset_witness :
  snd ((seek (Int 3) (- 1) ;; read (Int 3) PosInfinity) sample_state_g)
  = Ok (Data [x42])
  /\ snd ((seek (Int 3) (- 1) ;; read (Int 3) (Int 1)) sample_state_g)
     = Ok (Data []).
Proof.
  destruct (seek_takes_any_offset Sample.Tree Sample.platform Sample.session
              sample_state_g (Int 3)
              {| pathname := "/home/g"; flags := 3; offset := 1 |})
    as [_ H].
  - vm_compute. reflexivity.
  - destruct (H 1 13%nat (mkfile "g" 420 (RegularFile [x41; x42])) [x41; x42])
      as [(s2 & Hrun & _) Hshort].
    + vm_compute. discriminate.
    + unfold byteLength. simpl. lia.
    + vm_compute. reflexivity.
    + vm_compute. reflexivity.
    + reflexivity.
    + split.
      * exact (f_equal snd Hrun).
      * refine (f_equal snd (Hshort 1 _)). unfold byteLength. simpl. lia.
Defined.

(** ** Ownership and mode through a descriptor *)

Section DescriptorOwnership.
Context {FS : Type} `{!Platform} `{!FilesystemSession FS}.

Lemma fchown_is_lchown (s : State FS) (h : number) (fdd : FileDescriptorData)
    (owner' group' : Z) :
  fd (proc s) !! h = Some fdd ->
  fchown h owner' group' s = lchown (pathname fdd) owner' group' s.
Proof.
  intros Hfd. unfold fchown, lchown.
  mstep (requireFileDescriptorData_Some s h fdd Hfd). reflexivity.
Qed.

Lemma lchown_found (s : State FS) (pathname' : string) (owner' group' : Z)
    (l : loc) (entry : File) :
  filesystem_get (vfs (world s)) (proc s)
    (resolve pathname' (PWD (proc s))) None = Ok l ->
  objs (vfs (world s)) !! l = Some entry ->
  lchown pathname' owner' group' s
  = (with_vfs s {| objs := <[l := with_owner entry owner' group']>
                             (objs (vfs (world s)));
                   backend := backend (vfs (world s)) |}, Ok tt).
Proof.
  intros Hget Hobj. unfold lchown. mstep (this_eq s).
  mstep (fs_get_Ok s _ _ _ _ Hget Hobj). reflexivity.
Qed.

Lemma fchmod_found (s : State FS) (h : number) (fdd : FileDescriptorData)
    (mode' : Z) (l : loc) (entry : File) :
  fd (proc s) !! h = Some fdd ->
  filesystem_get (vfs (world s)) (proc s)
    (resolve (pathname fdd) (PWD (proc s))) None = Ok l ->
  objs (vfs (world s)) !! l = Some entry ->
  fchmod h mode' s
  = (with_vfs s {| objs := <[l := with_mode entry mode']>
                             (objs (vfs (world s)));
                   backend := backend (vfs (world s)) |}, Ok tt).
Proof.
  intros Hfd Hget Hobj. unfold fchmod.
  mstep (requireFileDescriptorData_Some s h fdd Hfd). mstep (this_eq s).
  mstep (fs_get_Ok s _ _ _ _ Hget Hobj). reflexivity.
Qed.

End DescriptorOwnership.

(** X30. [fchown] and [fchmod] look the path of the descriptor up without
    the request to follow links, as [lchown] does on that path: they change
    the entry that this lookup finds and no other.  Through a descriptor whose
    path is a symbolic link they change the link; the entry that the link
    leads to, which [read] and [write] through the same descriptor use, keeps
    its owner, group and mode.  On a handle that is not in the table they
    fail with BadFileDescriptor and change nothing. *)
Theorem descriptor_ownership_stops_at_links
    (FS : Type) (P : Platform) (F : FilesystemSession FS)
    (s : State FS) (h : number) :
  (fd (proc s) !! h = None ->
   forall owner' group' mode',
     fchown h owner' group' s = (s, Throw EBADFD)
     /\ fchmod h mode' s = (s, Throw EBADFD))
  /\ (forall fdd (l : loc) (entry : File),
        fd (proc s) !! h = Some fdd ->
        filesystem_get (vfs (world s)) (proc s)
          (resolve (pathname fdd) (PWD (proc s))) None = Ok l ->
        objs (vfs (world s)) !! l = Some entry ->
        forall owner' group' mode',
          fchown h owner' group' s = lchown (pathname fdd) owner' group' s
          /\ (exists s1,
                 fchown h owner' group' s = (s1, Ok tt)
                 /\ proc s1 = proc s
                 /\ objs (vfs (world s1)) !! l = Some (with_owner entry owner' group')
                 /\ forall l', l' <> l ->
                      objs (vfs (world s1)) !! l' = objs (vfs (world s)) !! l')
          /\ (exists s1,
                 fchmod h mode' s = (s1, Ok tt)
                 /\ proc s1 = proc s
                 /\ objs (vfs (world s1)) !! l = Some (with_mode entry mode')
                 /\ forall l', l' <> l ->
                      objs (vfs (world s1)) !! l' = objs (vfs (world s)) !! l')).
Proof.
  split.
  - intros Hfd owner' group' mode'.
    pose proof (requireFileDescriptorData_None s h Hfd) as Hreq.
    split; [unfold fchown | unfold fchmod]; mstep Hreq; reflexivity.
  - intros fdd l entry Hfd Hget Hobj owner' group' mode'.
    split; [apply fchown_is_lchown, Hfd|]. split.
    + eexists. split.
      * rewrite (fchown_is_lchown s h fdd _ _ Hfd).
        apply (lchown_found s _ _ _ l entry Hget Hobj).
      * split; [reflexivity|]. split; [apply lookup_insert_eq|].
        intros l' Hne. simpl. apply lookup_insert_ne. congruence.
    + eexists. split.
      * apply (fchmod_found s h fdd _ l entry Hfd Hget Hobj).
      * split; [reflexivity|]. split; [apply lookup_insert_eq|].
        intros l' Hne. simpl. apply lookup_insert_ne. congruence.
Qed.

Lemma descriptor_ownership_stops_at_links_witness :
  snd ((fchmod (Int 3) 0 ;; stat "/home/f") sample_state_l)
  = Ok {| st_mode := 33188; st_owner := 0; st_group := 0; st_size := 0 |}
  /\ snd ((fchmod (Int 3) 0 ;; lstat "/home/l") sample_state_l)
     = Ok {| st_mode := 40960; st_owner := 0; st_group := 0; st_size := 0 |}
  /\ snd ((fchmod (Int 3) 0 ;; read (Int 3) PosInfinity) sample_state_l)
     = Ok (Data []).
Proof.
  destruct (proj2 (descriptor_ownership_stops_at_links Sample.Tree Sample.platform
                     Sample.session sample_state_l (Int 3))
              {| pathname := "/home/l"; flags := 1; offset := 0 |} 14%nat
              (mkfile "l" 448 (SymbolicLink "/home/f"))
              ltac:(vm_compute; reflexivity) ltac:(vm_compute; reflexivity)
              ltac:(vm_compute; reflexivity) 0 0 0)
    as (_ & _ & (s1 & Hrun & _)).
  split; [|split]; vm_compute; reflexivity.
Defined.

Import LineEdit.


(** ** The line discipline *)

(** *** One step of [read], by the class of the character *)

Lemma read_end (f : nat) (push : bool) (s : Local) :
  chars s = [] ->
  read (S f) push s
  = Some (if push
          then set_backward (backward (inst s) ++ of_string "undefined") (shifted s)
          else shifted s, Ok None).
Proof. intros H. unfold shifted. simpl. rewrite H. destruct push; reflexivity. Qed.

Lemma read_backspace_empty (f : nat) (push : bool) (s : Local) (c : Z) (cs : list Z) :
  chars s = c :: cs -> is_backspace c = true -> backward (inst s) = [] ->
  read (S f) push s = Some (bell (shifted s), Ok (Some c)).
Proof.
  intros H Hc Hb. unfold shifted, is_backspace in *. simpl. rewrite H. simpl.
  rewrite Hc, Hb. reflexivity.
Qed.

Lemma read_backspace (f : nat) (push : bool) (s : Local) (c : Z) (cs : list Z) :
  chars s = c :: cs -> is_backspace c = true -> backward (inst s) <> [] ->
  read (S f) push s
  = match match_last (backward (inst s)) with
    | None => Some (shifted s, Throw TypeError)
    | Some removingChar =>
        Some (write (csi (getLength removingChar) 68)
                (set_shiftCount (shiftCount s + getLength removingChar)
                   (set_backward (replace_last (backward (inst s))) (shifted s))),
              Ok (Some c))
    end.
Proof.
  intros H Hc Hb. unfold shifted, is_backspace in *. simpl. rewrite H. simpl.
  rewrite Hc. rewrite bool_decide_eq_false_2 by exact Hb. reflexivity.
Qed.

Lemma read_newline (f : nat) (push : bool) (s : Local) (cs : list Z) :
  chars s = 10 :: cs ->
  read (S f) push s = Some (write [10] (set_hasEnded true (shifted s)), Ok (Some 10)).
Proof. intros H. unfold shifted. simpl. rewrite H. reflexivity. Qed.

Lemma read_plain (f : nat) (push : bool) (s : Local) (c : Z) (cs : list Z) :
  chars s = c :: cs -> is_plain c = true ->
  read (S f) push s
  = Some (if push
          then write [c] (set_backward (backward (inst s) ++ [c]) (shifted s))
          else shifted s, Ok (Some c)).
Proof.
  intros H Hc. unfold shifted, is_plain, is_backspace in *. simpl. rewrite H. simpl.
  apply andb_true_iff in Hc as [Hc H10]. apply andb_true_iff in Hc as [Hbs H27].
  apply negb_true_iff in Hbs, H27, H10. rewrite Hbs, H27, H10.
  destruct push; reflexivity.
Qed.

Lemma read_escape (f : nat) (push : bool) (s : Local) (cs : list Z) :
  chars s = 27 :: cs ->
  read (S f) push s
  = match read f false (shifted s) with
    | None => None
    | Some (s1, Throw e) => Some (s1, Throw e)
    | Some (s1, Ok (Some 91)) =>
        match scan f [] s1 with
        | None => None
        | Some (s2, Throw e) => Some (s2, Throw e)
        | Some (s2, Ok (args', command)) =>
            match run_command command args' s2 with
            | (s3, Throw e) => Some (s3, Throw e)
            | (s3, Ok _) => Some (s3, Ok (Some 27))
            end
        end
    | Some (s1, Ok _) => Some (s1, Ok (Some 27))
    end.
Proof. intros H. unfold shifted. simpl. rewrite H. reflexivity. Qed.

Lemma scan_S (f : nat) (args' : jsstring) (s : Local) :
  scan (S f) args' s
  = match read f false s with
    | None => None
    | Some (s1, Throw e) => Some (s1, Throw e)
    | Some (s1, Ok None) => Some (s1, Ok (args', None))
    | Some (s1, Ok (Some c)) =>
        if is_param c then scan f (args' ++ [c]) s1
        else Some (s1, Ok (args', Some c))
    end.
Proof. reflexivity. Qed.

Lemma char_classes (c : Z) :
  is_backspace c = true \/ c = 27 \/ c = 10 \/ is_plain c = true.
Proof.
  unfold is_plain. destruct (is_backspace c); [left; reflexivity|].
  destruct (Z.eqb_spec c 27); [right; left; assumption|].
  destruct (Z.eqb_spec c 10); [right; right; left; assumption|].
  right; right; right. reflexivity.
Qed.

(** *** Fuel: more fuel does not change a result, and there is enough *)

Lemma read_scan_mono (f : nat) :
  (forall push s x, read f push s = Some x ->
     forall f', (f <= f')%nat -> read f' push s = Some x)
  /\ (forall args' s x, scan f args' s = Some x ->
     forall f', (f <= f')%nat -> scan f' args' s = Some x).
Proof.
  induction f as [|f [IHr IHs]]; (split; [intros push s x H f' Hf | intros args' s x H f' Hf]);
    try discriminate.
  - destruct f' as [|f']; [lia|]. assert (f <= f')%nat as Hf' by lia.
    destruct (chars s) as [|c cs] eqn:Hc.
    + rewrite (read_end f) in H by exact Hc. rewrite (read_end f') by exact Hc. exact H.
    + destruct (char_classes c) as [Hbs | [-> | [-> | Hpl]]].
      * destruct (decide (backward (inst s) = [])) as [Hb|Hb].
        -- rewrite (read_backspace_empty f _ _ _ _ Hc Hbs Hb) in H.
           rewrite (read_backspace_empty f' _ _ _ _ Hc Hbs Hb). exact H.
        -- rewrite (read_backspace f _ _ _ _ Hc Hbs Hb) in H.
           rewrite (read_backspace f' _ _ _ _ Hc Hbs Hb). exact H.
      * rewrite (read_escape f _ _ _ Hc) in H. rewrite (read_escape f' _ _ _ Hc).
        destruct (read f false (shifted s)) as [[s1 r1]|] eqn:E1; [|discriminate].
        rewrite (IHr _ _ _ E1 f' Hf').
        destruct r1 as [[c1|]|e]; try exact H.
        destruct (Z.eq_dec c1 91) as [->|Hne].
        -- destruct (scan f [] s1) as [[s2 r2]|] eqn:E2; [|discriminate].
           rewrite (IHs _ _ _ E2 f' Hf'). exact H.
        -- destruct c1 as [|c1|c1]; try exact H.
           do 7 (destruct c1 as [c1|c1|]; try exact H). contradiction.
      * rewrite (read_newline f _ _ _ Hc) in H. rewrite (read_newline f' _ _ _ Hc).
        exact H.
      * rewrite (read_plain f _ _ _ _ Hc Hpl) in H.
        rewrite (read_plain f' _ _ _ _ Hc Hpl). exact H.
  - destruct f' as [|f']; [lia|]. assert (f <= f')%nat as Hf' by lia.
    rewrite scan_S in H. rewrite scan_S.
    destruct (read f false s) as [[s1 r1]|] eqn:E1; [|discriminate].
    rewrite (IHr _ _ _ E1 f' Hf').
    destruct r1 as [[c1|]|e]; try exact H.
    destruct (is_param c1); [|exact H].
    apply (IHs _ _ _ H f' Hf').
Qed.

Lemma read_escape_cases (f : nat) (push : bool) (s : Local) (cs : list Z) :
  chars s = 27 :: cs ->
  read (S f) push s
  = match read f false (shifted s) with
    | None => None
    | Some (s1, Throw e) => Some (s1, Throw e)
    | Some (s1, Ok r1) =>
        if bool_decide (r1 = Some 91) then
          match scan f [] s1 with
          | None => None
          | Some (s2, Throw e) => Some (s2, Throw e)
          | Some (s2, Ok (args', command)) =>
              match run_command command args' s2 with
              | (s3, Throw e) => Some (s3, Throw e)
              | (s3, Ok _) => Some (s3, Ok (Some 27))
              end
          end
        else Some (s1, Ok (Some 27))
    end.
Proof.
  intros Hc. rewrite (read_escape f _ _ _ Hc).
  destruct (read f false (shifted s)) as [[s1 [[c1|]|e]]|]; try reflexivity.
  destruct (Z.eq_dec c1 91) as [->|Hne]; [reflexivity|].
  rewrite bool_decide_eq_false_2 by congruence.
  destruct c1 as [|c1|c1]; try reflexivity.
  do 7 (destruct c1 as [c1|c1|]; try reflexivity). contradiction.
Qed.

(** *** What a step leaves alone *)

(** [run_command] keeps the characters to read, the end flag, the pending
    blanks and the logical line; it only adds to the echo. *)
Lemma run_command_frame (command : option Z) (args' : jsstring) (s s' : Local)
    (r : Result unit) :
  run_command command args' s = (s', r) ->
  chars s' = chars s /\ hasEnded (inst s') = hasEnded (inst s)
  /\ shiftCount s' = shiftCount s
  /\ line (inst s') = line (inst s)
  /\ exists out, response s' = response s ++ out.
Proof.
  assert (forall s0 : Local, exists out, response (bell s0) = response s0 ++ out) as Hbell.
  { intros s0. unfold bell. destruct (bool_decide _).
    - exists []. rewrite app_nil_r. reflexivity.
    - exists [BEL]. reflexivity. }
  assert (forall s0 : Local, inst (bell s0) = inst s0 /\ chars (bell s0) = chars s0
                             /\ shiftCount (bell s0) = shiftCount s0) as Hbell'.
  { intros s0. unfold bell. destruct (bool_decide _); repeat split; reflexivity. }
  unfold run_command.
  destruct command as [c|]; [|intros [= <- <-]; repeat split; exists [];
                               rewrite app_nil_r; reflexivity].
  destruct (Z.eq_dec c 65) as [->|]; [intros [= <- <-]; repeat split; exists [];
                                       rewrite app_nil_r; reflexivity|].
  destruct (Z.eq_dec c 66) as [->|]; [intros [= <- <-]; repeat split; exists [];
                                       rewrite app_nil_r; reflexivity|].
  destruct (Z.eq_dec c 67) as [->|].
  { destruct (bool_decide (forward (inst s) = [])) eqn:E.
    - intros [= <- <-]. destruct (Hbell' s) as (-> & -> & ->). repeat split. apply Hbell.
    - unfold match_first, replace_first, match_first.
      destruct (forward (inst s)) as [|c f'] eqn:Ef; [discriminate|].
      destruct (dot c).
      + intros [= <- <-]. repeat split.
        * unfold line. simpl. rewrite Ef. rewrite <- List.app_assoc. reflexivity.
        * eexists. reflexivity.
      + intros [= <- <-]. repeat split. exists []. rewrite app_nil_r. reflexivity. }
  destruct (Z.eq_dec c 68) as [->|].
  { destruct (bool_decide (backward (inst s) = [])) eqn:E.
    - intros [= <- <-]. destruct (Hbell' s) as (-> & -> & ->). repeat split. apply Hbell.
    - unfold replace_last, match_last.
      destruct (last (backward (inst s))) as [c|] eqn:El.
      + destruct (dot c).
        * intros [= <- <-]. repeat split.
          -- unfold line. simpl.
             apply last_Some in El as [l' ->].
             rewrite removelast_last, <- List.app_assoc. reflexivity.
          -- eexists. reflexivity.
        * intros [= <- <-]. repeat split. exists []. rewrite app_nil_r. reflexivity.
      + intros [= <- <-]. repeat split. exists []. rewrite app_nil_r. reflexivity. }
  destruct (Z.eq_dec c 72) as [->|].
  { destruct (bool_decide (backward (inst s) = [])) eqn:E.
    - intros [= <- <-]. destruct (Hbell' s) as (-> & -> & ->). repeat split. apply Hbell.
    - intros [= <- <-]. repeat split. eexists. reflexivity. }
  destruct (Z.eq_dec c 70) as [->|].
  { destruct (bool_decide (forward (inst s) = [])) eqn:E.
    - intros [= <- <-]. destruct (Hbell' s) as (-> & -> & ->). repeat split. apply Hbell.
    - intros [= <- <-]. repeat split.
      + unfold line. simpl. rewrite app_nil_r. reflexivity.
      + eexists. reflexivity. }
  assert (run_command (Some c) args' s = (s, Ok tt)) as Hother.
  { unfold run_command. destruct c as [|c|c]; try reflexivity.
    do 7 (destruct c as [c|c|]; try reflexivity); contradiction. }
  unfold run_command in Hother. rewrite Hother.
  intros [= <- <-]. repeat split. exists []. rewrite app_nil_r. reflexivity.
Qed.

Lemma consumed_trans (pre1 pre2 : list Z) (s1 s2 s3 : Local) :
  consumed pre1 s1 s2 -> consumed pre2 s2 s3 -> consumed (pre1 ++ pre2) s1 s3.
Proof.
  intros [Hc1 He1] [Hc2 He2]. split.
  - rewrite Hc1, Hc2. apply List.app_assoc.
  - destruct He2 as [He2 | [He2 Hin]].
    + rewrite He2. destruct He1 as [He1 | [He1 Hin]]; [left; exact He1|].
      right. split; [exact He1|]. apply elem_of_app. left. exact Hin.
    + right. split; [exact He2|]. apply elem_of_app. right. exact Hin.
Qed.

Lemma consumed_frame (pre : list Z) (s s1 s2 : Local) :
  consumed pre s s1 -> chars s2 = chars s1 ->
  hasEnded (inst s2) = hasEnded (inst s1) -> consumed pre s s2.
Proof. intros [Hc He] Hc2 He2. split; [rewrite Hc2|rewrite He2]; assumption. Qed.

Lemma consumed_shift (s : Local) (c : Z) (cs : list Z) :
  chars s = c :: cs -> consumed [c] s (shifted s).
Proof. intros Hc. split; [simpl; rewrite Hc; reflexivity|left; reflexivity]. Qed.

Lemma bell_frame (s : Local) :
  inst (bell s) = inst s /\ chars (bell s) = chars s
  /\ shiftCount (bell s) = shiftCount s.
Proof. unfold bell. destruct (bool_decide _); repeat split; reflexivity. Qed.

Lemma read_scan_consumed (f : nat) :
  (forall push s s' r, read f push s = Some (s', r) ->
     exists pre, consumed pre s s'
       /\ match chars s with
          | [] => pre = [] /\ r = Ok None
          | c :: _ => (exists pre', pre = c :: pre')
                      /\ (forall v, r = Ok v -> v = Some c)
          end)
  /\ (forall args' s s' r, scan f args' s = Some (s', r) ->
        exists pre, consumed pre s s').
Proof.
  induction f as [|f [IHr IHs]];
    (split; [intros push s s' r H | intros args' s s' r H]); try discriminate.
  - destruct (chars s) as [|c cs] eqn:Hc.
    + rewrite (read_end f) in H by exact Hc. injection H as <- <-.
      exists []. split; [|split; reflexivity].
      split; [|left; destruct push; reflexivity].
      destruct push; simpl; rewrite Hc; reflexivity.
    + assert (forall s1 r1, chars s1 = cs -> hasEnded (inst s1) = hasEnded (inst s) ->
                (forall v, r1 = Ok v -> v = Some c) ->
                exists pre, consumed pre s s1
                  /\ (exists pre', pre = c :: pre')
                  /\ (forall v, r1 = Ok v -> v = Some c)) as Hone.
      { intros s1 r1 Hc1 He1 Hr1. exists [c]. split; [|split; [exists []; reflexivity|exact Hr1]].
        apply (consumed_frame _ _ (shifted s)); [apply (consumed_shift _ _ cs Hc)| |];
          simpl; [rewrite Hc1, Hc; reflexivity | exact He1]. }
      destruct (char_classes c) as [Hbs | [-> | [-> | Hpl]]].
      * destruct (decide (backward (inst s) = [])) as [Hb|Hb].
        -- rewrite (read_backspace_empty f _ _ _ _ Hc Hbs Hb) in H. injection H as <- <-.
           destruct (bell_frame (shifted s)) as (Hi & Hch & _).
           apply Hone; [rewrite Hch; simpl; rewrite Hc; reflexivity
                       | rewrite Hi; reflexivity | intros v [= <-]; reflexivity].
        -- rewrite (read_backspace f _ _ _ _ Hc Hbs Hb) in H.
           destruct (match_last (backward (inst s))); injection H as <- <-;
             (apply Hone; [simpl; rewrite Hc; reflexivity | reflexivity
                          | intros v Hv; try discriminate; injection Hv as <-; reflexivity]).
      * rewrite (read_escape_cases f _ _ _ Hc) in H.
        destruct (read f false (shifted s)) as [[s1 r1]|] eqn:E1; [|discriminate].
        destruct (IHr _ _ _ _ E1) as (pre1 & Hcons1 & _).
        pose proof (consumed_trans _ _ _ _ _ (consumed_shift _ _ _ Hc) Hcons1) as Hcons.
        assert (forall s2 r2 pre2, consumed pre2 s1 s2 ->
                  (forall v, r2 = Ok v -> v = Some 27) ->
                  exists pre, consumed pre s s2
                    /\ (exists pre', pre = 27 :: pre')
                    /\ (forall v, r2 = Ok v -> v = Some 27)) as Hfin.
        { intros s2 r2 pre2 Hcons2 Hr2. exists (([27] ++ pre1) ++ pre2).
          split; [apply (consumed_trans _ _ _ _ _ Hcons Hcons2)|].
          split; [eexists; reflexivity|exact Hr2]. }
        assert (consumed [] s1 s1) as Hrefl by (split; [reflexivity|left; reflexivity]).
        destruct r1 as [r1|e]; [|injection H as <- <-; apply (Hfin _ _ [] Hrefl); discriminate].
        destruct (bool_decide (r1 = Some 91));
          [|injection H as <- <-; apply (Hfin _ _ [] Hrefl); intros v [= <-]; reflexivity].
        destruct (scan f [] s1) as [[s2 r2]|] eqn:E2; [|discriminate].
        destruct (IHs _ _ _ _ E2) as (pre2 & Hcons2).
        destruct r2 as [[args2 command]|e];
          [|injection H as <- <-; apply (Hfin _ _ pre2 Hcons2); discriminate].
        destruct (run_command command args2 s2) as [s3 r3] eqn:E3.
        destruct (run_command_frame _ _ _ _ _ E3) as (Hch3 & He3 & _).
        pose proof (consumed_frame _ _ _ _ Hcons2 Hch3 He3) as Hcons3.
        destruct r3 as [u|e3]; injection H as <- <-; apply (Hfin _ _ pre2 Hcons3);
          [intros v [= <-]; reflexivity | discriminate].
      * rewrite (read_newline f _ _ _ Hc) in H. injection H as <- <-.
        exists [10]. split; [|split; [exists []; reflexivity|intros v [= <-]; reflexivity]].
        split; [simpl; rewrite Hc; reflexivity|].
        right. split; [reflexivity|]. apply list_elem_of_singleton. reflexivity.
      * rewrite (read_plain f _ _ _ _ Hc Hpl) in H. injection H as <- <-.
        apply Hone; [destruct push; simpl; rewrite Hc; reflexivity
                    | destruct push; reflexivity | intros v [= <-]; reflexivity].
  - rewrite scan_S in H.
    destruct (read f false s) as [[s1 r1]|] eqn:E1; [|discriminate].
    destruct (IHr _ _ _ _ E1) as (pre1 & Hcons1 & _).
    destruct r1 as [[c1|]|e]; try (injection H as <- <-; exists pre1; exact Hcons1).
    destruct (is_param c1); [|injection H as <- <-; exists pre1; exact Hcons1].
    destruct (IHs _ _ _ _ H) as (pre2 & Hcons2).
    exists (pre1 ++ pre2). apply (consumed_trans _ _ _ _ _ Hcons1 Hcons2).
Qed.

Lemma consumed_length (pre : list Z) (s s' : Local) :
  consumed pre s s' -> length (chars s) = (length pre + length (chars s'))%nat.
Proof. intros [Hc _]. rewrite Hc. apply length_app. Qed.

(** A [read] on a state with characters left reads at least one. *)
Lemma read_shortens (f : nat) (push : bool) (s s' : Local) (r : Result (option Z)) :
  read f push s = Some (s', r) -> chars s <> [] ->
  (length (chars s') < length (chars s))%nat.
Proof.
  intros H Hne. destruct (proj1 (read_scan_consumed f) _ _ _ _ H) as (pre & Hcons & Hm).
  apply consumed_length in Hcons.
  destruct (chars s) as [|c cs]; [contradiction|].
  destruct Hm as [[pre' ->] _]. simpl in *. lia.
Qed.

Lemma read_some_char (f : nat) (push : bool) (s s' : Local) (c : Z) :
  read f push s = Some (s', Ok (Some c)) ->
  (length (chars s') < length (chars s))%nat.
Proof.
  intros H. apply (read_shortens _ _ _ _ _ H).
  destruct (proj1 (read_scan_consumed f) _ _ _ _ H) as (pre & _ & Hm).
  intros Hnil. rewrite Hnil in Hm. destruct Hm as [_ Hm]. discriminate.
Qed.

Lemma read_scan_total (f : nat) :
  (forall push s, (2 * length (chars s) + 1 <= f)%nat -> is_Some (read f push s))
  /\ (forall args' s, (2 * length (chars s) + 2 <= f)%nat -> is_Some (scan f args' s)).
Proof.
  induction f as [|f [IHr IHs]]; (split; [intros push s Hf | intros args' s Hf]);
    try lia.
  - destruct (chars s) as [|c cs] eqn:Hc.
    + rewrite (read_end f) by exact Hc. eexists; reflexivity.
    + destruct (char_classes c) as [Hbs | [-> | [-> | Hpl]]].
      * destruct (decide (backward (inst s) = [])) as [Hb|Hb].
        -- rewrite (read_backspace_empty f _ _ _ _ Hc Hbs Hb). eexists; reflexivity.
        -- rewrite (read_backspace f _ _ _ _ Hc Hbs Hb).
           destruct (match_last _); eexists; reflexivity.
      * rewrite (read_escape_cases f _ _ _ Hc).
        assert (chars (shifted s) = cs) as Hsh by (simpl; rewrite Hc; reflexivity).
        destruct (IHr false (shifted s)) as [[s1 r1] E1];
          [rewrite Hsh; simpl in Hf; lia|].
        rewrite E1. destruct r1 as [r1|e]; [|eexists; reflexivity].
        destruct (bool_decide (r1 = Some 91)) eqn:E91; [|eexists; reflexivity].
        apply bool_decide_eq_true in E91. subst r1.
        apply read_some_char in E1. rewrite Hsh in E1.
        destruct (IHs [] s1) as [[s2 r2] E2]; [simpl in Hf; lia|].
        rewrite E2. destruct r2 as [[args2 command]|e]; [|eexists; reflexivity].
        destruct (run_command command args2 s2) as [s3 [u|e3]]; eexists; reflexivity.
      * rewrite (read_newline f _ _ _ Hc). eexists; reflexivity.
      * rewrite (read_plain f _ _ _ _ Hc Hpl). eexists; reflexivity.
  - rewrite scan_S.
    destruct (IHr false s) as [[s1 r1] E1]; [lia|].
    rewrite E1. destruct r1 as [[c1|]|e]; try (eexists; reflexivity).
    destruct (is_param c1); [|eexists; reflexivity].
    apply read_some_char in E1. apply IHs. lia.
Qed.

(** Any two amounts of fuel that are enough give the same result. *)
Lemma read_fuel (f1 f2 : nat) (push : bool) (s : Local) :
  (2 * length (chars s) + 1 <= f1)%nat -> (2 * length (chars s) + 1 <= f2)%nat ->
  read f1 push s = read f2 push s.
Proof.
  intros H1 H2.
  destruct (proj1 (read_scan_total (2 * length (chars s) + 1)) push s) as [x Hx]; [lia|].
  rewrite (proj1 (read_scan_mono _) _ _ _ Hx f1 H1).
  rewrite (proj1 (read_scan_mono _) _ _ _ Hx f2 H2). reflexivity.
Qed.

Lemma scan_fuel (f1 f2 : nat) (args' : jsstring) (s : Local) :
  (2 * length (chars s) + 2 <= f1)%nat -> (2 * length (chars s) + 2 <= f2)%nat ->
  scan f1 args' s = scan f2 args' s.
Proof.
  intros H1 H2.
  destruct (proj2 (read_scan_total (2 * length (chars s) + 2)) args' s) as [x Hx]; [lia|].
  rewrite (proj2 (read_scan_mono _) _ _ _ Hx f1 H1).
  rewrite (proj2 (read_scan_mono _) _ _ _ Hx f2 H2). reflexivity.
Qed.

(** *** The loop of [process] *)

Lemma loop_nil (n f : nat) (s : Local) : chars s = [] -> loop n f s = Some (s, Ok tt).
Proof. intros H. destruct n; simpl; rewrite H; reflexivity. Qed.

Lemma loop_S (n f : nat) (s : Local) :
  chars s <> [] ->
  loop (S n) f s
  = match read f true s with
    | None => None
    | Some (s1, Throw e) => Some (s1, Throw e)
    | Some (s1, Ok _) =>
        if hasEnded (inst s1) then Some (s1, Ok tt) else loop n f s1
    end.
Proof. intros H. simpl. destruct (chars s); [contradiction|reflexivity]. Qed.

Lemma loop_total (n f : nat) (s : Local) :
  (length (chars s) <= n)%nat -> (2 * length (chars s) + 1 <= f)%nat ->
  is_Some (loop n f s).
Proof.
  revert s. induction n as [|n IH]; intros s Hn Hf.
  - rewrite loop_nil; [eexists; reflexivity|].
    destruct (chars s); [reflexivity|simpl in Hn; lia].
  - destruct (decide (chars s = [])) as [Hnil|Hne].
    + rewrite loop_nil by exact Hnil. eexists; reflexivity.
    + rewrite loop_S by exact Hne.
      destruct (proj1 (read_scan_total f) true s Hf) as [[s1 r1] E1]. rewrite E1.
      destruct r1 as [r1|e]; [|eexists; reflexivity].
      destruct (hasEnded (inst s1)); [eexists; reflexivity|].
      pose proof (read_shortens _ _ _ _ _ E1 Hne). apply IH; lia.
Qed.

Lemma loop_fuel (n1 n2 f1 f2 : nat) (s : Local) :
  (length (chars s) <= n1)%nat -> (length (chars s) <= n2)%nat ->
  (2 * length (chars s) + 1 <= f1)%nat -> (2 * length (chars s) + 1 <= f2)%nat ->
  loop n1 f1 s = loop n2 f2 s.
Proof.
  revert n2 s. induction n1 as [|n1 IH]; intros n2 s Hn1 Hn2 Hf1 Hf2.
  - rewrite !loop_nil; [reflexivity|..];
      (destruct (chars s); [reflexivity|simpl in Hn1; lia]).
  - destruct (decide (chars s = [])) as [Hnil|Hne].
    + rewrite !loop_nil by exact Hnil. reflexivity.
    + destruct n2 as [|n2]; [destruct (chars s); [contradiction|simpl in Hn2; lia]|].
      rewrite !loop_S by exact Hne. rewrite (read_fuel f1 f2) by assumption.
      destruct (read f2 true s) as [[s1 r1]|] eqn:E1; [|reflexivity].
      destruct r1 as [r1|e]; [|reflexivity].
      destruct (hasEnded (inst s1)); [reflexivity|].
      pose proof (read_shortens _ _ _ _ _ E1 Hne). apply IH; lia.
Qed.

Lemma loop_consumed (n f : nat) (s s' : Local) (r : Result unit) :
  loop n f s = Some (s', r) -> exists pre, consumed pre s s'.
Proof.
  revert s. induction n as [|n IH]; intros s H.
  - simpl in H. destruct (chars s) eqn:Hc; [|discriminate]. injection H as <- <-.
    exists []. split; [reflexivity|left; reflexivity].
  - destruct (decide (chars s = [])) as [Hnil|Hne].
    + rewrite loop_nil in H by exact Hnil. injection H as <- <-.
      exists []. split; [reflexivity|left; reflexivity].
    + rewrite loop_S in H by exact Hne.
      destruct (read f true s) as [[s1 r1]|] eqn:E1; [|discriminate].
      destruct (proj1 (read_scan_consumed f) _ _ _ _ E1) as (pre1 & Hcons1 & _).
      destruct r1 as [r1|e]; [|injection H as <- <-; exists pre1; exact Hcons1].
      destruct (hasEnded (inst s1)); [injection H as <- <-; exists pre1; exact Hcons1|].
      destruct (IH _ H) as (pre2 & Hcons2).
      exists (pre1 ++ pre2). apply (consumed_trans _ _ _ _ _ Hcons1 Hcons2).
Qed.

(** [process] always comes back: with a value or with an exception. *)
Lemma process_chars_total (r : ReadInstance) (cs : list Z) :
  is_Some (process_chars r cs).
Proof.
  unfold process_chars.
  destruct (loop_total (length cs) (2 * length cs + 2)
              {| inst := r; chars := cs; response := []; shiftCount := 0 |})
    as [[s [u|e]] E]; [cbn [chars]; lia | cbn [chars]; lia | ..];
    rewrite E; eexists; reflexivity.
Qed.

(** The end flag is raised only by a newline among the characters. *)
Lemma process_chars_ended (r r' : ReadInstance) (cs : list Z) (res : Result jsstring) :
  process_chars r cs = Some (r', res) ->
  hasEnded r = false -> hasEnded r' = true -> 10 ∈ cs.
Proof.
  unfold process_chars. intros H Hr Hr'.
  destruct (loop _ _ _) as [[s res']|] eqn:E; [|discriminate].
  destruct (loop_consumed _ _ _ _ _ E) as (pre & Hc & He). simpl in Hc, He.
  assert (inst s = r') as Hs by (destruct res'; injection H as <- _; reflexivity).
  rewrite Hs in He. destruct He as [He | [_ Hin]]; [congruence|].
  rewrite Hc. apply elem_of_app. left. exact Hin.
Qed.

(** *** Escape sequences *)

Lemma is_param_range (c : Z) : is_param c = true -> c = 59 \/ 48 <= c <= 57.
Proof.
  unfold is_param, charCodeAt0. intros H.
  apply orb_true_iff in H as [H | H]; [left; apply Z.eqb_eq, H|].
  apply andb_true_iff in H as [H1 H2]. apply Z.leb_le in H1, H2.
  destruct (Z.ltb_spec c 65536); [right; lia|].
  pose proof (Z.shiftr_nonneg (c - 65536) 10). lia.
Qed.

Lemma is_param_plain (c : Z) : is_param c = true -> is_plain c = true.
Proof.
  intros H. apply is_param_range in H. unfold is_plain, is_backspace.
  repeat (apply andb_true_iff; split); apply negb_true_iff;
    rewrite ?orb_false_iff; repeat split; apply Z.eqb_neq; lia.
Qed.

Lemma set_chars_same (s : Local) : set_chars (chars s) s = s.
Proof. destruct s. reflexivity. Qed.

(** The scan of the parameters only collects them. *)
Lemma scan_params (params : list Z) (f : nat) (args' : jsstring) (s : Local)
    (rest : list Z) :
  Forall (fun c => is_param c = true) params ->
  chars s = params ++ rest -> (1 <= f)%nat ->
  scan (length params + f) args' s = scan f (args' ++ params) (set_chars rest s).
Proof.
  revert args' s. induction params as [|p ps IH]; intros args' s Hall Hc Hf.
  - simpl. rewrite app_nil_r. simpl in Hc. rewrite <- Hc, set_chars_same. reflexivity.
  - apply Forall_cons in Hall as [Hp Hps]. simpl length. simpl plus.
    rewrite scan_S.
    replace (read (length ps + f) false s)
      with (read (S (length ps + f - 1)) false s) by (f_equal; lia).
    rewrite (read_plain _ false s p (ps ++ rest) Hc (is_param_plain p Hp)).
    rewrite Hp.
    rewrite (IH (args' ++ [p]) (shifted s) Hps); [|simpl; rewrite Hc; reflexivity|exact Hf].
    rewrite <- List.app_assoc. reflexivity.
Qed.

(** What was collected does not change what the scan does. *)
Lemma scan_args (f : nat) (args' : jsstring) (s : Local) :
  scan f args' s
  = match scan f [] s with
    | None => None
    | Some (s', Throw e) => Some (s', Throw e)
    | Some (s', Ok (a, command)) => Some (s', Ok (args' ++ a, command))
    end.
Proof.
  revert args' s. induction f as [|f IH]; intros args' s; [reflexivity|].
  rewrite !scan_S. destruct (read f false s) as [[s1 [[c1|]|e]]|]; try reflexivity.
  - destruct (is_param c1).
    + rewrite (IH (args' ++ [c1])), (IH ([] ++ [c1])).
      destruct (scan f [] s1) as [[s2 [[a command]|e]]|]; try reflexivity.
      rewrite <- List.app_assoc. reflexivity.
    + rewrite app_nil_r. reflexivity.
  - rewrite app_nil_r. reflexivity.
Qed.

(** [run_command] does not look at the parameters. *)
Lemma run_command_args (command : option Z) (a1 a2 : jsstring) (s : Local) :
  run_command command a1 s = run_command command a2 s.
Proof. reflexivity. Qed.

Lemma read_escape_bracket (f : nat) (push : bool) (s : Local) (cs : list Z) :
  chars s = 27 :: 91 :: cs ->
  read (S (S f)) push s = after_bracket (scan (S f) [] (set_chars cs s)).
Proof.
  intros Hc. rewrite (read_escape_cases (S f) push s _ Hc).
  rewrite (read_plain f false (shifted s) 91 cs);
    [|simpl; rewrite Hc; reflexivity|reflexivity].
  rewrite bool_decide_eq_true_2 by reflexivity.
  assert (shifted (shifted s) = set_chars cs s) as ->
    by (unfold shifted; simpl; rewrite Hc; reflexivity).
  reflexivity.
Qed.

Lemma after_bracket_args (f : nat) (args' : jsstring) (s : Local) :
  after_bracket (scan f args' s) = after_bracket (scan f [] s).
Proof.
  rewrite (scan_args f args'). destruct (scan f [] s) as [[s2 [[a command]|e]]|];
    reflexivity.
Qed.

(** The parameters of an escape sequence change nothing: reading
    [ESC [ params rest] gives the state and the value that reading
    [ESC [ rest] gives. *)
Lemma read_params_ignored (f1 f2 : nat) (push : bool) (s : Local)
    (params rest : list Z) :
  Forall (fun c => is_param c = true) params ->
  chars s = 27 :: 91 :: params ++ rest ->
  (2 * length (chars s) + 1 <= f1)%nat ->
  (2 * S (S (length rest)) + 1 <= f2)%nat ->
  read f1 push s = read f2 push (set_chars (27 :: 91 :: rest) s).
Proof.
  intros Hall Hc Hf1 Hf2.
  set (g := (2 * (length params + length rest) + 3)%nat).
  assert (length (chars s) = S (S (length params + length rest))) as Hlen
    by (rewrite Hc; simpl; rewrite length_app; reflexivity).
  rewrite (read_fuel f1 (S (S (length params + g)))) by (unfold g; lia).
  rewrite (read_fuel f2 (S (S (S g)))) by (unfold g; simpl in *; lia).
  rewrite (read_escape_bracket _ push s (params ++ rest) Hc).
  rewrite (read_escape_bracket _ push (set_chars (27 :: 91 :: rest) s) rest)
    by reflexivity.
  replace (S (length params + g)) with (length params + S g)%nat by lia.
  rewrite (scan_params params (S g) [] (set_chars (params ++ rest) s) rest Hall)
    by (reflexivity || lia).
  rewrite after_bracket_args. simpl app.
  rewrite (scan_fuel (S g) (S (S g))) by (unfold g; simpl; lia).
  reflexivity.
Qed.

(** Reading a whole escape sequence whose last character is a command (a
    plain character that is not a parameter) runs the command on the state
    with the sequence taken off. *)
Lemma read_command (f : nat) (push : bool) (s : Local) (params rest : list Z)
    (cmd : Z) :
  Forall (fun c => is_param c = true) params ->
  is_plain cmd = true -> is_param cmd = false ->
  chars s = 27 :: 91 :: params ++ cmd :: rest ->
  (2 * length (chars s) + 1 <= f)%nat ->
  read f push s
  = after_bracket (Some (set_chars rest s, Ok ([], Some cmd))).
Proof.
  intros Hall Hpl Hnp Hc Hf.
  rewrite (read_params_ignored f (S (S (S (2 * length rest + 4)))) push s params
             (cmd :: rest) Hall Hc Hf) by (simpl; lia).
  rewrite (read_escape_bracket _ push _ (cmd :: rest)) by reflexivity.
  rewrite scan_S.
  rewrite (read_plain _ false _ cmd rest) by (reflexivity || exact Hpl).
  rewrite Hnp. reflexivity.
Qed.

Lemma cursor_command_plain (cmd : Z) :
  is_cursor_command cmd = true -> is_plain cmd = true /\ is_param cmd = false.
Proof.
  unfold is_cursor_command. rewrite !orb_true_iff, !Z.eqb_eq.
  intros [[[-> | ->] | ->] | ->]; split; reflexivity.
Qed.

(** *** The four cursor commands *)

Lemma run_command_right (args' : jsstring) (s : Local) (c : Z) (f' : jsstring) :
  forward (inst s) = c :: f' -> dot c = true ->
  run_command (Some 67) args' s
  = (write (csi (units c + 0) 67)
       (set_forward f' (set_backward (backward (inst s) ++ [c]) s)), Ok tt).
Proof.
  intros Hf Hd. unfold run_command, match_first, replace_first, match_first.
  rewrite Hf, Hd. reflexivity.
Qed.

Lemma run_command_left (args' : jsstring) (s : Local) (c : Z) (b' : jsstring) :
  backward (inst s) = b' ++ [c] -> dot c = true ->
  run_command (Some 68) args' s
  = (write (csi (units c + 0) 68)
       (set_backward b' (set_forward (c :: forward (inst s)) s)), Ok tt).
Proof.
  intros Hb Hd. unfold run_command, replace_last, match_last.
  rewrite Hb, last_snoc, Hd, removelast_last.
  rewrite bool_decide_eq_false_2 by (destruct b'; discriminate). reflexivity.
Qed.

Lemma run_command_home (args' : jsstring) (s : Local) :
  backward (inst s) <> [] ->
  run_command (Some 72) args' s
  = (write (csi (js_length (backward (inst s))) 68)
       (set_backward []
          (set_forward (backward (inst s) ++ forward (inst s)) s)), Ok tt).
Proof.
  intros Hb. unfold run_command. rewrite bool_decide_eq_false_2 by exact Hb.
  reflexivity.
Qed.

Lemma run_command_end (args' : jsstring) (s : Local) :
  forward (inst s) <> [] ->
  run_command (Some 70) args' s
  = (write (csi (js_length (forward (inst s))) 67)
       (set_forward []
          (set_backward (backward (inst s) ++ forward (inst s)) s)), Ok tt).
Proof.
  intros Hf. unfold run_command. rewrite bool_decide_eq_false_2 by exact Hf.
  reflexivity.
Qed.

(** *** Calls that hold cursor sequences only *)

Lemma loop_cursor_sequences (seqs : list (list Z)) :
  Forall cursor_sequence seqs ->
  forall (n f : nat) (s : Local),
    chars s = concat seqs ->
    (length (chars s) <= n)%nat -> (2 * length (chars s) + 1 <= f)%nat ->
    exists s' r,
      loop n f s = Some (s', r)
      /\ line (inst s') = line (inst s)
      /\ hasEnded (inst s') = hasEnded (inst s).
Proof.
  induction 1 as [|sq seqs Hsq Hall IH]; intros n f s Hc Hn Hf.
  - rewrite loop_nil by exact Hc. eexists _, _. repeat split; reflexivity.
  - destruct Hsq as (params & cmd & Hparams & Hcmd & ->).
    destruct (cursor_command_plain cmd Hcmd) as [Hpl Hnp].
    assert (chars s = 27 :: 91 :: params ++ cmd :: concat seqs) as Hc'.
    { rewrite Hc. simpl. rewrite <- List.app_assoc. reflexivity. }
    destruct n as [|n]; [rewrite Hc' in Hn; simpl in Hn; lia|].
    rewrite loop_S by (rewrite Hc'; discriminate).
    rewrite (read_command f true s params (concat seqs) cmd Hparams Hpl Hnp Hc' Hf).
    unfold after_bracket.
    destruct (run_command (Some cmd) [] (set_chars (concat seqs) s)) as [s3 r3] eqn:E3.
    destruct (run_command_frame _ _ _ _ _ E3) as (Hch3 & He3 & _ & Hl3 & _).
    simpl in Hch3, He3, Hl3.
    destruct r3 as [u|e];
      [|exists s3, (Throw e); split; [reflexivity|split; [exact Hl3|exact He3]]].
    destruct (hasEnded (inst s3)) eqn:Hended;
      [exists s3, (Ok tt); split; [reflexivity|split; [exact Hl3|congruence]]|].
    assert (length (chars s3) < length (chars s))%nat as Hlt.
    { rewrite Hch3, Hc'. simpl. rewrite length_app. simpl. lia. }
    destruct (IH n f s3 Hch3) as (s' & r & Hloop & Hline & Hend); [lia|lia|].
    exists s', r. repeat split; [exact Hloop|congruence|congruence].
Qed.

Lemma process_chars_cursor (r : ReadInstance) (seqs : list (list Z)) :
  Forall cursor_sequence seqs ->
  exists r' res,
    process_chars r (concat seqs) = Some (r', res)
    /\ line r' = line r /\ hasEnded r' = hasEnded r.
Proof.
  intros Hall. unfold process_chars.
  destruct (loop_cursor_sequences seqs Hall (length (concat seqs))
              (2 * length (concat seqs) + 2) (start r (concat seqs)))
    as (s' & res & Hloop & Hline & Hend); [reflexivity|simpl; lia|simpl; lia|].
  unfold start in Hloop. rewrite Hloop.
  destruct res as [u|e];
    [exists (inst s'), (Ok (echo s')) | exists (inst s'), (Throw e)];
    (split; [reflexivity|split; assumption]).
Qed.

(** *** The bell *)

Lemma bell_response (s : Local) :
  response (bell s)
  = if bool_decide (BEL ∈ response s) then response s else response s ++ [BEL].
Proof. unfold bell. destruct (bool_decide _); reflexivity. Qed.

Lemma bell_rung (s : Local) : BEL ∈ response (bell s).
Proof.
  rewrite bell_response. destruct (bool_decide (BEL ∈ response s)) eqn:E.
  - apply bool_decide_eq_true in E. exact E.
  - apply elem_of_app. right. apply list_elem_of_singleton. reflexivity.
Qed.

(** The bell is added once: a second [bell] adds nothing. *)
Lemma bell_idempotent (s : Local) : bell (bell s) = bell s.
Proof.
  unfold bell at 1. rewrite bool_decide_eq_true_2 by apply bell_rung. reflexivity.
Qed.

Lemma bell_shifted (s : Local) : bell (shifted s) = shifted (bell s).
Proof. unfold bell, shifted. simpl. destruct (bool_decide _); reflexivity. Qed.

(** *** Counting the bells of a call *)

Lemma bels_app (a b : jsstring) : bels (a ++ b) = (bels a + bels b)%nat.
Proof. apply count_occ_app. Qed.

Lemma bels_of_string_cons (a : ascii) (s : string) :
  bels (of_string (String a s))
  = ((if Z.eq_dec (Z.of_N (N_of_ascii a)) BEL then 1 else 0) + bels (of_string s))%nat.
Proof.
  unfold bels, of_string. simpl.
  destruct (Z.eq_dec (Z.of_N (N_of_ascii a)) BEL); reflexivity.
Qed.

Lemma pretty_N_go_no_bel (x : N) (s : string) :
  bels (of_string s) = 0%nat -> bels (of_string (pretty_N_go x s)) = 0%nat.
Proof.
  revert s. induction (N.lt_wf_0 x) as [x _ IH]. intros s Hs.
  destruct (N.eq_dec x 0%N) as [->|Hx].
  - rewrite pretty_N_go_0. exact Hs.
  - rewrite pretty_N_go_step by lia. apply IH; [apply N.div_lt; lia|].
    rewrite bels_of_string_cons, Hs.
    destruct (Z.eq_dec _ BEL) as [e|]; [|reflexivity].
    exfalso. unfold pretty_N_char in e. repeat case_match; discriminate.
Qed.

Lemma pretty_N_no_bel (x : N) : bels (of_string (pretty x)) = 0%nat.
Proof.
  unfold pretty, pretty_N. case_decide; [reflexivity|].
  apply pretty_N_go_no_bel. reflexivity.
Qed.

(** The digits of a number hold no BEL. *)
Lemma decimal_no_bel (n : Z) : bels (decimal n) = 0%nat.
Proof.
  unfold decimal. destruct n as [|p|p]; [reflexivity| |].
  - change (pretty (Z.pos p)) with (pretty (N.pos p)). apply pretty_N_no_bel.
  - change (pretty (Z.neg p)) with (String "-" (pretty (N.pos p))).
    rewrite bels_of_string_cons, pretty_N_no_bel. reflexivity.
Qed.

Lemma csi_no_bel (n letter : Z) : letter <> BEL -> bels (csi n letter) = 0%nat.
Proof.
  intros Hl. unfold csi. rewrite !bels_app, decimal_no_bel. unfold bels. simpl.
  destruct (Z.eq_dec letter BEL); [contradiction|reflexivity].
Qed.

Lemma bell_bound_refl (s : Local) : bell_bound [] s s.
Proof. split; [reflexivity|]. split; [lia|]. destruct (_ =? _)%nat; simpl; lia. Qed.

Lemma bell_bound_trans (pre1 pre2 : list Z) (s1 s2 s3 : Local) :
  bell_bound pre1 s1 s2 -> bell_bound pre2 s2 s3 ->
  bell_bound (pre1 ++ pre2) s1 s3.
Proof.
  intros (Hc1 & Hlo1 & Hhi1) (Hc2 & Hlo2 & Hhi2). split; [|split].
  - rewrite Hc1, Hc2. apply List.app_assoc.
  - lia.
  - rewrite bels_app.
    destruct (Nat.eqb_spec (bels (response s1)) 0),
             (Nat.eqb_spec (bels (response s2)) 0); lia.
Qed.

(** A step that takes [pre] off the characters and adds [out] to the echo,
    where [out] holds no more BEL than [pre]. *)
Lemma bell_bound_step (pre out : list Z) (s s' : Local) :
  chars s = pre ++ chars s' -> response s' = response s ++ out ->
  (bels out <= bels pre)%nat -> bell_bound pre s s'.
Proof.
  intros Hc Hr Hout. split; [exact Hc|]. rewrite Hr, bels_app.
  split; [lia|]. destruct (_ =? _)%nat; lia.
Qed.

(** A step that rings the bell. *)
Lemma bell_bound_bell (pre : list Z) (s s' : Local) :
  chars s = pre ++ chars s' -> response s' = response (bell s) ->
  bell_bound pre s s'.
Proof.
  intros Hc Hr. split; [exact Hc|]. rewrite Hr. unfold bell.
  destruct (bool_decide (BEL ∈ response s)) eqn:E.
  - split; [lia|]. destruct (_ =? _)%nat; lia.
  - simpl. rewrite bels_app. change (bels [BEL]) with 1%nat.
    apply bool_decide_eq_false in E.
    assert (bels (response s) = 0%nat) as ->.
    { apply count_occ_not_In. intros Hin. apply E, list_elem_of_In, Hin. }
    simpl. split; lia.
Qed.

Lemma run_command_bell_bound (command : option Z) (args' : jsstring)
    (s s' : Local) (r : Result unit) :
  run_command command args' s = (s', r) -> bell_bound [] s s'.
Proof.
  intros H. destruct (run_command_frame _ _ _ _ _ H) as (Hc & _ & _ & _ & _).
  assert (forall s0, chars s0 = chars s -> response s0 = response (bell s) ->
            bell_bound [] s s0) as Hbell
    by (intros s0 Hc0 Hr0; apply bell_bound_bell; [rewrite Hc0; reflexivity|exact Hr0]).
  assert (forall s0 n letter, chars s0 = chars s -> letter <> BEL ->
            response s0 = response s ++ csi n letter -> bell_bound [] s s0) as Hcsi.
  { intros s0 n letter Hc0 Hl Hr0. apply (bell_bound_step [] (csi n letter));
      [rewrite Hc0; reflexivity|exact Hr0|rewrite csi_no_bel by exact Hl; simpl; lia]. }
  assert (forall s0, s0 = s -> bell_bound [] s s0) as Hsame
    by (intros s0 ->; apply bell_bound_refl).
  unfold run_command in H. cbv zeta in H.
  destruct command as [c|]; [|injection H as <- <-; apply Hsame; reflexivity].
  destruct (Z.eq_dec c 65) as [->|]; [injection H as <- <-; apply Hsame; reflexivity|].
  destruct (Z.eq_dec c 66) as [->|]; [injection H as <- <-; apply Hsame; reflexivity|].
  destruct (Z.eq_dec c 67) as [->|].
  { destruct (bool_decide (forward (inst s) = []));
      [injection H as <- <-; apply Hbell; [apply bell_frame|reflexivity]|].
    destruct (match_first (forward (inst s))) as [movingChar|].
    - injection H as <- <-. (eapply Hcsi; [reflexivity| |reflexivity]; unfold BEL; discriminate).
    - injection H as <- <-. apply Hsame; reflexivity. }
  destruct (Z.eq_dec c 68) as [->|].
  { destruct (bool_decide (backward (inst s) = []));
      [injection H as <- <-; apply Hbell; [apply bell_frame|reflexivity]|].
    destruct (match_last (backward (inst s))); injection H as <- <-;
      [(eapply Hcsi; [reflexivity| |reflexivity]; unfold BEL; discriminate)|apply Hsame; reflexivity]. }
  destruct (Z.eq_dec c 72) as [->|].
  { destruct (bool_decide (backward (inst s) = []));
      [injection H as <- <-; apply Hbell; [apply bell_frame|reflexivity]|].
    injection H as <- <-. (eapply Hcsi; [reflexivity| |reflexivity]; unfold BEL; discriminate). }
  destruct (Z.eq_dec c 70) as [->|].
  { destruct (bool_decide (forward (inst s) = []));
      [injection H as <- <-; apply Hbell; [apply bell_frame|reflexivity]|].
    injection H as <- <-. (eapply Hcsi; [reflexivity| |reflexivity]; unfold BEL; discriminate). }
  assert (run_command (Some c) args' s = (s, Ok tt)) as Hother.
  { unfold run_command. destruct c as [|c|c]; try reflexivity.
    do 7 (destruct c as [c|c|]; try reflexivity); contradiction. }
  unfold run_command in Hother. rewrite Hother in H.
  injection H as <- <-. apply Hsame; reflexivity.
Qed.

Lemma read_scan_bell_bound (f : nat) :
  (forall push s s' r, read f push s = Some (s', r) ->
     exists pre, bell_bound pre s s')
  /\ (forall args' s s' r, scan f args' s = Some (s', r) ->
        exists pre, bell_bound pre s s').
Proof.
  induction f as [|f [IHr IHs]];
    (split; [intros push s s' r H | intros args' s s' r H]); try discriminate.
  - destruct (chars s) as [|c cs] eqn:Hc.
    + rewrite (read_end f) in H by exact Hc. injection H as <- <-.
      exists []. apply (bell_bound_step [] []);
        [destruct push; simpl; rewrite Hc; reflexivity
        |destruct push; simpl; rewrite app_nil_r; reflexivity|apply Nat.le_0_l].
    + assert (forall out s1, chars s1 = cs -> response s1 = response s ++ out ->
                (bels out <= bels [c])%nat -> exists pre, bell_bound pre s s1) as Hone.
      { intros out s1 Hc1 Hr1 Hout. exists [c].
        apply (bell_bound_step [c] out); [rewrite Hc, Hc1; reflexivity|exact Hr1|exact Hout]. }
      destruct (char_classes c) as [Hbs | [-> | [-> | Hpl]]].
      * destruct (decide (backward (inst s) = [])) as [Hb|Hb].
        -- rewrite (read_backspace_empty f _ _ _ _ Hc Hbs Hb) in H. injection H as <- <-.
           exists [c]. destruct (bell_frame (shifted s)) as (_ & Hch & _).
           apply bell_bound_bell; [rewrite Hch; simpl; rewrite Hc; reflexivity|].
           rewrite bell_shifted. reflexivity.
        -- rewrite (read_backspace f _ _ _ _ Hc Hbs Hb) in H.
           destruct (match_last (backward (inst s))) as [removingChar|];
             injection H as <- <-.
           ++ apply (Hone (csi (getLength removingChar) 68));
                [simpl; rewrite Hc; reflexivity|reflexivity|].
              rewrite csi_no_bel by (unfold BEL; discriminate). lia.
           ++ apply (Hone []); [simpl; rewrite Hc; reflexivity
                               |simpl; rewrite app_nil_r; reflexivity|apply Nat.le_0_l].
      * rewrite (read_escape_cases f _ _ _ Hc) in H.
        assert (bell_bound [27] s (shifted s)) as H0.
        { apply (bell_bound_step [27] []);
            [simpl; rewrite Hc; reflexivity|simpl; rewrite app_nil_r; reflexivity
            |apply Nat.le_0_l]. }
        destruct (read f false (shifted s)) as [[s1 r1]|] eqn:E1; [|discriminate].
        destruct (IHr _ _ _ _ E1) as (pre1 & Hb1).
        pose proof (bell_bound_trans _ _ _ _ _ H0 Hb1) as Hb01.
        destruct r1 as [r1|e]; [|injection H as <- <-; eexists; exact Hb01].
        destruct (bool_decide (r1 = Some 91));
          [|injection H as <- <-; eexists; exact Hb01].
        destruct (scan f [] s1) as [[s2 r2]|] eqn:E2; [|discriminate].
        destruct (IHs _ _ _ _ E2) as (pre2 & Hb2).
        pose proof (bell_bound_trans _ _ _ _ _ Hb01 Hb2) as Hb02.
        destruct r2 as [[args2 command]|e];
          [|injection H as <- <-; eexists; exact Hb02].
        destruct (run_command command args2 s2) as [s3 r3] eqn:E3.
        pose proof (bell_bound_trans _ _ _ _ _ Hb02
                      (run_command_bell_bound _ _ _ _ _ E3)) as Hb03.
        destruct r3 as [u|e3]; injection H as <- <-; eexists; exact Hb03.
      * rewrite (read_newline f _ _ _ Hc) in H. injection H as <- <-.
        apply (Hone [10]); [simpl; rewrite Hc; reflexivity|reflexivity|].
        apply Nat.le_0_l.
      * rewrite (read_plain f _ _ _ _ Hc Hpl) in H. injection H as <- <-.
        destruct push.
        -- apply (Hone [c]); [simpl; rewrite Hc; reflexivity|reflexivity|lia].
        -- apply (Hone []); [simpl; rewrite Hc; reflexivity
                            |simpl; rewrite app_nil_r; reflexivity|apply Nat.le_0_l].
  - rewrite scan_S in H.
    destruct (read f false s) as [[s1 r1]|] eqn:E1; [|discriminate].
    destruct (IHr _ _ _ _ E1) as (pre1 & Hb1).
    destruct r1 as [[c1|]|e]; try (injection H as <- <-; exists pre1; exact Hb1).
    destruct (is_param c1); [|injection H as <- <-; exists pre1; exact Hb1].
    destruct (IHs _ _ _ _ H) as (pre2 & Hb2).
    exists (pre1 ++ pre2). apply (bell_bound_trans _ _ _ _ _ Hb1 Hb2).
Qed.

Lemma loop_bell_bound (n f : nat) (s s' : Local) (r : Result unit) :
  loop n f s = Some (s', r) -> exists pre, bell_bound pre s s'.
Proof.
  revert s. induction n as [|n IH]; intros s H.
  - simpl in H. destruct (chars s) eqn:Hc; [|discriminate]. injection H as <- <-.
    exists []. apply bell_bound_refl.
  - destruct (decide (chars s = [])) as [Hnil|Hne].
    + rewrite loop_nil in H by exact Hnil. injection H as <- <-.
      exists []. apply bell_bound_refl.
    + rewrite loop_S in H by exact Hne.
      destruct (read f true s) as [[s1 r1]|] eqn:E1; [|discriminate].
      destruct (proj1 (read_scan_bell_bound f) _ _ _ _ E1) as (pre1 & Hb1).
      destruct r1 as [r1|e]; [|injection H as <- <-; exists pre1; exact Hb1].
      destruct (hasEnded (inst s1)); [injection H as <- <-; exists pre1; exact Hb1|].
      destruct (IH _ H) as (pre2 & Hb2).
      exists (pre1 ++ pre2). apply (bell_bound_trans _ _ _ _ _ Hb1 Hb2).
Qed.

Lemma bels_replicate_space (n : nat) : bels (replicate n 32) = 0%nat.
Proof. induction n as [|n IH]; [reflexivity|exact IH]. Qed.

(** The echo of a call holds at most one BEL beyond those that were typed in
    the call and those of the text after the cursor that is shown again. *)
Lemma process_chars_bell_bound (r r' : ReadInstance) (cs : list Z) (e : jsstring) :
  process_chars r cs = Some (r', Ok e) ->
  (bels e <= bels cs + bels (forward r') + 1)%nat.
Proof.
  unfold process_chars. intros H.
  destruct (loop _ _ _) as [[s' [u|e']]|] eqn:E; try discriminate.
  injection H as <- <-.
  destruct (loop_bell_bound _ _ _ _ _ E) as (pre & Hc & _ & Hhi).
  simpl in Hc, Hhi. rewrite Hc, bels_app.
  unfold echo. rewrite bels_app.
  destruct (0 <? _).
  - rewrite !bels_app, bels_replicate_space, csi_no_bel by (unfold BEL; discriminate).
    lia.
  - change (bels []) with 0%nat. lia.
Qed.

(** *** Backspace and the bell *)

(** A backspace that finds [backward] empty: the buffers, the end flag and
    the pending blanks stay, the bell is added if the echo has none yet. *)
Lemma read_backspace_on_empty (f : nat) (push : bool) (s : Local) (c : Z)
    (cs : list Z) :
  chars s = c :: cs -> is_backspace c = true -> backward (inst s) = [] ->
  exists s',
    read (S f) push s = Some (s', Ok (Some c))
    /\ inst s' = inst s /\ shiftCount s' = shiftCount s /\ chars s' = cs
    /\ response s'
       = if bool_decide (BEL ∈ response s) then response s
         else response s ++ [BEL].
Proof.
  intros Hc Hbs Hb. rewrite (read_backspace_empty f push s c cs Hc Hbs Hb).
  eexists. split; [reflexivity|].
  destruct (bell_frame (shifted s)) as (Hi & Hch & Hsh).
  rewrite Hi, Hch, Hsh, bell_response. simpl. rewrite Hc. repeat split; reflexivity.
Qed.

(** A run of backspaces on an empty [backward]. *)
Lemma loop_backspaces (k : nat) :
  forall (n f : nat) (s : Local),
    chars s = replicate (S k) 127 -> backward (inst s) = [] ->
    (S k <= n)%nat ->
    exists s',
      loop n (S f) s = Some (s', Ok tt)
      /\ inst s' = inst s /\ shiftCount s' = shiftCount s
      /\ response s' = response (bell s).
Proof.
  induction k as [|k IH]; intros n f s Hc Hb Hn.
  - destruct n as [|n]; [lia|]. rewrite loop_S by (rewrite Hc; discriminate).
    rewrite (read_backspace_empty f true s 127 [] Hc eq_refl Hb).
    destruct (bell_frame (shifted s)) as (Hi & Hch & Hsh).
    assert (chars (bell (shifted s)) = []) as Hnil
      by (rewrite Hch; simpl; rewrite Hc; reflexivity).
    exists (bell (shifted s)).
    rewrite (loop_nil n (S f) _ Hnil).
    split; [destruct (hasEnded _); reflexivity|].
    rewrite Hi, Hsh, bell_shifted. repeat split; reflexivity.
  - destruct n as [|n]; [lia|]. rewrite loop_S by (rewrite Hc; discriminate).
    rewrite (read_backspace_empty f true s 127 (replicate (S k) 127) Hc eq_refl Hb).
    destruct (bell_frame (shifted s)) as (Hi & Hch & Hsh).
    destruct (hasEnded (inst (bell (shifted s)))) eqn:Hended.
    + exists (bell (shifted s)). split; [reflexivity|].
      rewrite Hi, Hsh, bell_shifted. repeat split; reflexivity.
    + destruct (IH n f (bell (shifted s))) as (s' & Hloop & Hi' & Hsh' & Hr');
        [rewrite Hch; simpl; rewrite Hc; reflexivity
        |rewrite Hi; exact Hb | lia |].
      exists s'. split; [exact Hloop|].
      rewrite Hi', Hsh', Hr', Hi, Hsh, bell_idempotent, bell_shifted.
      repeat split; reflexivity.
Qed.

Lemma process_chars_backspaces (r : ReadInstance) (k : nat) :
  backward r = [] ->
  process_chars r (replicate (S k) 127)
  = Some (r, Ok (echo {| inst := r; chars := []; response := [BEL];
                         shiftCount := 0 |})).
Proof.
  intros Hb. unfold process_chars.
  destruct (loop_backspaces k (length (replicate (S k) 127))
              (2 * length (replicate (S k) 127) + 1)
              {| inst := r; chars := replicate (S k) 127; response := [];
                 shiftCount := 0 |})
    as (s' & Hloop & Hi & Hsh & Hr); [reflexivity|exact Hb|rewrite length_replicate; lia|].
  replace (2 * length (replicate (S k) 127%Z) + 2)%nat
    with (S (2 * length (replicate (S k) 127%Z) + 1)) by lia.
  rewrite Hloop. unfold echo. simpl in Hi, Hsh, Hr. rewrite Hi, Hsh, Hr.
  reflexivity.
Qed.

(** C8, corrected. A new instance fed "ab\x7F\n" ends with the line "a"; the
    echo of the backspace is a cursor-left sequence without a bell.  A
    backspace that finds [backward] empty leaves both buffers as they are and
    adds the bell to the echo unless the echo of this call already holds a
    BEL character: the bell is added at most once in a call, however often it
    is triggered (a call made of backspaces on an empty [backward] echoes one
    bell; the echo of any call holds at most one BEL beyond those typed in it
    and those of the text shown again), and not at all after a BEL character
    was echoed in the call. *)
Theorem backspace_and_bell :
  process new_ReadInstance [x61; x62; x7f; x0a]
  = Some ({| forward := []; backward := [97]; hasEnded := true |},
          Ok [97; 98; 27; 91; 49; 68; 10; 32; 27; 91; 49; 68])
  /\ line {| forward := []; backward := [97]; hasEnded := true |} = [97]
  /\ read 1 true {| inst := {| forward := []; backward := [97; 98];
                               hasEnded := false |};
                    chars := [127; 10]; response := [97; 98]; shiftCount := 0 |}
     = Some ({| inst := {| forward := []; backward := [97]; hasEnded := false |};
                chars := [10]; response := [97; 98] ++ csi 1 68;
                shiftCount := 1 |}, Ok (Some 127))
  /\ (BEL ∉ csi 1 68)
  /\ (forall (f : nat) (push : bool) (s : Local) (c : Z) (cs : list Z),
        chars s = c :: cs -> is_backspace c = true -> backward (inst s) = [] ->
        exists s',
          read (S f) push s = Some (s', Ok (Some c))
          /\ inst s' = inst s /\ shiftCount s' = shiftCount s /\ chars s' = cs
          /\ response s'
             = if bool_decide (BEL ∈ response s) then response s
               else response s ++ [BEL])
  /\ (forall s : Local, bell (bell s) = bell s)
  /\ (forall (r : ReadInstance) (k : nat),
        backward r = [] ->
        process_chars r (replicate (S k) 127)
        = Some (r, Ok (echo {| inst := r; chars := []; response := [BEL];
                               shiftCount := 0 |})))
  /\ (forall k : nat,
        process_chars new_ReadInstance (replicate (S k) 127)
        = Some (new_ReadInstance, Ok [BEL]))
  /\ (forall (r r' : ReadInstance) (cs : list Z) (e : jsstring),
        process_chars r cs = Some (r', Ok e) ->
        (bels e <= bels cs + bels (forward r') + 1)%nat).
Proof.
  split; [vm_compute; reflexivity|]. split; [reflexivity|].
  split; [vm_compute; reflexivity|].
  split; [vm_compute; intros H; repeat (apply elem_of_cons in H as [H|H];
            [discriminate|]); apply elem_of_nil in H; exact H|].
  split; [apply read_backspace_on_empty|]. split; [apply bell_idempotent|].
  split; [apply process_chars_backspaces|].
  split; [|apply process_chars_bell_bound].
  intros k. rewrite process_chars_backspaces by reflexivity. reflexivity.
Qed.

(** Three backspaces on a new instance: one bell. *)
Lemma backspace_and_bell_witness :
  process_chars new_ReadInstance [127; 127; 127] = Some (new_ReadInstance, Ok [BEL]).
Proof.
  destruct backspace_and_bell as (_ & _ & _ & _ & _ & _ & _ & H & _).
  exact (H 2%nat).
Defined.

(** C8 as it was stated fails: after the echo of two typed BEL characters a
    backspace on empty buffers adds no bell.  The call on the four bytes and
    the call on the same bytes followed by one more backspace return the same
    echo, which holds two BEL characters and not one. *)
Lemma bell_not_exactly_once :
  process new_ReadInstance [x07; x07; x7f; x7f]
  = Some (new_ReadInstance,
          Ok [7; 7; 27; 91; 49; 68; 27; 91; 49; 68; 32; 32; 27; 91; 50; 68])
  /\ read 1 true {| inst := new_ReadInstance; chars := [127];
                    response := [7; 7; 27; 91; 49; 68; 27; 91; 49; 68];
                    shiftCount := 2 |}
     = Some ({| inst := new_ReadInstance; chars := [];
                response := [7; 7; 27; 91; 49; 68; 27; 91; 49; 68];
                shiftCount := 2 |}, Ok (Some 127))
  /\ process new_ReadInstance [x07; x07; x7f; x7f; x7f]
     = Some (new_ReadInstance,
             Ok [7; 7; 27; 91; 49; 68; 27; 91; 49; 68; 32; 32; 27; 91; 50; 68])
  /\ count_occ Z.eq_dec
       [7; 7; 27; 91; 49; 68; 27; 91; 49; 68; 32; 32; 27; 91; 50; 68] BEL
     = 2%nat.
Proof. repeat split; vm_compute; reflexivity. Qed.

(** *** Parameters of escape sequences *)

Lemma process_chars_params_ignored (r : ReadInstance) (params rest : list Z) :
  Forall (fun c => is_param c = true) params ->
  process_chars r (27 :: 91 :: params ++ rest) = process_chars r (27 :: 91 :: rest).
Proof.
  intros Hall. unfold process_chars.
  set (s := {| inst := r; chars := 27 :: 91 :: params ++ rest; response := [];
               shiftCount := 0 |}).
  set (s0 := {| inst := r; chars := 27 :: 91 :: rest; response := [];
                shiftCount := 0 |}).
  cbn [length].
  rewrite (loop_S _ _ s) by discriminate. rewrite (loop_S _ _ s0) by discriminate.
  rewrite (read_params_ignored _ (2 * S (S (length rest)) + 2) true s params rest Hall)
    by (reflexivity || (unfold s; cbn [chars length]; lia)).
  change (set_chars (27 :: 91 :: rest) s) with s0.
  destruct (read (2 * S (S (length rest)) + 2) true s0) as [[s1 r1]|] eqn:E1;
    [|reflexivity].
  pose proof (read_shortens _ _ _ _ _ E1 ltac:(discriminate)) as Hlt.
  unfold s0 in Hlt. cbn [chars length] in Hlt. rewrite length_app.
  destruct r1 as [r1|e]; [|reflexivity].
  destruct (hasEnded (inst s1)); [reflexivity|].
  rewrite (loop_fuel (S (length params + length rest))
             (S (length rest)) _ (2 * S (S (length rest)) + 2) s1) by lia.
  reflexivity.
Qed.

(** A call that holds one command: the command runs on the instance. *)
Lemma process_chars_command (r : ReadInstance) (params : list Z) (cmd : Z) :
  Forall (fun c => is_param c = true) params ->
  is_plain cmd = true -> is_param cmd = false ->
  process_chars r (27 :: 91 :: params ++ [cmd])
  = finish_command (run_command (Some cmd) [] (start r [])).
Proof.
  intros Hall Hpl Hnp. rewrite (process_chars_params_ignored r params [cmd] Hall).
  unfold process_chars. cbn [length].
  rewrite loop_S by discriminate.
  rewrite (read_command _ true (start r [27; 91; cmd]) [] [] cmd
             (Forall_nil_2 _) Hpl Hnp eq_refl)
    by (cbn [start chars length]; lia).
  unfold after_bracket.
  change (set_chars [] _) with (start r []).
  destruct (run_command (Some cmd) [] (start r [])) as [s3 r3] eqn:E3.
  destruct (run_command_frame _ _ _ _ _ E3) as (Hch3 & _).
  destruct r3 as [u|e]; [|reflexivity].
  destruct (hasEnded (inst s3)); [reflexivity|].
  rewrite loop_nil by exact Hch3. reflexivity.
Qed.

(** C10. The parameter characters of an escape sequence (digits and
    semicolons between [ESC [] and the letter) are read and never used.  At
    any point of a call and for a whole call, [ESC [ params] followed by
    anything does what [ESC [] followed by the same does; with any parameters
    C and D move one character between the buffers and H and F move the whole
    of [backward] or of [forward], and the echo is that of the letter
    alone. *)
Theorem escape_parameters_ignored (params : list Z) :
  Forall (fun c => is_param c = true) params ->
  (forall (f1 f2 : nat) (push : bool) (s : Local) (rest : list Z),
      chars s = 27 :: 91 :: params ++ rest ->
      (2 * length (chars s) + 1 <= f1)%nat ->
      (2 * S (S (length rest)) + 1 <= f2)%nat ->
      read f1 push s = read f2 push (set_chars (27 :: 91 :: rest) s))
  /\ (forall (r : ReadInstance) (rest : list Z),
        process_chars r (27 :: 91 :: params ++ rest)
        = process_chars r (27 :: 91 :: rest))
  /\ (forall (r : ReadInstance) (c : Z) (f' : jsstring),
        forward r = c :: f' -> dot c = true ->
        process_chars r (27 :: 91 :: params ++ [67])
        = finish_command
            (write (csi (units c + 0) 67)
               (set_forward f' (set_backward (backward r ++ [c]) (start r []))),
             Ok tt))
  /\ (forall (r : ReadInstance) (c : Z) (b' : jsstring),
        backward r = b' ++ [c] -> dot c = true ->
        process_chars r (27 :: 91 :: params ++ [68])
        = finish_command
            (write (csi (units c + 0) 68)
               (set_backward b' (set_forward (c :: forward r) (start r []))),
             Ok tt))
  /\ (forall r : ReadInstance,
        backward r <> [] ->
        process_chars r (27 :: 91 :: params ++ [72])
        = finish_command
            (write (csi (js_length (backward r)) 68)
               (set_backward []
                  (set_forward (backward r ++ forward r) (start r []))),
             Ok tt))
  /\ (forall r : ReadInstance,
        forward r <> [] ->
        process_chars r (27 :: 91 :: params ++ [70])
        = finish_command
            (write (csi (js_length (forward r)) 67)
               (set_forward []
                  (set_backward (backward r ++ forward r) (start r []))),
             Ok tt)).
Proof.
  intros Hall. split; [|split; [|split; [|split; [|split]]]].
  - intros f1 f2 push s rest Hc Hf1 Hf2.
    apply (read_params_ignored f1 f2 push s params rest Hall Hc Hf1 Hf2).
  - intros r rest. apply process_chars_params_ignored, Hall.
  - intros r c f' Hf Hd.
    rewrite (process_chars_command r params 67 Hall) by reflexivity.
    rewrite (run_command_right [] (start r []) c f' Hf Hd). reflexivity.
  - intros r c b' Hb Hd.
    rewrite (process_chars_command r params 68 Hall) by reflexivity.
    rewrite (run_command_left [] (start r []) c b' Hb Hd). reflexivity.
  - intros r Hb.
    rewrite (process_chars_command r params 72 Hall) by reflexivity.
    rewrite (run_command_home [] (start r []) Hb). reflexivity.
  - intros r Hf.
    rewrite (process_chars_command r params 70 Hall) by reflexivity.
    rewrite (run_command_end [] (start r []) Hf). reflexivity.
Qed.

(** [ESC [ 1 ; 5 D] on "a|bc": one character goes left, as with [ESC [ D]. *)
Lemma escape_parameters_ignored_witness :
  process_chars sample_instance [27; 91; 49; 59; 53; 68]
  = Some ({| forward := [97; 98; 99]; backward := []; hasEnded := false |},
          Ok [27; 91; 49; 68; 97; 98; 99; 27; 91; 51; 68])
  /\ process_chars sample_instance [27; 91; 49; 59; 53; 68]
     = process_chars sample_instance [27; 91; 68].
Proof.
  assert (Forall (fun c => is_param c = true) [49; 59; 53]) as Hall
    by (repeat constructor).
  destruct (escape_parameters_ignored [49; 59; 53] Hall) as (_ & Heq & _ & Hleft & _).
  change [27; 91; 49; 59; 53; 68] with (27 :: 91 :: [49; 59; 53] ++ [68]).
  split.
  - rewrite (Hleft sample_instance 97 []) by reflexivity. vm_compute. reflexivity.
  - apply (Heq sample_instance [68]).
Defined.

(** *** Cursor motion and the end of the line *)

Lemma process_all_cursor (r : ReadInstance) (inputs : list (list Z)) :
  Forall (fun cs => exists seqs, Forall cursor_sequence seqs /\ cs = concat seqs)
         inputs ->
  line (process_all r inputs) = line r
  /\ hasEnded (process_all r inputs) = hasEnded r.
Proof.
  intros Hall. revert r. induction Hall as [|cs inputs (seqs & Hseqs & ->) _ IH];
    intros r; [split; reflexivity|].
  simpl. destruct (process_chars_cursor r seqs Hseqs) as (r' & res & -> & Hl & He).
  destruct (IH r') as [Hl' He']. split; congruence.
Qed.

Lemma read_newline_step (f : nat) (push : bool) (s : Local) (cs : list Z) :
  chars s = 10 :: cs ->
  exists s',
    read (S f) push s = Some (s', Ok (Some 10))
    /\ hasEnded (inst s') = true
    /\ backward (inst s') = backward (inst s)
    /\ forward (inst s') = forward (inst s)
    /\ response s' = response s ++ [10]
    /\ line (inst s') = backward (inst s) ++ forward (inst s).
Proof.
  intros Hc. rewrite (read_newline f push s cs Hc).
  eexists. split; [reflexivity|]. repeat split; reflexivity.
Qed.

(** C9. The cursor commands of an escape sequence (right C, left D, home H,
    end F, and any other letter) only move characters between [backward] and
    [forward]: the logical line [backward + forward] and the end flag stay,
    in one step, in a whole call and in any sequence of calls that hold
    cursor sequences only.  The end flag is raised only when a newline is
    read; the step that reads it leaves the buffers alone, and [line] is
    [backward + forward]. *)
Theorem cursor_motion_keeps_line :
  (forall (command : option Z) (args' : jsstring) (s s' : Local) (r : Result unit),
      run_command command args' s = (s', r) ->
      line (inst s') = line (inst s) /\ hasEnded (inst s') = hasEnded (inst s))
  /\ (forall (args' : jsstring) (s : Local),
        (forall c f', forward (inst s) = c :: f' -> dot c = true ->
           exists s', run_command (Some 67) args' s = (s', Ok tt)
             /\ backward (inst s') = backward (inst s) ++ [c]
             /\ forward (inst s') = f')
        /\ (forall c b', backward (inst s) = b' ++ [c] -> dot c = true ->
           exists s', run_command (Some 68) args' s = (s', Ok tt)
             /\ backward (inst s') = b'
             /\ forward (inst s') = c :: forward (inst s))
        /\ (backward (inst s) <> [] ->
           exists s', run_command (Some 72) args' s = (s', Ok tt)
             /\ backward (inst s') = []
             /\ forward (inst s') = backward (inst s) ++ forward (inst s))
        /\ (forward (inst s) <> [] ->
           exists s', run_command (Some 70) args' s = (s', Ok tt)
             /\ backward (inst s') = backward (inst s) ++ forward (inst s)
             /\ forward (inst s') = []))
  /\ (forall (r : ReadInstance) (seqs : list (list Z)),
        Forall cursor_sequence seqs ->
        exists r' res,
          process_chars r (concat seqs) = Some (r', res)
          /\ line r' = line r /\ hasEnded r' = hasEnded r)
  /\ (forall (r : ReadInstance) (inputs : list (list Z)),
        Forall (fun cs => exists seqs, Forall cursor_sequence seqs /\ cs = concat seqs)
               inputs ->
        line (process_all r inputs) = line r
        /\ hasEnded (process_all r inputs) = hasEnded r)
  /\ (forall (r r' : ReadInstance) (cs : list Z) (res : Result jsstring),
        process_chars r cs = Some (r', res) ->
        hasEnded r = false -> hasEnded r' = true -> 10 ∈ cs)
  /\ (forall (r r' : ReadInstance) (value : list byte) (res : Result jsstring),
        process r value = Some (r', res) ->
        hasEnded r = false -> hasEnded r' = true ->
        10 ∈ replace_cr (replace_crlf (TextDecoder_decode value)))
  /\ (forall (f : nat) (push : bool) (s : Local) (cs : list Z),
        chars s = 10 :: cs ->
        exists s',
          read (S f) push s = Some (s', Ok (Some 10))
          /\ hasEnded (inst s') = true
          /\ backward (inst s') = backward (inst s)
          /\ forward (inst s') = forward (inst s)
          /\ line (inst s') = backward (inst s) ++ forward (inst s))
  /\ (forall r : ReadInstance, line r = backward r ++ forward r)
  /\ (forall (r : ReadInstance) (cs : list Z), is_Some (process_chars r cs)).
Proof.
  split; [|split; [|split; [|split; [|split; [|split; [|split; [|split]]]]]]].
  - intros command args' s s' r H.
    destruct (run_command_frame _ _ _ _ _ H) as (_ & He & _ & Hl & _).
    split; assumption.
  - intros args' s. split; [|split; [|split]].
    + intros c f' Hf Hd. rewrite (run_command_right args' s c f' Hf Hd).
      eexists. split; [reflexivity|]. split; reflexivity.
    + intros c b' Hb Hd. rewrite (run_command_left args' s c b' Hb Hd).
      eexists. split; [reflexivity|]. split; reflexivity.
    + intros Hb. rewrite (run_command_home args' s Hb).
      eexists. split; [reflexivity|]. split; reflexivity.
    + intros Hf. rewrite (run_command_end args' s Hf).
      eexists. split; [reflexivity|]. split; reflexivity.
  - apply process_chars_cursor.
  - apply process_all_cursor.
  - apply process_chars_ended.
  - intros r r' value res. unfold process. apply process_chars_ended.
  - intros f push s cs Hc.
    destruct (read_newline_step f push s cs Hc) as (s' & H1 & H2 & H3 & H4 & _ & H6).
    exists s'. repeat split; assumption.
  - reflexivity.
  - apply process_chars_total.
Qed.

(** On "a|bc": left, then end with parameters, then home keep the line "abc";
    a newline ends it. *)
Lemma cursor_motion_keeps_line_witness :
  (exists r' res,
     process_chars sample_instance
       (concat [[27; 91; 68]; [27; 91; 49; 59; 53; 70]; [27; 91; 72]])
     = Some (r', res)
     /\ line r' = [97; 98; 99] /\ hasEnded r' = false)
  /\ 10 ∈ [97; 10].
Proof.
  destruct cursor_motion_keeps_line as (_ & _ & Hcall & _ & Hend & _).
  split.
  - apply (Hcall sample_instance [[27; 91; 68]; [27; 91; 49; 59; 53; 70]; [27; 91; 72]]).
    repeat constructor.
    + exists [], 68. repeat split; [constructor|reflexivity..].
    + exists [49; 59; 53], 70. repeat split; [repeat constructor|reflexivity..].
    + exists [], 72. repeat split; [constructor|reflexivity..].
  - apply (Hend sample_instance {| forward := [98; 99]; backward := [97; 97];
                                   hasEnded := true |} [97; 10]
             (Ok [97; 10; 98; 99; 27; 91; 50; 68])); reflexivity.
Defined.

(** * Further properties of the line discipline *)

(** ** Typing and erasing *)


Lemma typed_nil (s : Local) : typed [] (chars s) s = s.
Proof.
  destruct s as [[f b e] cs resp sc]. unfold typed. simpl.
  rewrite !app_nil_r. reflexivity.
Qed.

Lemma typed_cons (c : Z) (cs rest : list Z) (s : Local) :
  typed cs rest (write [c] (set_backward (backward (inst s) ++ [c]) (shifted s)))
  = typed (c :: cs) rest s.
Proof. unfold typed. simpl. rewrite <- !List.app_assoc. reflexivity. Qed.

(** The loop of [process] on plain characters: each one goes before the
    cursor and into the echo. *)
Lemma loop_typed (cs : list Z) :
  forall (rest : list Z) (n f : nat) (s : Local),
    Forall (fun c => is_plain c = true) cs ->
    chars s = cs ++ rest -> hasEnded (inst s) = false ->
    loop (length cs + n) (S f) s = loop n (S f) (typed cs rest s).
Proof.
  induction cs as [|c cs IH]; intros rest n f s Hall Hc He.
  - simpl in Hc. rewrite <- Hc, typed_nil. reflexivity.
  - apply Forall_cons in Hall as [Hp Hall]. simpl length. simpl plus.
    rewrite loop_S by (rewrite Hc; discriminate).
    rewrite (read_plain f true s c (cs ++ rest) Hc Hp).
    cbn [inst write set_backward shifted set_chars hasEnded]. rewrite He.
    rewrite (IH rest n f); [rewrite typed_cons; reflexivity|exact Hall| |exact He].
    simpl. rewrite Hc. reflexivity.
Qed.



Lemma match_last_snoc (str : jsstring) (d : Z) :
  dot d = true -> match_last (str ++ [d]) = Some [d].
Proof. intros Hd. unfold match_last. rewrite last_snoc, Hd. reflexivity. Qed.

Lemma replace_last_snoc (str : jsstring) (d : Z) :
  dot d = true -> replace_last (str ++ [d]) = str.
Proof.
  intros Hd. unfold replace_last. rewrite (match_last_snoc str d Hd).
  apply removelast_last.
Qed.


Lemma process_chars_loop (r : ReadInstance) (cs : list Z) (n f : nat) :
  (length cs <= n)%nat -> (2 * length cs + 1 <= f)%nat ->
  process_chars r cs = finish (loop n f (start r cs)).
Proof.
  intros Hn Hf. unfold process_chars, finish. fold (start r cs).
  rewrite (loop_fuel (length cs) n (2 * length cs + 2) f (start r cs));
    [reflexivity|simpl; lia..].
Qed.

Lemma process_chars_typed (r : ReadInstance) (cs : list Z) :
  Forall (fun c => is_plain c = true) cs ->
  hasEnded r = false ->
  process_chars r cs
  = Some (with_buffers r (forward r) (backward r ++ cs),
          Ok (cs ++ redraw (forward r) 0)).
Proof.
  intros Hall He.
  rewrite (process_chars_loop r cs (length cs + 0) (S (2 * length cs))) by lia.
  rewrite (loop_typed cs [] 0 (2 * length cs) (start r cs) Hall);
    [|simpl; rewrite app_nil_r; reflexivity|exact He].
  rewrite loop_nil by reflexivity. reflexivity.
Qed.

(** X17. Typing: a call of [process] on plain characters (no backspace,
    escape or newline), on an instance whose line has not ended, puts them
    before the cursor in the order given; the text after the cursor stays.
    The echo is the characters themselves, followed by the text after the
    cursor and the way back over it when there is such text. *)
Theorem typing_inserts_before_cursor (r : ReadInstance) (cs : list Z) :
  Forall (fun c => is_plain c = true) cs ->
  hasEnded r = false ->
  process_chars r cs
  = Some (with_buffers r (forward r) (backward r ++ cs),
          Ok (cs ++ redraw (forward r) 0))
  /\ line (with_buffers r (forward r) (backward r ++ cs))
     = backward r ++ cs ++ forward r.
Proof.
  intros Hall He. split.
  - apply process_chars_typed; assumption.
  - unfold line. simpl. rewrite <- List.app_assoc. reflexivity.
Qed.

Lemma typing_inserts_before_cursor_witness :
  process_chars sample_instance [120; 121]
  = Some ({| forward := [98; 99]; backward := [97; 120; 121]; hasEnded := false |},
          Ok [120; 121; 98; 99; 27; 91; 50; 68]).
Proof.
  destruct (typing_inserts_before_cursor sample_instance [120; 121]) as [H _].
  - repeat constructor.
  - reflexivity.
  - rewrite H. reflexivity.
Defined.





(** ** The newline ends the call *)

Lemma consumed_ended (pre : list Z) (s s' : Local) :
  consumed pre s s' -> hasEnded (inst s) = true -> hasEnded (inst s') = true.
Proof. intros [_ [He | [He _]]] H; [rewrite He|]; assumption. Qed.

Lemma bell_set_chars (cs : list Z) (s : Local) :
  bell (set_chars cs s) = set_chars cs (bell s).
Proof. unfold bell. simpl. destruct (bool_decide _); reflexivity. Qed.

(** [run_command] does not look at the characters that are left. *)
Lemma run_command_set_chars (command : option Z) (args' : jsstring) (cs : list Z)
    (s : Local) :
  run_command command args' (set_chars cs s)
  = (set_chars cs (run_command command args' s).1, (run_command command args' s).2).
Proof.
  destruct command as [c|]; [|reflexivity].
  destruct (Z.eq_dec c 65) as [->|]; [reflexivity|].
  destruct (Z.eq_dec c 66) as [->|]; [reflexivity|].
  destruct (Z.eq_dec c 67) as [->|].
  { unfold run_command. cbn [inst set_chars].
    destruct (bool_decide (forward (inst s) = [])); [rewrite bell_set_chars; reflexivity|].
    destruct (match_first (forward (inst s))); reflexivity. }
  destruct (Z.eq_dec c 68) as [->|].
  { unfold run_command. cbn [inst set_chars].
    destruct (bool_decide (backward (inst s) = [])); [rewrite bell_set_chars; reflexivity|].
    destruct (match_last (backward (inst s))); reflexivity. }
  destruct (Z.eq_dec c 72) as [->|].
  { unfold run_command. cbn [inst set_chars].
    destruct (bool_decide (backward (inst s) = [])); [rewrite bell_set_chars; reflexivity|].
    reflexivity. }
  destruct (Z.eq_dec c 70) as [->|].
  { unfold run_command. cbn [inst set_chars].
    destruct (bool_decide (forward (inst s) = [])); [rewrite bell_set_chars; reflexivity|].
    reflexivity. }
  assert (forall s0 : Local, run_command (Some c) args' s0 = (s0, Ok tt)) as Hother.
  { intros s0. unfold run_command. destruct c as [|c|c]; try reflexivity.
    do 7 (destruct c as [c|c|]; try reflexivity); contradiction. }
  rewrite !Hother. reflexivity.
Qed.

Lemma pending_newline_shifted (s : Local) (c : Z) (cs : list Z) :
  chars s = c :: cs ++ [10] -> 10 ∉ cs -> pending_newline (shifted s).
Proof. intros Hc Hcs. exists cs. split; [simpl; rewrite Hc; reflexivity|exact Hcs]. Qed.

Lemma pending_newline_frame (s s' : Local) :
  chars s' = chars s -> pending_newline s -> pending_newline s'.
Proof. intros Hc (cs & H & Hcs). exists cs. rewrite Hc. split; assumption. Qed.

(** A step on characters that end with their only newline either reads the
    newline, and the line has ended, or leaves it where it is. *)
Lemma read_scan_pending (f : nat) :
  (forall push s s1 r, pending_newline s -> read f push s = Some (s1, r) ->
     hasEnded (inst s1) = true \/ pending_newline s1)
  /\ (forall args' s s1 r, pending_newline s -> scan f args' s = Some (s1, r) ->
        hasEnded (inst s1) = true \/ pending_newline s1).
Proof.
  induction f as [|f [IHr IHs]];
    (split; [intros push s s1 r Hp H | intros args' s s1 r Hp H]); try discriminate.
  - destruct Hp as (cs & Hc & Hcs).
    destruct cs as [|c cs].
    { rewrite (read_newline f push s [] Hc) in H. injection H as <- <-.
      left. reflexivity. }
    simpl in Hc. apply not_elem_of_cons in Hcs as [Hne Hcs].
    pose proof (pending_newline_shifted s c cs Hc Hcs) as Hsh.
    destruct (char_classes c) as [Hbs | [-> | [-> | Hpl]]].
    + destruct (decide (backward (inst s) = [])) as [Hb|Hb].
      * rewrite (read_backspace_empty f _ _ _ _ Hc Hbs Hb) in H. injection H as <- <-.
        right. apply (pending_newline_frame (shifted s)); [|exact Hsh].
        apply bell_frame.
      * rewrite (read_backspace f _ _ _ _ Hc Hbs Hb) in H.
        destruct (match_last (backward (inst s))); injection H as <- <-;
          right; (apply (pending_newline_frame (shifted s)); [reflexivity|exact Hsh]).
    + rewrite (read_escape_cases f _ _ _ Hc) in H.
      destruct (read f false (shifted s)) as [[s2 r2]|] eqn:E1; [|discriminate].
      pose proof (IHr _ _ _ _ Hsh E1) as H2.
      destruct r2 as [r2|e]; [|injection H as <- <-; exact H2].
      destruct (bool_decide (r2 = Some 91)); [|injection H as <- <-; exact H2].
      destruct (scan f [] s2) as [[s3 r3]|] eqn:E2; [|discriminate].
      assert (hasEnded (inst s3) = true \/ pending_newline s3) as H3.
      { destruct H2 as [H2 | H2]; [|apply (IHs _ _ _ _ H2 E2)].
        left. destruct (proj2 (read_scan_consumed f) _ _ _ _ E2) as (pre & Hcons).
        apply (consumed_ended _ _ _ Hcons H2). }
      destruct r3 as [[args3 command]|e]; [|injection H as <- <-; exact H3].
      destruct (run_command command args3 s3) as [s4 r4] eqn:E3.
      destruct (run_command_frame _ _ _ _ _ E3) as (Hch & He & _).
      assert (hasEnded (inst s4) = true \/ pending_newline s4) as H4.
      { destruct H3 as [H3 | H3]; [left; rewrite He; exact H3|right].
        apply (pending_newline_frame s3); assumption. }
      destruct r4; injection H as <- <-; exact H4.
    + contradiction.
    + rewrite (read_plain f _ _ _ _ Hc Hpl) in H. injection H as <- <-.
      right. apply (pending_newline_frame (shifted s)); [|exact Hsh].
      destruct push; reflexivity.
  - rewrite scan_S in H.
    destruct (read f false s) as [[s2 r2]|] eqn:E1; [|discriminate].
    pose proof (IHr _ _ _ _ Hp E1) as H2.
    destruct r2 as [[c2|]|e]; try (injection H as <- <-; exact H2).
    destruct (is_param c2); [|injection H as <- <-; exact H2].
    destruct H2 as [H2 | H2]; [|apply (IHs _ _ _ _ H2 H)].
    left. destruct (proj2 (read_scan_consumed f) _ _ _ _ H) as (pre & Hcons).
    apply (consumed_ended _ _ _ Hcons H2).
Qed.

Lemma extend_shifted (s : Local) (c : Z) (cs post : list Z) :
  chars s = c :: cs ->
  shifted (set_chars (chars s ++ post) s)
  = set_chars (chars (shifted s) ++ post) (shifted s).
Proof. intros Hc. unfold shifted. simpl. rewrite Hc. reflexivity. Qed.

(** What a step does on characters that end with their only newline does
    not depend on what follows the newline. *)
Lemma read_scan_extend (f : nat) :
  (forall push s post, pending_newline s ->
     read f push (set_chars (chars s ++ post) s) = extend_chars post (read f push s))
  /\ (forall args' s post, pending_newline s ->
        scan f args' (set_chars (chars s ++ post) s)
        = extend_chars post (scan f args' s)).
Proof.
  induction f as [|f [IHr IHs]];
    (split; [intros push s post Hp | intros args' s post Hp]); try reflexivity.
  - destruct Hp as (cs & Hc & Hcs).
    assert (chars (set_chars (chars s ++ post) s) = chars s ++ post) as HcL
      by reflexivity.
    destruct cs as [|c cs].
    { simpl in Hc. rewrite (read_newline f push s [] Hc).
      rewrite (read_newline f push _ post) by (rewrite HcL, Hc; reflexivity).
      unfold extend_chars, shifted. simpl. rewrite Hc. reflexivity. }
    simpl in Hc. apply not_elem_of_cons in Hcs as [Hne Hcs].
    pose proof (pending_newline_shifted s c cs Hc Hcs) as Hsh.
    assert (chars (set_chars (chars s ++ post) s) = c :: (cs ++ [10]) ++ post)
      as HcL' by (rewrite HcL, Hc; reflexivity).
    pose proof (extend_shifted s c (cs ++ [10]) post Hc) as Hshift.
    destruct (char_classes c) as [Hbs | [-> | [-> | Hpl]]].
    + destruct (decide (backward (inst s) = [])) as [Hb|Hb].
      * rewrite (read_backspace_empty f _ s _ _ Hc Hbs Hb).
        rewrite (read_backspace_empty f _ _ _ _ HcL' Hbs Hb).
        rewrite Hshift, bell_set_chars. unfold extend_chars.
        destruct (bell_frame (shifted s)) as (_ & -> & _). reflexivity.
      * rewrite (read_backspace f _ s _ _ Hc Hbs Hb).
        rewrite (read_backspace f _ _ _ _ HcL' Hbs Hb).
        rewrite Hshift. cbn [inst set_chars].
        destruct (match_last (backward (inst s))); reflexivity.
    + rewrite (read_escape_cases f _ s _ Hc).
      rewrite (read_escape_cases f _ _ _ HcL').
      rewrite Hshift, (IHr false (shifted s) post Hsh).
      destruct (read f false (shifted s)) as [[s2 r2]|] eqn:E1; [|reflexivity].
      cbn [extend_chars].
      destruct r2 as [r2|e]; [|reflexivity].
      destruct (bool_decide (r2 = Some 91)) eqn:E91; [|reflexivity].
      apply bool_decide_eq_true in E91. subst r2.
      assert (pending_newline s2) as Hp2.
      { destruct (proj1 (read_scan_consumed f) _ _ _ _ E1) as (pre & _ & Hm).
        destruct cs as [|c0 cs0].
        - simpl in Hm. rewrite Hc in Hm. simpl in Hm.
          destruct Hm as [_ Hm]. specialize (Hm _ eq_refl). discriminate.
        - simpl in Hm. rewrite Hc in Hm. simpl in Hm.
          destruct Hm as [_ Hm]. specialize (Hm _ eq_refl). injection Hm as <-.
          destruct f as [|f']; [discriminate|].
          rewrite (read_plain f' false (shifted s) 91 (cs0 ++ [10])) in E1;
            [|simpl; rewrite Hc; reflexivity|reflexivity].
          injection E1 as <-.
          apply not_elem_of_cons in Hcs as [_ Hcs].
          exists cs0. split; [simpl; rewrite Hc; reflexivity|exact Hcs]. }
      rewrite (IHs [] s2 post Hp2).
      destruct (scan f [] s2) as [[s3 r3]|]; [|reflexivity].
      cbn [extend_chars].
      destruct r3 as [[args3 command]|e]; [|reflexivity].
      rewrite run_command_set_chars.
      destruct (run_command command args3 s3) as [s4 r4] eqn:E3.
      destruct (run_command_frame _ _ _ _ _ E3) as (Hch & _).
      cbn [fst snd]. rewrite <- Hch.
      destruct r4; reflexivity.
    + contradiction.
    + rewrite (read_plain f _ s _ _ Hc Hpl).
      rewrite (read_plain f _ _ _ _ HcL' Hpl).
      rewrite Hshift. destruct push; reflexivity.
  - rewrite !scan_S. rewrite (IHr false s post Hp).
    destruct (read f false s) as [[s2 r2]|] eqn:E1; [|reflexivity].
    cbn [extend_chars].
    destruct r2 as [[c2|]|e]; try reflexivity.
    destruct (is_param c2) eqn:Hpar; [|reflexivity].
    assert (pending_newline s2) as Hp2.
    { destruct Hp as (cs & Hc & Hcs).
      destruct (proj1 (read_scan_consumed f) _ _ _ _ E1) as (pre & _ & Hm).
      destruct cs as [|c0 cs0].
      - simpl in Hc. rewrite Hc in Hm. destruct Hm as [_ Hm].
        specialize (Hm _ eq_refl). injection Hm as ->. discriminate.
      - simpl in Hc. rewrite Hc in Hm. destruct Hm as [_ Hm].
        specialize (Hm _ eq_refl). injection Hm as ->.
        destruct f as [|f']; [discriminate|].
        rewrite (read_plain f' false s c0 (cs0 ++ [10]) Hc (is_param_plain _ Hpar)) in E1.
        injection E1 as <-.
        apply not_elem_of_cons in Hcs as [_ Hcs].
        exists cs0. split; [simpl; rewrite Hc; reflexivity|exact Hcs]. }
    apply (IHs _ s2 post Hp2).
Qed.

Lemma loop_extend (n f : nat) :
  forall (s : Local) (post : list Z),
    pending_newline s ->
    loop n f (set_chars (chars s ++ post) s) = extend_chars post (loop n f s).
Proof.
  induction n as [|n IH]; intros s post Hp.
  - destruct Hp as (cs & Hc & _). simpl. rewrite Hc.
    destruct cs; reflexivity.
  - assert (chars s <> []) as Hne
      by (destruct Hp as (cs & Hc & _); rewrite Hc; destruct cs; discriminate).
    rewrite (loop_S n f s Hne).
    rewrite loop_S by (simpl; destruct (chars s); [contradiction|discriminate]).
    rewrite (proj1 (read_scan_extend f) true s post Hp).
    destruct (read f true s) as [[s1 r1]|] eqn:E1; [|reflexivity].
    cbn [extend_chars]. destruct r1 as [r1|e]; [|reflexivity].
    cbn [inst set_chars].
    destruct (hasEnded (inst s1)) eqn:He; [reflexivity|].
    destruct (proj1 (read_scan_pending f) _ _ _ _ Hp E1) as [H1 | H1];
      [congruence|].
    apply (IH s1 post H1).
Qed.

(** X20. The first newline ends the call: what follows it in the same
    input is neither read nor kept.  A call of [process] on characters with a
    newline among them ends as the call on the characters up to the first
    newline does, for every instance, and when it returns an echo the line
    has ended.  Without a newline in the input the line of an instance that
    had not ended does not end. *)
Theorem input_after_newline_is_dropped (r : ReadInstance) (pre post : list Z) :
  10 ∉ pre ->
  process_chars r (pre ++ 10 :: post) = process_chars r (pre ++ [10])
  /\ (forall r' e, process_chars r (pre ++ 10 :: post) = Some (r', Ok e) ->
        hasEnded r' = true)
  /\ (hasEnded r = false ->
      forall r' res, process_chars r pre = Some (r', res) -> hasEnded r' = false).
Proof.
  intros Hpre.
  assert (hasEnded r = false ->
          forall r' res, process_chars r pre = Some (r', res) -> hasEnded r' = false)
    as Hnone.
  { intros He r' res H. destruct (hasEnded r') eqn:He'; [|reflexivity].
    exfalso. apply Hpre. apply (process_chars_ended r r' pre res H He He'). }
  assert (pending_newline (start r (pre ++ [10]))) as Hp
    by (exists pre; split; [reflexivity|exact Hpre]).
  assert (start r (pre ++ 10 :: post)
          = set_chars (chars (start r (pre ++ [10])) ++ post) (start r (pre ++ [10])))
    as Hstart by (unfold start; simpl; rewrite <- List.app_assoc; reflexivity).
  set (n := length (pre ++ 10 :: post)).
  assert (length (pre ++ [10%Z]) <= n)%nat as Hn
    by (unfold n; rewrite !length_app; simpl; lia).
  assert (process_chars r (pre ++ 10 :: post)
          = finish (extend_chars post (loop n (2 * n + 1) (start r (pre ++ [10])))))
    as Hlong.
  { rewrite (process_chars_loop r (pre ++ 10 :: post) n (2 * n + 1)) by (unfold n; lia).
    rewrite Hstart, (loop_extend n (2 * n + 1) _ post Hp). reflexivity. }
  assert (process_chars r (pre ++ [10])
          = finish (loop n (2 * n + 1) (start r (pre ++ [10])))) as Hshort
    by (apply process_chars_loop; lia).
  split; [|split; [|exact Hnone]].
  - rewrite Hlong, Hshort.
    destruct (loop n (2 * n + 1) (start r (pre ++ [10]))) as [[s1 [u|e]]|]; reflexivity.
  - intros r' e. rewrite Hlong.
    destruct (loop n (2 * n + 1) (start r (pre ++ [10]))) as [[s1 [u|e1]]|] eqn:E;
      try discriminate.
    cbn [extend_chars finish inst set_chars]. intros [= <- _].
    assert (forall m f s s', loop m f s = Some (s', Ok tt) ->
              hasEnded (inst s') = true \/ chars s' = []) as Hloop.
    { clear. induction m as [|m IH]; intros f s s' H.
      - simpl in H. destruct (chars s) eqn:Hc; [|discriminate].
        injection H as <-. right. exact Hc.
      - destruct (decide (chars s = [])) as [Hnil|Hne].
        + rewrite loop_nil in H by exact Hnil. injection H as <-. right. exact Hnil.
        + rewrite loop_S in H by exact Hne.
          destruct (read f true s) as [[s1 [r1|e1]]|]; try discriminate.
          destruct (hasEnded (inst s1)) eqn:He; [injection H as <-; left; exact He|].
          apply (IH _ _ _ H). }
    destruct u. destruct (Hloop _ _ _ _ E) as [He | Hnil]; [exact He|].
    assert (forall m f s s' res, pending_newline s -> loop m f s = Some (s', res) ->
              hasEnded (inst s') = true \/ pending_newline s') as Hpend.
    { clear. induction m as [|m IH]; intros f s s' res Hp H.
      - simpl in H. destruct (chars s) eqn:Hc; [|discriminate].
        injection H as <- _. right. exact Hp.
      - assert (chars s <> []) as Hne
          by (destruct Hp as (cs & Hc & _); rewrite Hc; destruct cs; discriminate).
        rewrite loop_S in H by exact Hne.
        destruct (read f true s) as [[s1 r1]|] eqn:E1; [|discriminate].
        pose proof (proj1 (read_scan_pending f) _ _ _ _ Hp E1) as H1.
        destruct r1 as [r1|e1]; [|injection H as <- _; exact H1].
        destruct (hasEnded (inst s1)) eqn:He; [injection H as <- _; left; exact He|].
        destruct H1 as [H1|H1]; [congruence|]. apply (IH _ _ _ _ H1 H). }
    destruct (Hpend _ _ _ _ _ Hp E) as [He | (cs & Hc & _)]; [exact He|].
    rewrite Hnil in Hc. destruct cs; discriminate.
Qed.

Lemma input_after_newline_is_dropped_witness :
  process_chars new_ReadInstance [104; 105; 10; 120; 121; 10; 122]
  = Some ({| forward := []; backward := [104; 105]; hasEnded := true |},
          Ok [104; 105; 10]).
Proof.
  destruct (input_after_newline_is_dropped new_ReadInstance [104; 105]
              [120; 121; 10; 122]) as (H & _ & _).
  - intros Hin. repeat (apply elem_of_cons in Hin as [Hin|Hin]; [discriminate|]).
    apply elem_of_nil in Hin. exact Hin.
  - simpl app in H. rewrite H. reflexivity.
Defined.

(** ** An instance whose line has ended *)

Lemma loop_ended (n f : nat) (s s' : Local) (res : Result unit) :
  loop n f s = Some (s', res) -> hasEnded (inst s) = true ->
  hasEnded (inst s') = true.
Proof.
  intros H He. destruct (loop_consumed _ _ _ _ _ H) as (pre & Hcons).
  apply (consumed_ended _ _ _ Hcons He).
Qed.

(** X21. An instance is not made new when its line has ended: it stays
    ended, and every later call of [process] handles one key of its input
    and leaves the rest unread.  A plain character is still put before the
    cursor. *)
Theorem ended_instance_takes_one_key (r : ReadInstance) :
  hasEnded r = true ->
  (forall cs r' res, process_chars r cs = Some (r', res) -> hasEnded r' = true)
  /\ (forall c cs,
        is_plain c = true ->
        process_chars r (c :: cs)
        = Some (with_buffers r (forward r) (backward r ++ [c]),
                Ok ([c] ++ redraw (forward r) 0))).
Proof.
  intros He. split.
  - intros cs r' res. unfold process_chars.
    destruct (loop _ _ _) as [[s1 res1]|] eqn:E; [|discriminate].
    pose proof (loop_ended _ _ _ _ _ E He) as He1.
    destruct res1; intros [= <- _]; exact He1.
  - intros c cs Hc.
    rewrite (process_chars_loop r (c :: cs) (S (length cs)) (S (2 * length (c :: cs))))
      by (simpl; lia).
    rewrite loop_S by discriminate.
    rewrite (read_plain _ true (start r (c :: cs)) c cs eq_refl Hc).
    cbn [inst write set_backward shifted set_chars hasEnded start]. rewrite He.
    reflexivity.
Qed.

Lemma ended_instance_takes_one_key_witness :
  process_chars {| forward := []; backward := [104; 105]; hasEnded := true |}
    [120; 121; 122]
  = Some ({| forward := []; backward := [104; 105; 120]; hasEnded := true |},
          Ok [120]).
Proof.
  destruct (ended_instance_takes_one_key
              {| forward := []; backward := [104; 105]; hasEnded := true |} eq_refl)
    as [_ H].
  rewrite (H 120 [121; 122] eq_refl). reflexivity.
Defined.

(** ** Cursor commands one after the other *)


Lemma run_command_bell (cmd : Z) (args' : jsstring) (s : Local) :
  (cmd = 67 \/ cmd = 70) /\ forward (inst s) = []
  \/ (cmd = 68 \/ cmd = 72) /\ backward (inst s) = [] ->
  run_command (Some cmd) args' s = (bell s, Ok tt).
Proof.
  intros [[[-> | ->] H] | [[-> | ->] H]]; unfold run_command; rewrite H; reflexivity.
Qed.

Lemma with_buffers_same (r : ReadInstance) :
  with_buffers r (forward r) (backward r) = r.
Proof. destruct r. reflexivity. Qed.

Lemma inst_bell (s : Local) : inst (bell s) = inst s.
Proof. apply bell_frame. Qed.





(** ** An escape character without its sequence *)






(** ** What the input leaves alone *)

Lemma read_no_escape (f : nat) (push : bool) (s s1 : Local)
    (r : Result (option Z)) (c : Z) (cs : list Z) :
  chars s = c :: cs -> c <> 27 -> read (S f) push s = Some (s1, r) ->
  forward (inst s1) = forward (inst s) /\ chars s1 = cs.
Proof.
  intros Hc Hne H.
  assert (chars (shifted s) = cs) as Hsh by (simpl; rewrite Hc; reflexivity).
  destruct (char_classes c) as [Hbs | [-> | [-> | Hpl]]].
  - destruct (decide (backward (inst s) = [])) as [Hb|Hb].
    + rewrite (read_backspace_empty f _ _ _ _ Hc Hbs Hb) in H. injection H as <- <-.
      destruct (bell_frame (shifted s)) as (-> & -> & _). split; [reflexivity|exact Hsh].
    + rewrite (read_backspace f _ _ _ _ Hc Hbs Hb) in H.
      destruct (match_last (backward (inst s))); injection H as <- <-;
        (split; [reflexivity|exact Hsh]).
  - contradiction.
  - rewrite (read_newline f _ _ _ Hc) in H. injection H as <- <-.
    split; [reflexivity|exact Hsh].
  - rewrite (read_plain f _ _ _ _ Hc Hpl) in H. injection H as <- <-.
    destruct push; (split; [reflexivity|exact Hsh]).
Qed.

Lemma loop_no_escape (n f : nat) :
  forall (s s' : Local) (res : Result unit),
    27 ∉ chars s -> loop n (S f) s = Some (s', res) ->
    forward (inst s') = forward (inst s).
Proof.
  induction n as [|n IH]; intros s s' res Hno H.
  - simpl in H. destruct (chars s); [|discriminate]. injection H as <- _. reflexivity.
  - destruct (chars s) as [|c cs] eqn:Hc.
    + rewrite loop_nil in H by exact Hc. injection H as <- _. reflexivity.
    + rewrite loop_S in H by (rewrite Hc; discriminate).
      apply not_elem_of_cons in Hno as [Hne Hno].
      destruct (read (S f) true s) as [[s1 r1]|] eqn:E1; [|discriminate].
      destruct (read_no_escape f true s s1 r1 c cs Hc (not_eq_sym Hne) E1) as [Hf Hc1].
      destruct r1 as [r1|e]; [|injection H as <- _; exact Hf].
      destruct (hasEnded (inst s1)); [injection H as <- _; exact Hf|].
      rewrite <- Hf. apply (IH s1 s' res); [rewrite Hc1; exact Hno|exact H].
Qed.

(** X24. Without an escape character in the input a call of [process]
    never touches the text after the cursor: typing, erasing and the newline
    work on the text before it. *)
Theorem text_after_cursor_needs_escape
    (r r' : ReadInstance) (cs : list Z) (res : Result jsstring) :
  27 ∉ cs ->
  process_chars r cs = Some (r', res) ->
  forward r' = forward r.
Proof.
  intros Hno. unfold process_chars.
  replace (2 * length cs + 2)%nat with (S (2 * length cs + 1)) by lia.
  destruct (loop _ _ _) as [[s1 res1]|] eqn:E; [|discriminate].
  pose proof (loop_no_escape _ _ (start r cs) _ _ Hno E) as Hf.
  destruct res1; intros [= <- _]; exact Hf.
Qed.

Lemma text_after_cursor_needs_escape_witness :
  forward {| forward := [98; 99]; backward := [120]; hasEnded := true |}
  = forward sample_instance.
Proof.
  apply (text_after_cursor_needs_escape sample_instance _ [127; 120; 10]
           (Ok [27; 91; 49; 68; 120; 10; 98; 99; 32; 27; 91; 51; 68])).
  - intros Hin. repeat (apply elem_of_cons in Hin as [Hin|Hin]; [discriminate|]).
    apply elem_of_nil in Hin. exact Hin.
  - vm_compute. reflexivity.
Defined.

(** ** A line separator before the cursor *)




(** ** Bytes: carriage return and newline *)

Lemma utf8_decode_ascii (codes : list Z) :
  Forall (fun b => b <= 127) codes -> utf8_decode None codes = codes.
Proof.
  induction codes as [|b codes IH]; intros Hall; [reflexivity|].
  apply Forall_cons in Hall as [Hb Hall]. simpl. unfold utf8_first.
  destruct (Z.leb_spec b 127); [|lia]. simpl. rewrite (IH Hall). reflexivity.
Qed.

Lemma no_byte_order_mark (c : Z) (str : jsstring) :
  c <> 65279 ->
  match c :: str with
  | 65279 :: str' => str'
  | str' => str'
  end = c :: str.
Proof.
  intros Hne. destruct c as [|p|p]; try reflexivity.
  do 16 (destruct p as [p|p|]; try reflexivity). contradiction.
Qed.

Lemma TextDecoder_decode_ascii (bs : list byte) :
  Forall (fun b => (Byte.to_N b < 128)%N) bs ->
  TextDecoder_decode bs = ascii_codes bs.
Proof.
  intros Hall. unfold TextDecoder_decode. fold (ascii_codes bs).
  assert (Forall (fun b => b <= 127) (ascii_codes bs)) as Hcodes.
  { unfold ascii_codes. apply Forall_fmap. eapply Forall_impl; [exact Hall|].
    intros b Hb. cbv beta. apply N2Z.inj_lt in Hb.
    change (Z.of_N 128) with 128 in Hb. apply Z.lt_succ_r. exact Hb. }
  rewrite (utf8_decode_ascii _ Hcodes).
  destruct (ascii_codes bs) as [|c str]; [reflexivity|].
  apply no_byte_order_mark. apply Forall_cons in Hcodes as [Hc _]. lia.
Qed.

Lemma replace_crlf_cons (c : Z) (str : jsstring) :
  c <> 13 -> replace_crlf (c :: str) = c :: replace_crlf str.
Proof.
  intros Hne. destruct c as [|p|p]; try reflexivity.
  do 4 (destruct p as [p|p|]; try reflexivity). contradiction.
Qed.

Lemma replace_crlf_app (str tail' : jsstring) :
  13 ∉ str -> replace_crlf (str ++ tail') = str ++ replace_crlf tail'.
Proof.
  induction str as [|c str IH]; intros Hno; [reflexivity|].
  apply not_elem_of_cons in Hno as [Hne Hno]. simpl app.
  rewrite replace_crlf_cons by congruence. rewrite (IH Hno). reflexivity.
Qed.

Lemma replace_cr_id (str : jsstring) : 13 ∉ str -> replace_cr str = str.
Proof.
  induction str as [|c str IH]; intros Hno; [reflexivity|].
  apply not_elem_of_cons in Hno as [Hne Hno]. unfold replace_cr in *.
  rewrite fmap_cons, (IH Hno).
  destruct (Z.eqb_spec c 13); [congruence|reflexivity].
Qed.

Lemma normalised (str tail' : jsstring) :
  13 ∉ str ->
  replace_cr (replace_crlf (str ++ tail')) = str ++ replace_cr (replace_crlf tail').
Proof.
  intros Hno. rewrite (replace_crlf_app str tail' Hno).
  unfold replace_cr. rewrite fmap_app. fold (replace_cr str).
  rewrite (replace_cr_id str Hno). reflexivity.
Qed.

Lemma ascii_codes_no_cr (bs : list byte) : x0d ∉ bs -> 13 ∉ ascii_codes bs.
Proof.
  intros Hno Hin. apply Hno. unfold ascii_codes in Hin.
  apply list_elem_of_fmap in Hin as (b & Hb & Hin).
  assert (Byte.to_N b = 13%N) as Hn by (apply N2Z.inj; symmetry; exact Hb).
  pose proof (Byte.of_to_N b) as Hof. rewrite Hn in Hof.
  injection Hof as <-. exact Hin.
Qed.

(** X26. The end of a line may come as a carriage return, as a newline or
    as the two together: after bytes below 128 with no carriage return among
    them, [process] does the same in the three cases, which is what it does on
    the characters of these bytes followed by one newline. *)
Theorem carriage_return_is_newline (r : ReadInstance) (bs : list byte) :
  Forall (fun b => (Byte.to_N b < 128)%N) bs ->
  x0d ∉ bs ->
  process r (bs ++ [x0a]) = process_chars r (ascii_codes bs ++ [10])
  /\ process r (bs ++ [x0d]) = process r (bs ++ [x0a])
  /\ process r (bs ++ [x0d; x0a]) = process r (bs ++ [x0a])
  /\ process r bs = process_chars r (ascii_codes bs).
Proof.
  intros Hall Hno.
  pose proof (ascii_codes_no_cr bs Hno) as Hcr.
  assert (forall tail', Forall (fun b => (Byte.to_N b < 128)%N) tail' ->
            process r (bs ++ tail')
            = process_chars r (ascii_codes bs
                                 ++ replace_cr (replace_crlf (ascii_codes tail'))))
    as Hrun.
  { intros tail' Htail. unfold process.
    rewrite TextDecoder_decode_ascii by (apply Forall_app; split; assumption).
    unfold ascii_codes at 1. rewrite fmap_app.
    fold (ascii_codes bs). fold (ascii_codes tail').
    rewrite (normalised _ _ Hcr). reflexivity. }
  split; [|split; [|split]].
  - rewrite Hrun by (repeat constructor). reflexivity.
  - rewrite !Hrun by (repeat constructor). reflexivity.
  - rewrite !Hrun by (repeat constructor). reflexivity.
  - rewrite <- (app_nil_r bs) at 1. rewrite Hrun by constructor.
    simpl. rewrite app_nil_r. reflexivity.
Qed.

Lemma carriage_return_is_newline_witness :
  process new_ReadInstance [x68; x69; x0d; x0a]
  = Some ({| forward := []; backward := [104; 105]; hasEnded := true |},
          Ok [104; 105; 10])
  /\ process new_ReadInstance [x68; x69; x0d]
     = process new_ReadInstance [x68; x69; x0a].
Proof.
  destruct (carriage_return_is_newline new_ReadInstance [x68; x69])
    as (H1 & H2 & H3 & _).
  - repeat constructor.
  - intros Hin. repeat (apply elem_of_cons in Hin as [Hin|Hin]; [discriminate|]).
    apply elem_of_nil in Hin. exact Hin.
  - split; [|exact H2].
    simpl app in H3. rewrite H3. simpl app in H1. rewrite H1. reflexivity.
Defined.

(** ** [process] returns, and when it throws *)

(** X27. [process] comes to an end on every instance and every input, with
    an echo or with an exception: the nested reading of escape sequences
    stops because every step takes a character, and the result is the same
    for every bound on the rounds and on the depth that is large enough. *)
Theorem process_always_returns (r : ReadInstance) (value : list byte) :
  let cs := replace_cr (replace_crlf (TextDecoder_decode value)) in
  exists r' res,
    process r value = Some (r', res)
    /\ forall n f : nat,
         (length cs <= n)%nat -> (2 * length cs + 1 <= f)%nat ->
         finish (loop n f (start r cs)) = Some (r', res).
Proof.
  intros cs. unfold process. fold cs.
  destruct (process_chars_total r cs) as [[r' res] H].
  exists r', res. split; [exact H|].
  intros n f Hn Hf. rewrite <- (process_chars_loop r cs n f Hn Hf). exact H.
Qed.

Lemma process_always_returns_witness :
  exists r' res,
    process new_ReadInstance [x1b; x1b; x5b; x31; x1b; x5b; x44; x7f] = Some (r', res)
    /\ finish (loop 8 17 (start new_ReadInstance [27; 27; 91; 49; 27; 91; 68; 127]))
       = Some (r', res).
Proof.
  destruct (process_always_returns new_ReadInstance
              [x1b; x1b; x5b; x31; x1b; x5b; x44; x7f]) as (r' & res & H & Hfuel).
  exists r', res. split; [exact H|].
  apply (Hfuel 8%nat 17%nat); vm_compute; lia.
Defined.

Lemma run_command_clean (command : option Z) (args' : jsstring) (s s' : Local)
    (res : Result unit) :
  clean (inst s) -> run_command command args' s = (s', res) ->
  clean (inst s') /\ res = Ok tt.
Proof.
  intros [Hb Hf] H.
  assert (clean (inst (bell s))) as Hbell
    by (rewrite inst_bell; split; assumption).
  destruct command as [c|]; [|injection H as <- <-; repeat split; assumption].
  destruct (Z.eq_dec c 65) as [->|]; [injection H as <- <-; repeat split; assumption|].
  destruct (Z.eq_dec c 66) as [->|]; [injection H as <- <-; repeat split; assumption|].
  destruct (Z.eq_dec c 67) as [->|].
  { destruct (forward (inst s)) as [|d f'] eqn:Ef.
    - rewrite run_command_bell in H by (left; split; [left; reflexivity|exact Ef]).
      injection H as <- <-. split; [exact Hbell|reflexivity].
    - apply Forall_cons in Hf as [Hd Hf].
      rewrite (run_command_right args' s d f' Ef Hd) in H. injection H as <- <-.
      split; [|reflexivity]. split; simpl; [|exact Hf].
      apply Forall_app. split; [exact Hb|]. apply Forall_singleton. exact Hd. }
  destruct (Z.eq_dec c 68) as [->|].
  { destruct (decide (backward (inst s) = [])) as [Eb|Eb].
    - rewrite run_command_bell in H by (right; split; [left; reflexivity|exact Eb]).
      injection H as <- <-. split; [exact Hbell|reflexivity].
    - destruct (exists_last Eb) as (b' & d & Eb').
      rewrite Eb' in Hb. apply Forall_app in Hb as [Hb Hd].
      rewrite Forall_singleton in Hd.
      rewrite (run_command_left args' s d b' Eb' Hd) in H. injection H as <- <-.
      split; [|reflexivity]. split; simpl; [exact Hb|].
      apply Forall_cons. split; assumption. }
  destruct (Z.eq_dec c 72) as [->|].
  { destruct (decide (backward (inst s) = [])) as [Eb|Eb].
    - rewrite run_command_bell in H by (right; split; [right; reflexivity|exact Eb]).
      injection H as <- <-. split; [exact Hbell|reflexivity].
    - rewrite (run_command_home args' s Eb) in H. injection H as <- <-.
      split; [|reflexivity]. split; simpl; [constructor|].
      apply Forall_app. split; assumption. }
  destruct (Z.eq_dec c 70) as [->|].
  { destruct (decide (forward (inst s) = [])) as [Ef|Ef].
    - rewrite run_command_bell in H by (left; split; [right; reflexivity|exact Ef]).
      injection H as <- <-. split; [exact Hbell|reflexivity].
    - rewrite (run_command_end args' s Ef) in H. injection H as <- <-.
      split; [|reflexivity]. split; simpl; [|constructor].
      apply Forall_app. split; assumption. }
  assert (run_command (Some c) args' s = (s, Ok tt)) as Hother.
  { unfold run_command. destruct c as [|c|c]; try reflexivity.
    do 7 (destruct c as [c|c|]; try reflexivity); contradiction. }
  rewrite Hother in H. injection H as <- <-. repeat split; assumption.
Qed.

Lemma consumed_harmless (pre : list Z) (s s' : Local) :
  consumed pre s s' -> Forall harmless (chars s) -> Forall harmless (chars s').
Proof. intros [Hc _] H. rewrite Hc in H. apply Forall_app in H. apply H. Qed.

(** On an instance without line separators, and harmless characters, no
    step throws, and the instance stays without line separators. *)
Lemma read_scan_clean (f : nat) :
  (forall push s s1 res,
      clean (inst s) -> Forall harmless (chars s) ->
      read f push s = Some (s1, res) ->
      clean (inst s1) /\ exists v, res = Ok v)
  /\ (forall args' s s1 res,
        clean (inst s) -> Forall harmless (chars s) ->
        scan f args' s = Some (s1, res) ->
        clean (inst s1) /\ exists v, res = Ok v).
Proof.
  induction f as [|f [IHr IHs]];
    (split; [intros push s s1 res Hcl Hh H | intros args' s s1 res Hcl Hh H]);
    try discriminate.
  - destruct (chars s) as [|c cs] eqn:Hc.
    + rewrite (read_end f) in H by exact Hc. injection H as <- <-.
      split; [|eexists; reflexivity].
      destruct push; [|exact Hcl]. destruct Hcl as [Hb Hf]. split; [|exact Hf].
      simpl. apply Forall_app. split; [exact Hb|]. repeat constructor.
    + apply Forall_cons in Hh as [Hhc Hh].
      assert (Forall harmless (chars (shifted s))) as Hsh
        by (simpl; rewrite Hc; exact Hh).
      destruct (char_classes c) as [Hbs | [-> | [-> | Hpl]]].
      * destruct (decide (backward (inst s) = [])) as [Hb|Hb].
        -- rewrite (read_backspace_empty f _ _ _ _ Hc Hbs Hb) in H.
           injection H as <- <-. rewrite inst_bell.
           split; [exact Hcl|eexists; reflexivity].
        -- rewrite (read_backspace f _ _ _ _ Hc Hbs Hb) in H.
           destruct (exists_last Hb) as (b' & d & Eb).
           destruct Hcl as [Hcb Hcf]. rewrite Eb in Hcb.
           apply Forall_app in Hcb as [Hcb Hd]. rewrite Forall_singleton in Hd.
           rewrite Eb, (match_last_snoc b' d Hd), (replace_last_snoc b' d Hd) in H.
           injection H as <- <-. split; [|eexists; reflexivity].
           split; simpl; assumption.
      * rewrite (read_escape_cases f _ _ _ Hc) in H.
        destruct (read f false (shifted s)) as [[s2 r2]|] eqn:E1; [|discriminate].
        destruct (IHr false (shifted s) _ _ Hcl Hsh E1) as [Hcl2 [v2 ->]].
        destruct (bool_decide (v2 = Some 91));
          [|injection H as <- <-; split; [exact Hcl2|eexists; reflexivity]].
        destruct (scan f [] s2) as [[s3 r3]|] eqn:E2; [|discriminate].
        destruct (proj1 (read_scan_consumed f) _ _ _ _ E1) as (pre1 & Hcons1 & _).
        destruct (IHs _ _ _ _ Hcl2 (consumed_harmless _ _ _ Hcons1 Hsh) E2)
          as [Hcl3 [[args3 command] ->]].
        destruct (run_command command args3 s3) as [s4 r4] eqn:E3.
        destruct (run_command_clean _ _ _ _ _ Hcl3 E3) as [Hcl4 ->].
        injection H as <- <-. split; [exact Hcl4|eexists; reflexivity].
      * rewrite (read_newline f _ _ _ Hc) in H. injection H as <- <-.
        split; [exact Hcl|eexists; reflexivity].
      * rewrite (read_plain f _ _ _ _ Hc Hpl) in H. injection H as <- <-.
        split; [|eexists; reflexivity].
        destruct push; [|exact Hcl]. destruct Hcl as [Hb Hf]. split; [|exact Hf].
        simpl. apply Forall_app. split; [exact Hb|]. apply Forall_singleton.
        destruct Hhc as [Hd | ->]; [exact Hd|discriminate].
  - rewrite scan_S in H.
    destruct (read f false s) as [[s2 r2]|] eqn:E1; [|discriminate].
    destruct (IHr _ _ _ _ Hcl Hh E1) as [Hcl2 [v2 ->]].
    destruct v2 as [c2|]; [|injection H as <- <-; split; [exact Hcl2|eexists; reflexivity]].
    destruct (is_param c2);
      [|injection H as <- <-; split; [exact Hcl2|eexists; reflexivity]].
    destruct (proj1 (read_scan_consumed f) _ _ _ _ E1) as (pre1 & Hcons1 & _).
    apply (IHs _ _ _ _ Hcl2 (consumed_harmless _ _ _ Hcons1 Hh) H).
Qed.

Lemma loop_clean (n f : nat) :
  forall (s s1 : Local) (res : Result unit),
    clean (inst s) -> Forall harmless (chars s) ->
    loop n f s = Some (s1, res) ->
    clean (inst s1) /\ res = Ok tt.
Proof.
  induction n as [|n IH]; intros s s1 res Hcl Hh H.
  - simpl in H. destruct (chars s); [|discriminate]. injection H as <- <-.
    split; [exact Hcl|reflexivity].
  - destruct (decide (chars s = [])) as [Hnil|Hne].
    + rewrite loop_nil in H by exact Hnil. injection H as <- <-.
      split; [exact Hcl|reflexivity].
    + rewrite loop_S in H by exact Hne.
      destruct (read f true s) as [[s2 r2]|] eqn:E1; [|discriminate].
      destruct (proj1 (read_scan_clean f) _ _ _ _ Hcl Hh E1) as [Hcl2 [v2 ->]].
      destruct (hasEnded (inst s2)); [injection H as <- <-; split; [exact Hcl2|reflexivity]|].
      destruct (proj1 (read_scan_consumed f) _ _ _ _ E1) as (pre1 & Hcons1 & _).
      apply (IH _ _ _ Hcl2 (consumed_harmless _ _ _ Hcons1 Hh) H).
Qed.

Lemma harmless_normalised (str : jsstring) :
  Forall (fun c => c <= 127) str ->
  Forall harmless (replace_cr (replace_crlf str)).
Proof.
  intros Hall.
  assert (Forall (fun c => c <= 127) (replace_crlf str)) as Hcrlf.
  { clear -Hall. induction Hall as [|c str Hc Hall IH]; [constructor|].
    destruct (Z.eq_dec c 13) as [->|Hne].
    - destruct str as [|c' str']; [repeat constructor; lia|].
      destruct (Z.eq_dec c' 10) as [->|Hne'].
      + exact IH.
      + assert (replace_crlf (13 :: c' :: str') = 13 :: replace_crlf (c' :: str')) as ->.
        { destruct c' as [|p|p]; try reflexivity.
          do 4 (destruct p as [p|p|]; try reflexivity). contradiction. }
        constructor; [lia|exact IH].
    - rewrite replace_crlf_cons by exact Hne. constructor; assumption. }
  unfold replace_cr. apply Forall_fmap. eapply Forall_impl; [exact Hcrlf|].
  intros c Hc. simpl. destruct (Z.eqb_spec c 13); [right; reflexivity|].
  destruct (Z.eq_dec c 10) as [->|Hne]; [right; reflexivity|left].
  unfold dot. apply negb_true_iff. rewrite !orb_false_iff.
  cbv beta in Hc. repeat split; apply Z.eqb_neq; lia.
Qed.

(** X28. [process] throws only over a line separator.  On an instance
    whose line holds no line separator, and input characters that are
    newlines or characters that a dot of a regular expression matches (all
    but U+2028, U+2029 and a bare carriage return), it returns an echo, and
    the line still holds no line separator.  So it is for every input of
    bytes below 128. *)
Theorem process_throws_only_over_line_separators (r : ReadInstance) :
  clean r ->
  (forall cs, Forall harmless cs ->
     exists r' e, process_chars r cs = Some (r', Ok e) /\ clean r')
  /\ (forall value, Forall (fun b => (Byte.to_N b < 128)%N) value ->
        exists r' e, process r value = Some (r', Ok e) /\ clean r').
Proof.
  intros Hcl.
  assert (forall cs, Forall harmless cs ->
            exists r' e, process_chars r cs = Some (r', Ok e) /\ clean r') as Hchars.
  { intros cs Hh. destruct (process_chars_total r cs) as [[r' res] H].
    unfold process_chars in H.
    destruct (loop _ _ _) as [[s1 res1]|] eqn:E; [|discriminate].
    destruct (loop_clean _ _ (start r cs) _ _ Hcl Hh E) as [Hcl1 ->].
    injection H as <- <-. exists (inst s1), (echo s1).
    split; [|exact Hcl1]. unfold process_chars. rewrite E. reflexivity. }
  split; [exact Hchars|].
  intros value Hall. unfold process. apply Hchars.
  rewrite (TextDecoder_decode_ascii value Hall).
  apply harmless_normalised. unfold ascii_codes. apply Forall_fmap.
  eapply Forall_impl; [exact Hall|].
  intros b Hb. cbv beta. apply N2Z.inj_lt in Hb.
  change (Z.of_N 128) with 128 in Hb. apply Z.lt_succ_r. exact Hb.
Qed.

Lemma process_throws_only_over_line_separators_witness :
  exists r' e,
    process new_ReadInstance [x61; x0d; x0a] = Some (r', Ok e) /\ clean r'.
Proof.
  destruct (process_throws_only_over_line_separators new_ReadInstance) as [_ H].
  - split; constructor.
  - apply (H [x61; x0d; x0a]). repeat constructor.
Defined.
